(** * Financial-Planner-AI: the estimation engine, embedded and verified

    Shallow embedding of [financial_planner_api.py] and [model_trainer.py].

    Python's [float] is IEEE-754 binary64.  Every finite binary64 value is an
    integer multiple of [2^-1074], so a finite float is represented by that
    integer (its value "in units"); each arithmetic operation is the exact
    operation followed by round-to-nearest, ties-to-even, with overflow to an
    infinity, as IEEE-754 defines it.  The sign of zero is not represented:
    the embedded code never observes it (Python raises on division by zero,
    and comparisons and [round] ignore it).  The operations are compared
    with the Standard Library's executable IEEE-754 model, [SpecFloat], on
    the values the scenarios below go through. *)

From Stdlib Require Import ZArith NArith Lia List String Ascii Bool.
From Stdlib Require SpecFloat.
Import ListNotations.
Local Open Scope Z_scope.

(** ** Exceptions and results *)

Inductive exn : Type :=
| ZeroDivisionError
| OverflowError
| ValueError
| TypeError
| KeyError
| ValidationError.

Inductive result (A : Type) : Type :=
| Ok (a : A)
| Raise (e : exn).
Arguments Ok {A} a.
Arguments Raise {A} e.

Definition bind {A B : Type} (r : result A) (k : A -> result B) : result B :=
  match r with
  | Ok a => k a
  | Raise e => Raise e
  end.

Notation "x <- r ;; k" := (bind r (fun x => k))
  (at level 61, r at next level, right associativity).

(** ** binary64 *)

Module Float64.

(** [1.0] in units of [2^-1074]. *)
Definition one_units : Z := 2 ^ 1074.
(** [2^1024] in units: the first magnitude that no longer rounds to a
    finite value. *)
Definition overflow_units : Z := 2 ^ 2098.

Inductive float : Type :=
| Fin (n : Z)      (* the value n * 2^-1074 *)
| PInf
| NInf
| NaN.

(** Nearest integer to [a / c] ([0 < c]), ties to even. *)
Definition rne (a c : Z) : Z :=
  let (f, r) := Z.div_eucl a c in
  match 2 * r ?= c with
  | Lt => f
  | Gt => f + 1
  | Eq => if Z.even f then f else f + 1
  end.

(** The binary exponent of the unit in the last place of [a / b]
    ([0 < b]): 53 significant bits, never below one unit. *)
Definition ulp_exp (a b : Z) : Z := Z.max 0 (Z.log2 (Z.abs a / b) - 52).

(** The multiple of [2^k] nearest to [a / b]. *)
Definition round_units (a b : Z) : Z :=
  let k := ulp_exp a b in rne a (b * 2 ^ k) * 2 ^ k.

Definition classify (n : Z) : float :=
  if overflow_units <=? n then PInf
  else if n <=? - overflow_units then NInf
  else Fin n.

(** Correct rounding of the rational [a / b] (in units, [0 < b]). *)
Definition round64 (a b : Z) : float := classify (round_units a b).

(** [n] units is a binary64 value. *)
Definition representable (n : Z) : bool :=
  (n mod 2 ^ ulp_exp n 1 =? 0) && (Z.abs n <? overflow_units).

Definition is_binary64 (x : float) : bool :=
  match x with
  | Fin n => representable n
  | _ => true
  end.

Definition is_finite (x : float) : bool :=
  match x with
  | Fin _ => true
  | _ => false
  end.

Definition fneg (x : float) : float :=
  match x with
  | Fin n => Fin (- n)
  | PInf => NInf
  | NInf => PInf
  | NaN => NaN
  end.

Definition fadd (x y : float) : float :=
  match x, y with
  | NaN, _ | _, NaN => NaN
  | PInf, NInf | NInf, PInf => NaN
  | PInf, _ | _, PInf => PInf
  | NInf, _ | _, NInf => NInf
  | Fin a, Fin b => round64 (a + b) 1
  end.

Definition fsub (x y : float) : float := fadd x (fneg y).

Definition fmul (x y : float) : float :=
  match x, y with
  | NaN, _ | _, NaN => NaN
  | Fin a, Fin b => round64 (a * b) one_units
  | Fin a, PInf | PInf, Fin a =>
      if a =? 0 then NaN else if 0 <? a then PInf else NInf
  | Fin a, NInf | NInf, Fin a =>
      if a =? 0 then NaN else if 0 <? a then NInf else PInf
  | PInf, PInf | NInf, NInf => PInf
  | PInf, NInf | NInf, PInf => NInf
  end.

(** IEEE division of a value by a non-zero value. *)
Definition fdiv_nz (x y : float) : float :=
  match x, y with
  | NaN, _ | _, NaN => NaN
  | Fin a, Fin b => round64 (Z.sgn b * a * one_units) (Z.abs b)
  | Fin _, _ => Fin 0
  | PInf, Fin b => if 0 <? b then PInf else NInf
  | NInf, Fin b => if 0 <? b then NInf else PInf
  | _, _ => NaN
  end.

(** Python's [x / y] on floats: a zero divisor raises. *)
Definition fdiv (x y : float) : result float :=
  match y with
  | Fin 0 => Raise ZeroDivisionError
  | _ => Ok (fdiv_nz x y)
  end.

(** [x < y]; every comparison with a NaN is false. *)
Definition flt (x y : float) : bool :=
  match x, y with
  | NaN, _ | _, NaN => false
  | Fin a, Fin b => a <? b
  | PInf, _ | _, NInf => false
  | NInf, _ | _, PInf => true
  end.

Definition fgt (x y : float) : bool := flt y x.

Definition fle (x y : float) : bool :=
  match x, y with
  | NaN, _ | _, NaN => false
  | Fin a, Fin b => a <=? b
  | NInf, _ | _, PInf => true
  | PInf, _ | _, NInf => false
  end.

(** Python's [float(z)] as applied implicitly in mixed arithmetic: an
    integer that rounds out of range raises. *)
Definition of_int (z : Z) : result float :=
  match round64 (z * one_units) 1 with
  | Fin n => Ok (Fin n)
  | _ => Raise OverflowError
  end.

(** Python's one-argument [round] on a float: nearest integer, ties to
    even; raises on infinities and NaN. *)
Definition py_round (x : float) : result Z :=
  match x with
  | Fin n => Ok (rne n one_units)
  | PInf | NInf => Raise OverflowError
  | NaN => Raise ValueError
  end.

(** A float literal given as a decimal fraction [num / den]. *)
Definition of_ratio (num den : Z) : float := round64 (num * one_units) den.

(** The order on values, false on NaN. *)
Definition le_float (x y : float) : Prop := fle x y = true.

(** The least positive integer that [float()] refuses. *)
Definition int_overflow_bound : Z := 2 ^ 1024 - 2 ^ 970.

(** The largest finite value, [(2^53 - 1) * 2^971], in units. *)
Definition max_units : Z := (2 ^ 53 - 1) * 2 ^ 2045.

(** The four ways [rne a c] is determined by the remainder of [a] by
    [c]. *)
Inductive rne_cases (a c : Z) : Z -> Prop :=
| rne_down f r : a = c * f + r -> 0 <= r -> 2 * r < c -> rne_cases a c f
| rne_up f r : a = c * f + r -> r < c -> c < 2 * r -> rne_cases a c (f + 1)
| rne_tie_even f r :
    a = c * f + r -> 2 * r = c -> Z.even f = true -> rne_cases a c f
| rne_tie_odd f r :
    a = c * f + r -> 2 * r = c -> Z.even f = false -> rne_cases a c (f + 1).

End Float64.

Import Float64.

(** The integer literals the code mixes into float arithmetic, converted
    exactly. *)
Definition zero : float := Fin 0.
Definition hundred : float := Fin (100 * one_units).

(** [2^1023] as a float. *)
Definition two_pow_1023 : float := Fin (2 ^ 2097).

(** ** financial_planner_api.py: data model *)

(** A value stored in a dynamically typed numeric attribute. *)
Inductive number : Type :=
| NInt (z : Z)
| NFloat (x : float).

(** [class FinancialInput(BaseModel)]; [savings_percent] defaults to
    [None]. *)
Record FinancialInput : Type := mkFinancialInput {
  salary : float;
  expenses : float;
  goal_amount : float;
  goal_type : string;
  duration_years : Z;
  savings_percent : option number
}.

Definition number_in_percent_range (v : number) : bool :=
  match v with
  | NInt z => (0 <=? z) && (z <=? 100)
  | NFloat x => fle zero x && fle x hundred
  end.

(** The [Field] constraints of [FinancialInput]: [gt=0] on the three amounts
    and on the duration, [ge=0, le=100] on a supplied [savings_percent]. *)
Definition field_constraints (p : FinancialInput) : bool :=
  fgt (salary p) zero && fgt (expenses p) zero && fgt (goal_amount p) zero
  && (0 <? duration_years p)
  && match savings_percent p with
     | None => true
     | Some v => number_in_percent_range v
     end.

(** The three amounts are binary64 values. *)
Definition well_formed (p : FinancialInput) : bool :=
  is_binary64 (salary p) && is_binary64 (expenses p)
  && is_binary64 (goal_amount p).

Definition valid_profile (p : FinancialInput) : Prop :=
  well_formed p = true /\ field_constraints p = true.

(** A valid profile whose three amounts are finite. *)
Definition finite_profile (p : FinancialInput) : Prop :=
  valid_profile p /\
  is_finite (salary p) = true /\ is_finite (expenses p) = true /\
  is_finite (goal_amount p) = true.

(** The narrative of a response: one constructor per f-string template of the
    two routes, carrying the interpolated values. *)
Inductive insight : Type :=
| OnTrack (current_savings_rate monthly : float) (goal : string) (months : Z)
| IncreaseSavings (years : Z) (extra_savings_needed : float) (percent : Z)
| ModelSuggestsLonger (percent : Z) (years : Z)
| SaveEverythingWarning
| MustSaveMonthly (goal : string) (years : Z)
    (extra_amount_over_expenses : float).

(** [class PredictionResponse(BaseModel)]. *)
Record PredictionResponse : Type := mkPredictionResponse {
  r_goal_type : string;
  predicted_months : Z;
  recommended_savings_percent : Z;
  r_insight : insight
}.

(** Constructing a [PredictionResponse] validates [predicted_months >= 1] and
    [1 <= recommended_savings_percent <= 100]. *)
Definition make_response (g : string) (months percent : Z) (i : insight)
  : result PredictionResponse :=
  if (1 <=? months) && (1 <=? percent) && (percent <=? 100)
  then Ok (mkPredictionResponse g months percent i)
  else Raise ValidationError.

(** The row handed to the regressor, columns in training order. *)
Record FeatureRow : Type := mkFeatureRow {
  col_net_income : float;
  col_required_savings_rate : float;
  col_salary : float;
  col_expenses : float
}.

(** [np.clip] on integers. *)
Definition np_clip (x lo hi : Z) : Z := Z.min (Z.max x lo) hi.

(** ** financial_planner_api.py: helper functions and routes *)

(** The solver: no model, no state. *)
Definition calculate_recommendation (input_data : FinancialInput)
    (target_months : Z) : result Z :=
  t <- of_int target_months ;;
  monthly_savings_needed <- fdiv (goal_amount input_data) t ;;
  let net_income := fsub (salary input_data) (expenses input_data) in
  if fgt monthly_savings_needed net_income then Ok 100
  else
    let recommended_savings_amount :=
      fadd monthly_savings_needed (expenses input_data) in
    ratio <- fdiv recommended_savings_amount (salary input_data) ;;
    let recommended_percent := fmul ratio hundred in
    rounded <- py_round recommended_percent ;;
    Ok (np_clip rounded 1 100).

(** The two quantities the solver compares. *)
Definition monthly_savings_needed (input_data : FinancialInput)
    (target_months : Z) : result float :=
  t <- of_int target_months ;; fdiv (goal_amount input_data) t.

Definition net_income (input_data : FinancialInput) : float :=
  fsub (salary input_data) (expenses input_data).

(** The same profile with another goal amount. *)
Definition with_goal (p : FinancialInput) (g : float) : FinancialInput :=
  mkFinancialInput (salary p) (expenses p) g (goal_type p)
    (duration_years p) (savings_percent p).

(** The gap the [/predict] route tests in its second branch. *)
Definition extra_savings_needed (input_data : FinancialInput)
    (target_months : Z) : result float :=
  required <- monthly_savings_needed input_data target_months ;;
  Ok (fsub required (net_income input_data)).

(** The three narrative branches of the [/predict] route. *)
Inductive branch : Type :=
| BranchOnTrack
| BranchBehindWithGap
| BranchFallback.

Definition branch_of (i : insight) : option branch :=
  match i with
  | OnTrack _ _ _ _ => Some BranchOnTrack
  | IncreaseSavings _ _ _ => Some BranchBehindWithGap
  | ModelSuggestsLonger _ _ => Some BranchFallback
  | _ => None
  end.

(** Step 3 of [predict_goal_achievement]: the insight text. *)
Definition insight_generation (input_data : FinancialInput)
    (predicted target_months recommended : Z) : result insight :=
  q <- fdiv (fsub (salary input_data) (expenses input_data))
            (salary input_data) ;;
  let current_savings_rate := fmul q hundred in
  if predicted <=? target_months then
    Ok (OnTrack current_savings_rate
          (fsub (salary input_data) (expenses input_data))
          (goal_type input_data) predicted)
  else
    let current_savings := fsub (salary input_data) (expenses input_data) in
    t <- of_int target_months ;;
    required_savings_per_month <- fdiv (goal_amount input_data) t ;;
    let extra_savings_needed :=
      fsub required_savings_per_month current_savings in
    if fgt extra_savings_needed zero then
      Ok (IncreaseSavings (duration_years input_data) extra_savings_needed
            recommended)
    else
      Ok (ModelSuggestsLonger recommended (duration_years input_data)).

Section WithModel.

(** The loaded regressor: opaque inference on one row, which may raise. *)
Variable model_predict : FeatureRow -> result float.

(** The feature row and the regressor's raw output for a profile. *)
Definition raw_prediction (input_data : FinancialInput) : result float :=
  let net_income := fsub (salary input_data) (expenses input_data) in
  d <- of_int (duration_years input_data * 12) ;;
  required_savings_rate <- fdiv (goal_amount input_data) d ;;
  let data :=
    mkFeatureRow net_income required_savings_rate
      (salary input_data) (expenses input_data) in
  model_predict data.

Definition predict_time_to_goal (input_data : FinancialInput) : result Z :=
  predicted_months <- raw_prediction input_data ;;
  rounded <- py_round predicted_months ;;
  Ok (Z.max 1 rounded).

(** A route handler runs against the request object, which it may
    mutate: it returns its value and the object's final state. *)
Definition route (A : Type) : Type :=
  FinancialInput -> result (A * FinancialInput).

Definition ret {A : Type} (a : A) : route A := fun o => Ok (a, o).

Definition rbind {A B : Type} (m : route A) (k : A -> route B) : route B :=
  fun o => match m o with
           | Ok (a, o') => k a o'
           | Raise e => Raise e
           end.

(** A call that only reads the object. *)
Definition reading {A : Type} (f : FinancialInput -> result A) : route A :=
  fun o => match f o with
           | Ok a => Ok (a, o)
           | Raise e => Raise e
           end.

(** [input_data.savings_percent = v]; the model class does not validate
    assignments. *)
Definition set_savings_percent (v : number) : route unit :=
  fun o => Ok (tt, mkFinancialInput (salary o) (expenses o) (goal_amount o)
                     (goal_type o) (duration_years o) (Some v)).

Notation "x <~ m ;; k" := (rbind m (fun x => k))
  (at level 61, m at next level, right associativity).

(** [POST /predict]. *)
Definition predict_goal_achievement : route PredictionResponse :=
  predicted <~ reading predict_time_to_goal ;;
  target_months <~ reading (fun o => Ok (duration_years o * 12)) ;;
  recommended <~
    reading (fun o => calculate_recommendation o target_months) ;;
  insight_text <~
    reading (fun o =>
               insight_generation o predicted target_months recommended) ;;
  reading (fun o =>
             make_response (goal_type o) predicted recommended
               insight_text).

(** Step 2 of [get_savings_recommendation]. *)
Definition recommendation_insight (input_data : FinancialInput)
    (recommended : Z) : insight :=
  if recommended =? 100 then SaveEverythingWarning
  else
    let required_savings_amount :=
      fmul (of_ratio recommended 100) (salary input_data) in
    let extra_amount_over_expenses :=
      fsub required_savings_amount (expenses input_data) in
    MustSaveMonthly (goal_type input_data) (duration_years input_data)
      extra_amount_over_expenses.

(** [POST /recommend]. *)
Definition get_savings_recommendation : route PredictionResponse :=
  target_months <~ reading (fun o => Ok (duration_years o * 12)) ;;
  recommended <~
    reading (fun o => calculate_recommendation o target_months) ;;
  insight_text <~
    reading (fun o => Ok (recommendation_insight o recommended)) ;;
  _ <~ set_savings_percent (NInt recommended) ;;
  predicted <~ reading predict_time_to_goal ;;
  reading (fun o =>
             make_response (goal_type o) predicted recommended
               insight_text).

End WithModel.

(** ** Sample inputs *)

(** A whole number of currency units as a float. *)
Definition amount (z : Z) : float := Fin (z * one_units).

(** The two scenarios of the specification. *)
Definition scenario_feasible : FinancialInput :=
  mkFinancialInput (amount 100000) (amount 50000) (amount 240000) "car" 2
    None.

Definition scenario_infeasible : FinancialInput :=
  mkFinancialInput (amount 100000) (amount 60000) (amount 600000) "house" 1
    None.

(** Salary the largest finite float, expenses [(2^53 - 5) * 2^970], goal
    [(2^52 + 2) * 2^971]. *)
Definition overflowing_profile : FinancialInput :=
  mkFinancialInput (Fin max_units) (Fin ((2 ^ 53 - 5) * 2 ^ 2044))
    (Fin ((2 ^ 52 + 2) * 2 ^ 2045)) "house" 1 None.

(** The feasible scenario with a duration of [10^400] years. *)
Definition long_profile : FinancialInput :=
  mkFinancialInput (amount 100000) (amount 50000) (amount 240000) "car"
    (10 ^ 400) None.

(** The feasible scenario with a current savings rate of 20 percent. *)
Definition scenario_saving_20 : FinancialInput :=
  mkFinancialInput (amount 100000) (amount 50000) (amount 240000) "car" 2
    (Some (NFloat (amount 20))).

(** A regressor that answers the same value for every row. *)
Definition flat_model (months : float) : FeatureRow -> result float :=
  fun _ => Ok months.

(** A regressor that reads its row: a hundred times the required rate over
    the net income. *)
Definition feature_model (row : FeatureRow) : result float :=
  q <- fdiv (col_required_savings_rate row) (col_net_income row) ;;
  Ok (fmul q hundred).

(** ** Comparison with [SpecFloat] *)

(** A value in the Standard Library's representation: sign, significand of
    at most 53 bits, exponent. *)
Definition to_spec (x : float) : SpecFloat.spec_float :=
  match x with
  | Fin n =>
      let k := ulp_exp n 1 in
      match n / 2 ^ k with
      | Z0 => SpecFloat.S754_zero false
      | Zpos m => SpecFloat.S754_finite false m (k - 1074)
      | Zneg m => SpecFloat.S754_finite true m (k - 1074)
      end
  | PInf => SpecFloat.S754_infinity false
  | NInf => SpecFloat.S754_infinity true
  | NaN => SpecFloat.S754_nan
  end.

(** Equality up to the sign of zero. *)
Definition same_value (a b : SpecFloat.spec_float) : bool :=
  match a, b with
  | SpecFloat.S754_zero _, SpecFloat.S754_zero _ => true
  | SpecFloat.S754_infinity s, SpecFloat.S754_infinity s' => Bool.eqb s s'
  | SpecFloat.S754_nan, SpecFloat.S754_nan => true
  | SpecFloat.S754_finite s m e, SpecFloat.S754_finite s' m' e' =>
      Bool.eqb s s' && Pos.eqb m m' && Z.eqb e e'
  | _, _ => false
  end.

Inductive float_op : Type := OpAdd | OpSub | OpMul | OpDiv.

Definition apply_op (o : float_op) : float -> float -> float :=
  match o with
  | OpAdd => fadd
  | OpSub => fsub
  | OpMul => fmul
  | OpDiv => fdiv_nz
  end.

Definition reference_op (o : float_op)
  : SpecFloat.spec_float -> SpecFloat.spec_float -> SpecFloat.spec_float :=
  match o with
  | OpAdd => SpecFloat.SFadd 53 1024
  | OpSub => SpecFloat.SFsub 53 1024
  | OpMul => SpecFloat.SFmul 53 1024
  | OpDiv => SpecFloat.SFdiv 53 1024
  end.

(** Both operands are valid binary64 values of [SpecFloat] and the two
    models compute the same result. *)
Definition agrees_with_reference (c : float_op * float * float) : bool :=
  let '(o, x, y) := c in
  let sx := to_spec x in
  let sy := to_spec y in
  SpecFloat.valid_binary 53 1024 sx && SpecFloat.valid_binary 53 1024 sy
  && same_value (reference_op o sx sy) (to_spec (apply_op o x y)).

(** The operations the solver performs on the feasible scenario and on
    [overflowing_profile]. *)
Definition reference_cases : list (float_op * float * float) :=
  [ (OpDiv, amount 240000, amount 24);
    (OpSub, amount 100000, amount 50000);
    (OpAdd, amount 10000, amount 50000);
    (OpDiv, amount 60000, amount 100000);
    (OpMul, of_ratio 6 10, hundred);
    (OpSub, Fin max_units, Fin ((2 ^ 53 - 5) * 2 ^ 2044));
    (OpAdd, Fin ((2 ^ 52 + 2) * 2 ^ 2045), Fin ((2 ^ 53 - 5) * 2 ^ 2044)) ].

(** ** model_trainer.py *)

Module ModelTrainer.

Definition NUM_RECORDS : nat := 1000.

(** *** NumPy scalar kernels *)

(** int64 arithmetic wraps around. *)
Definition wrap_int64 (z : Z) : Z := (z + 2 ^ 63) mod 2 ^ 64 - 2 ^ 63.

(** int64 to float64. *)
Definition np_float (z : Z) : float := round64 (z * one_units) 1.

(** float64 division: a zero divisor (taken as [+0.0]) gives an infinity
    or NaN instead of raising. *)
Definition np_divide (x y : float) : float :=
  match y with
  | Fin 0 =>
      match x with
      | Fin a => if a =? 0 then NaN else if 0 <? a then PInf else NInf
      | _ => x
      end
  | _ => fdiv_nz x y
  end.

Definition np_ceil (x : float) : float :=
  match x with
  | Fin n => Fin (- ((- n) / one_units) * one_units)
  | _ => x
  end.

(** [np.clip] on float64: [minimum(maximum(x, lo), hi)], NaN propagates. *)
Definition np_clip_float (x lo hi : float) : float :=
  match x with
  | NaN => NaN
  | _ => let m := if flt x lo then lo else x in
         if flt hi m then hi else m
  end.

(** [astype(int)]: truncation toward zero; a non-finite value converts to
    the minimum int64 (the x86-64 result). *)
Definition astype_int (x : float) : Z :=
  match x with
  | Fin n => wrap_int64 (Z.quot n one_units)
  | _ => - 2 ^ 63
  end.

Definition bool_to_int (b : bool) : Z := if b then 1 else 0.

(** Elementwise binary operation on equally long arrays. *)
Fixpoint zip_with {A B C : Type} (f : A -> B -> C) (xs : list A)
    (ys : list B) : list C :=
  match xs, ys with
  | x :: xs', y :: ys' => f x y :: zip_with f xs' ys'
  | _, _ => []
  end.

(** *** Data frames *)

Inductive cell : Type :=
| CInt (z : Z)
| CFloat (x : float)      (* a missing value is the float NaN *)
| CStr (s : string).

Definition column : Type := list cell.

(** Column name to column, in insertion order. *)
Definition DataFrame : Type := list (string * column).

Fixpoint get_column (df : DataFrame) (name : string) : result column :=
  match df with
  | [] => Raise KeyError
  | (k, c) :: rest =>
      if String.eqb k name then Ok c else get_column rest name
  end.

(** [df[name] = c]: replaces the column, or appends a new one. *)
Fixpoint set_column (df : DataFrame) (name : string) (c : column)
  : DataFrame :=
  match df with
  | [] => [(name, c)]
  | (k, c') :: rest =>
      if String.eqb k name then (k, c) :: rest
      else (k, c') :: set_column rest name c
  end.

(** [df[[n1; n2; ...]]]. *)
Fixpoint select_columns (df : DataFrame) (names : list string)
  : result DataFrame :=
  match names with
  | [] => Ok []
  | n :: rest =>
      c <- get_column df n ;;
      sel <- select_columns df rest ;;
      Ok ((n, c) :: sel)
  end.

(** A missing entry in a column. *)
Definition is_missing (c : cell) : bool :=
  match c with
  | CFloat NaN => true
  | _ => false
  end.

Definition is_non_numeric (c : cell) : bool :=
  match c with
  | CStr _ => true
  | _ => false
  end.

(** [pd.notna] on one entry: a string is not missing. *)
Definition notna (c : cell) : bool := negb (is_missing c).

Definition has_non_numeric (c : column) : bool := existsb is_non_numeric c.
Definition has_missing (c : column) : bool := existsb is_missing c.

(** *** Column arithmetic, as pandas performs it *)

(** The dtype pandas infers for a column from its values: [object] when it
    holds a string, [float64] when it holds a float and no string, [int64]
    otherwise. The integers of a numeric column are int64 values, those of
    an object column are Python integers. *)
Inductive dtype : Type :=
| Int64
| Float64
| Object.

Definition is_float (c : cell) : bool :=
  match c with
  | CFloat _ => true
  | _ => false
  end.

Definition dtype_of (c : column) : dtype :=
  if has_non_numeric c then Object
  else if existsb is_float c then Float64
  else Int64.

(** A cell of a numeric column, as int64 and as float64. *)
Definition as_int (c : cell) : Z :=
  match c with
  | CInt z => z
  | _ => 0
  end.

Definition as_float (c : cell) : float :=
  match c with
  | CInt z => np_float z
  | CFloat x => x
  | CStr _ => NaN
  end.

(** The elements of a column as Python objects, the way NumPy hands them to
    the loop over an object column: floats for a float64 column. *)
Definition elements (c : column) : column :=
  match dtype_of c with
  | Float64 => map (fun x => CFloat (as_float x)) c
  | _ => c
  end.

(** NumPy's loops on numeric columns: they never raise. *)
Definition int64_sub (a b : cell) : cell :=
  CInt (wrap_int64 (as_int a - as_int b)).

Definition float64_sub (a b : cell) : cell :=
  CFloat (fsub (as_float a) (as_float b)).

Definition int64_times_12 (a : cell) : cell :=
  CInt (wrap_int64 (as_int a * 12)).

Definition float64_times_12 (a : cell) : cell :=
  CFloat (fmul (as_float a) (Fin (12 * one_units))).

Definition float64_div (a b : cell) : cell :=
  CFloat (np_divide (as_float a) (as_float b)).

(** Python's operators on the elements of an object column. An integer
    is converted for an operation with a float. *)
Definition py_float (c : cell) : result float :=
  match c with
  | CInt z => of_int z
  | CFloat x => Ok x
  | CStr _ => Raise TypeError
  end.

(** [a - b]: integers subtract exactly; a string operand raises. *)
Definition py_sub (a b : cell) : result cell :=
  match a, b with
  | CStr _, _ | _, CStr _ => Raise TypeError
  | CInt x, CInt y => Ok (CInt (x - y))
  | _, _ => x <- py_float a ;; y <- py_float b ;; Ok (CFloat (fsub x y))
  end.

Fixpoint repeat_string (n : nat) (s : string) : string :=
  match n with
  | O => EmptyString
  | S n' => String.append s (repeat_string n' s)
  end.

(** [a * 12]: a string is repeated. *)
Definition py_times_12 (a : cell) : cell :=
  match a with
  | CInt x => CInt (x * 12)
  | CFloat x => CFloat (fmul x (Fin (12 * one_units)))
  | CStr s => CStr (repeat_string 12 s)
  end.

(** [a / b]: true division. Two integers give the correctly rounded
    quotient; a zero divisor raises; a string operand raises. *)
Definition py_truediv (a b : cell) : result cell :=
  match a, b with
  | CStr _, _ | _, CStr _ => Raise TypeError
  | CInt x, CInt y =>
      if y =? 0 then Raise ZeroDivisionError
      else match round64 (Z.sgn y * x * one_units) (Z.abs y) with
           | Fin n => Ok (CFloat (Fin n))
           | _ => Raise OverflowError
           end
  | _, _ =>
      x <- py_float a ;; y <- py_float b ;; q <- fdiv x y ;; Ok (CFloat q)
  end.

(** The loop over an object column: the operator on each pair in turn,
    stopped by the first exception. *)
Fixpoint column_op (f : cell -> cell -> result cell) (xs ys : column)
  : result column :=
  match xs, ys with
  | x :: xs', y :: ys' =>
      v <- f x y ;; rest <- column_op f xs' ys' ;; Ok (v :: rest)
  | _, _ => Ok []
  end.

(** pandas' second attempt on an object column ([_masked_arith_op]): the
    operator on the pairs that hold no missing value, NaN elsewhere. *)
Definition masked_op (f : cell -> cell -> result cell) (xs ys : column)
  : result column :=
  column_op (fun a b => if notna a && notna b then f a b
                        else Ok (CFloat NaN)) xs ys.

(** pandas' arithmetic on an object column ([_na_arithmetic_op]): a
    [TypeError] of the loop is caught and the operation tried again on the
    pairs without a missing value; any other exception propagates. *)
Definition object_op (f : cell -> cell -> result cell) (xs ys : column)
  : result column :=
  match column_op f xs ys with
  | Raise TypeError => masked_op f xs ys
  | r => r
  end.

(** [xs - ys] on two columns of a frame. *)
Definition series_sub (xs ys : column) : result column :=
  match dtype_of xs, dtype_of ys with
  | Object, _ | _, Object => object_op py_sub (elements xs) (elements ys)
  | Int64, Int64 => Ok (zip_with int64_sub xs ys)
  | _, _ => Ok (zip_with float64_sub xs ys)
  end.

(** [xs * 12]. *)
Definition series_times_12 (xs : column) : column :=
  match dtype_of xs with
  | Object => map py_times_12 xs
  | Int64 => map int64_times_12 xs
  | Float64 => map float64_times_12 xs
  end.

(** [xs / ys]. *)
Definition series_div (xs ys : column) : result column :=
  match dtype_of xs, dtype_of ys with
  | Object, _ | _, Object =>
      object_op py_truediv (elements xs) (elements ys)
  | _, _ => Ok (zip_with float64_div xs ys)
  end.

(** *** generate_synthetic_data *)

Section WithRandomState.

(** NumPy's global generator: its state and the draws the script uses,
    each returning the array drawn and the advanced state. *)
Variable rng_state : Type.
Variable seed : Z -> rng_state.
Variable randint : Z -> Z -> nat -> rng_state -> list Z * rng_state.
Variable uniform :
  float -> float -> nat -> rng_state -> list float * rng_state.
Variable choice :
  list string -> nat -> rng_state -> list string * rng_state.

(** A computation over the global generator. *)
Definition rand (A : Type) : Type := rng_state -> A * rng_state.

Definition rand_ret {A : Type} (a : A) : rand A := fun g => (a, g).

Definition rand_bind {A B : Type} (m : rand A) (k : A -> rand B)
  : rand B :=
  fun g => let (a, g') := m g in k a g'.

(** [np.random.seed(s)] overwrites the state. *)
Definition np_random_seed (s : Z) : rand unit := fun _ => (tt, seed s).

Notation "x <~ m ;; k" := (rand_bind m (fun x => k))
  (at level 61, m at next level, right associativity).

Definition generate_synthetic_data (n_records : nat) : rand DataFrame :=
  _ <~ np_random_seed 42 ;;
  salary <~ randint 30000 200000 n_records ;;
  fraction <~ uniform (of_ratio 3 10) (of_ratio 8 10) n_records ;;
  let expenses := zip_with (fun s u => fmul (np_float s) u)
                    salary fraction in
  savings_percent <~
    uniform (of_ratio 1 10) (of_ratio 4 10) n_records ;;
  goal_amount <~ randint 100000 5000000 n_records ;;
  duration_years <~ randint 1 10 n_records ;;
  goal_type <~
    choice ["car"; "house_downpayment"; "trip"; "education"]%string
      n_records ;;
  let monthly_savings :=
    zip_with (fun s r => fmul (np_float s) r) salary savings_percent in
  let time_months :=
    map np_ceil
      (zip_with (fun g m => np_divide (np_float g) m)
         goal_amount monthly_savings) in
  noise <~ randint (-10) 10 n_records ;;
  let time_months :=
    zip_with (fun t z => fadd t (np_float z)) time_months noise in
  let time_months :=
    map (fun t => np_clip_float t (Fin one_units) (Fin (120 * one_units)))
      time_months in
  rand_ret
    [ ("salary", map CInt salary);
      ("expenses", map CFloat expenses);
      ("goal_amount", map CInt goal_amount);
      ("duration_years", map CInt duration_years);
      ("goal_type", map CStr goal_type);
      ("savings_percent",
        map (fun r => CFloat (fmul r hundred)) savings_percent);
      ("time_months", map (fun t => CInt (astype_int t)) time_months);
      ("achieved",
        zip_with
          (fun t d =>
             CInt (bool_to_int (fle t (np_float (wrap_int64 (d * 12))))))
          time_months duration_years) ]%string.

End WithRandomState.

(** *** train_and_save_model *)

Section WithEstimator.

(** scikit-learn and joblib, as far as the script calls them. *)
Variable Model : Type.
Variable train_test_split :
  DataFrame -> column ->
  result (DataFrame * DataFrame * column * column).
Variable fit : DataFrame -> column -> result Model.
Variable predict : Model -> DataFrame -> result column.
Variable mean_absolute_error : column -> column -> result float.

Inductive event : Type :=
| CallFit (X : DataFrame) (y : column)
| CallPredict (X : DataFrame)
| PrintMae (mae : float)
| CallDump
| PrintSaved.

(** What training can change: the caller's frame, the file at
    [MODEL_PATH], and the calls and output made so far (oldest
    first). *)
Record world : Type := mkWorld {
  frame : DataFrame;
  artifact : option Model;
  history : list event
}.

(** State survives an exception. *)
Definition io (A : Type) : Type := world -> result A * world.

Definition io_ret {A : Type} (a : A) : io A := fun w => (Ok a, w).

Definition io_bind {A B : Type} (m : io A) (k : A -> io B) : io B :=
  fun w => match m w with
           | (Ok a, w') => k a w'
           | (Raise e, w') => (Raise e, w')
           end.

Definition lift {A : Type} (r : result A) : io A := fun w => (r, w).

Definition log (e : event) : io unit :=
  fun w => (Ok tt, mkWorld (frame w) (artifact w) (history w ++ [e])).

Definition read_frame : io DataFrame := fun w => (Ok (frame w), w).

Definition assign_column (name : string) (c : column) : io unit :=
  fun w => (Ok tt, mkWorld (set_column (frame w) name c) (artifact w)
                     (history w)).

(** [joblib.dump(model, MODEL_PATH)]. *)
Definition joblib_dump (m : Model) : io unit :=
  fun w => (Ok tt, mkWorld (frame w) (Some m) (history w ++ [CallDump])).

Notation "x <~ m ;; k" := (io_bind m (fun x => k))
  (at level 61, m at next level, right associativity).

Definition feature_names : list string :=
  ["net_income"; "required_savings_rate"; "salary"; "expenses"]%string.

(** Lines 61-65: the two derived columns are added to the caller's
    frame, then the feature frame and the target are selected. *)
Definition derive_features : io (DataFrame * column) :=
  df <~ read_frame ;;
  salary <~ lift (get_column df "salary") ;;
  expenses <~ lift (get_column df "expenses") ;;
  net_income <~ lift (series_sub salary expenses) ;;
  _ <~ assign_column "net_income" net_income ;;
  df <~ read_frame ;;
  goal_amount <~ lift (get_column df "goal_amount") ;;
  duration_years <~ lift (get_column df "duration_years") ;;
  rate <~ lift (series_div goal_amount
                  (series_times_12 duration_years)) ;;
  _ <~ assign_column "required_savings_rate" rate ;;
  df <~ read_frame ;;
  X <~ lift (select_columns df feature_names) ;;
  y <~ lift (get_column df "time_months") ;;
  io_ret (X, y).

(** Lines 68-82: split, fit, evaluate, report, save. *)
Definition fit_evaluate_save (X : DataFrame) (y : column) : io Model :=
  parts <~ lift (train_test_split X y) ;;
  let '(X_train, X_test, y_train, y_test) := parts in
  _ <~ log (CallFit X_train y_train) ;;
  model <~ lift (fit X_train y_train) ;;
  _ <~ log (CallPredict X_test) ;;
  y_pred <~ lift (predict model X_test) ;;
  mae <~ lift (mean_absolute_error y_test y_pred) ;;
  _ <~ log (PrintMae mae) ;;
  _ <~ joblib_dump model ;;
  _ <~ log PrintSaved ;;
  io_ret model.

Definition train_and_save_model : io Model :=
  Xy <~ derive_features ;;
  fit_evaluate_save (fst Xy) (snd Xy).

Definition fit_was_called (w : world) : bool :=
  existsb (fun e => match e with CallFit _ _ => true | _ => false end)
    (history w).

(** The calls that must all return for the artifact to be written. *)
Definition estimator_returns (X : DataFrame) (y : column) : bool :=
  match train_test_split X y with
  | Ok (X_train, X_test, y_train, y_test) =>
      match fit X_train y_train with
      | Ok model =>
          match predict model X_test with
          | Ok y_pred =>
              match mean_absolute_error y_test y_pred with
              | Ok _ => true
              | Raise _ => false
              end
          | Raise _ => false
          end
      | Raise _ => false
      end
  | Raise _ => false
  end.

End WithEstimator.

(** Some cell of the frame is missing or not a number. *)
Definition frame_has_invalid (X : DataFrame) : bool :=
  existsb (fun kc => has_missing (snd kc) || has_non_numeric (snd kc)) X.

(** A string sits beside a value that is not missing: the pair that
    pandas' second attempt still hands to Python's operator. *)
Definition text_meets_value (xs ys : column) : bool :=
  existsb (fun ab => (is_non_numeric (fst ab) || is_non_numeric (snd ab))
                     && notna (fst ab) && notna (snd ab))
    (combine xs ys).

(** The integers of a column are int64 values. *)
Definition fits_int64 (c : cell) : bool :=
  match c with
  | CInt z => (- 2 ^ 63 <=? z) && (z <? 2 ^ 63)
  | _ => true
  end.

Definition int64_column (c : column) : bool := forallb fits_int64 c.

Definition is_zero (c : cell) : bool :=
  match c with
  | CInt 0 => true
  | CFloat (Fin 0) => true
  | _ => false
  end.

(** The division runs in Python, on an object column, and some divisor is
    zero. *)
Definition divides_by_zero (goal_amount duration_years : column) : bool :=
  (has_non_numeric goal_amount || has_non_numeric duration_years)
  && existsb is_zero (series_times_12 duration_years).

(** What Python's arithmetic on numbers and strings raises. *)
Definition arithmetic_error (e : exn) : Prop :=
  e = TypeError \/ e = ZeroDivisionError \/ e = OverflowError.

(** An estimator that accepts every frame, and a two-record dataset whose
    first salary is missing. *)
Definition lenient_split (X : DataFrame) (y : column)
  : result (DataFrame * DataFrame * column * column) := Ok (X, X, y, y).
Definition lenient_fit (X : DataFrame) (y : column) : result unit := Ok tt.
Definition lenient_predict (m : unit) (X : DataFrame) : result column :=
  Ok [].
Definition lenient_mae (y_true y_pred : column) : result float :=
  Ok (Fin 0).

Definition dataset_with_missing_salary : DataFrame :=
  [ ("salary", [CFloat NaN; CInt 50000]);
    ("expenses", [CFloat (Fin (20000 * one_units));
                  CFloat (Fin (30000 * one_units))]);
    ("goal_amount", [CInt 240000; CInt 600000]);
    ("duration_years", [CInt 2; CInt 3]);
    ("time_months", [CInt 10; CInt 20]) ]%string.

Definition dataset_with_text_salary : DataFrame :=
  [ ("salary", [CStr "n/a"; CInt 50000]);
    ("expenses", [CFloat (Fin (20000 * one_units));
                  CFloat (Fin (30000 * one_units))]);
    ("goal_amount", [CInt 240000; CInt 600000]);
    ("duration_years", [CInt 2; CInt 3]);
    ("time_months", [CInt 10; CInt 20]) ]%string.

(** A dataset whose first goal amount is a string and whose first duration
    is missing. *)
Definition dataset_with_text_beside_missing : DataFrame :=
  [ ("salary", [CInt 40000; CInt 50000]);
    ("expenses", [CFloat (Fin (20000 * one_units));
                  CFloat (Fin (30000 * one_units))]);
    ("goal_amount", [CStr "n/a"; CInt 600000]);
    ("duration_years", [CFloat NaN; CInt 3]);
    ("time_months", [CInt 10; CInt 20]) ]%string.

(** A generator with a one-cell state, for evaluating the script. *)
Definition counter_seed (s : Z) : Z := s.
Definition counter_randint (lo hi : Z) (n : nat) (g : Z)
  : list Z * Z :=
  (map (fun i => lo + (g + Z.of_nat i) mod (hi - lo)) (seq 0 n),
   g + Z.of_nat n).
Definition counter_uniform (lo hi : float) (n : nat) (g : Z)
  : list float * Z := (repeat lo n, g + 1).
Definition counter_choice (xs : list string) (n : nat) (g : Z)
  : list string * Z := (repeat (hd EmptyString xs) n, g + 1).

End ModelTrainer.

(** ** financial_planner_api.py: the allowed origins *)

Module Cors.

(** A Python [str]: its code points. *)
Definition str : Type := list N.

Definition of_ascii (s : string) : str :=
  map N_of_ascii (list_ascii_of_string s).

Definition comma : N := 44.

(** [str.isspace] on one character. *)
Definition is_space (c : N) : bool :=
  (((9 <=? c) && (c <=? 13)) || ((28 <=? c) && (c <=? 32))
   || (c =? 133) || (c =? 160) || (c =? 5760)
   || ((8192 <=? c) && (c <=? 8202))
   || (c =? 8232) || (c =? 8233) || (c =? 8239) || (c =? 8287)
   || (c =? 12288))%N.

Fixpoint lstrip (s : str) : str :=
  match s with
  | [] => []
  | c :: r => if is_space c then lstrip r else s
  end.

Definition rstrip (s : str) : str := rev (lstrip (rev s)).

(** [s.strip()]. *)
Definition strip (s : str) : str := rstrip (lstrip s).

(** [s.split(sep)] for a one-character separator: one more piece than there
    are separators, empty pieces included. *)
Fixpoint split (sep : N) (s : str) : list str :=
  match s with
  | [] => [[]]
  | c :: r =>
      if (c =? sep)%N then [] :: split sep r
      else match split sep r with
           | p :: ps => (c :: p) :: ps
           | [] => [[c]]
           end
  end.

(** [sep.join(xs)]. *)
Definition join (sep : N) (xs : list str) : str :=
  match xs with
  | [] => []
  | x :: r => x ++ List.concat (map (fun y => sep :: y) r)
  end.

(** A string is true when it is not empty. *)
Definition truthy (s : str) : bool :=
  match s with
  | [] => false
  | _ => true
  end.

Definition DEFAULT_CORS_ORIGINS : str :=
  of_ascii "http://localhost:5173,http://127.0.0.1:5173".

(** [os.getenv(name, default)], given the variable's value if it is set. *)
Definition getenv (value : option str) (default : str) : str :=
  match value with
  | Some v => v
  | None => default
  end.

(** Lines 30-31: the origins handed to the CORS middleware. *)
Definition origins (cors_origins_env : option str) : list str :=
  let cors_origins_str := getenv cors_origins_env DEFAULT_CORS_ORIGINS in
  map strip
    (filter (fun origin => truthy (strip origin))
       (split comma cors_origins_str)).

End Cors.

(** ** What the routes may raise *)

(** The errors of a conversion, of [round] and of the model. *)
Definition expected_error (model : FeatureRow -> result float) (e : exn)
  : Prop :=
  e = OverflowError \/ e = ValueError \/ exists row, model row = Raise e.

(** ** Variations of a profile *)

Definition with_expenses (p : FinancialInput) (e : float) : FinancialInput :=
  mkFinancialInput (salary p) e (goal_amount p) (goal_type p)
    (duration_years p) (savings_percent p).

Definition with_salary (p : FinancialInput) (s : float) : FinancialInput :=
  mkFinancialInput s (expenses p) (goal_amount p) (goal_type p)
    (duration_years p) (savings_percent p).

(** The share of the salary that the expenses take, as a percentage
    rounded and clamped the way the solver does: what its feasible branch
    computes when nothing has to be saved. It is the yardstick of a
    theorem below, not a function of the source. *)
Definition expense_share_percent (input_data : FinancialInput) : result Z :=
  ratio <- fdiv (expenses input_data) (salary input_data) ;;
  rounded <- py_round (fmul ratio hundred) ;;
  Ok (np_clip rounded 1 100).

(** Expenses above the salary. *)
Definition scenario_overspending : FinancialInput :=
  mkFinancialInput (amount 50000) (amount 60000) (amount 240000) "trip" 2
    None.

(** The feasible scenario on a salary of 120000 and on expenses of 70000. *)
Definition scenario_higher_salary : FinancialInput :=
  with_salary scenario_feasible (amount 120000).

Definition scenario_higher_expenses : FinancialInput :=
  with_expenses scenario_feasible (amount 70000).

(** ** More sample frames *)

Module Frames.
Import ModelTrainer.

(** The five columns training reads. *)
Definition required_columns : list string :=
  ["salary"; "expenses"; "goal_amount"; "duration_years";
   "time_months"]%string.

(** A dataset without its target column. *)
Definition dataset_without_target : DataFrame :=
  [ ("salary", [CInt 40000; CInt 50000]);
    ("expenses", [CFloat (Fin (20000 * one_units));
                  CFloat (Fin (30000 * one_units))]);
    ("goal_amount", [CInt 240000; CInt 600000]);
    ("duration_years", [CInt 2; CInt 3]) ]%string.

(** A cell holds a number that is not missing. *)
Definition is_clean (c : cell) : bool :=
  negb (is_missing c) && negb (is_non_numeric c).

End Frames.

(** ** model_trainer.py: the frame assembled from the arrays drawn *)

Module Synthetic.
Import ModelTrainer.

(** Lines 22-53 of [generate_synthetic_data], given the seven arrays. *)
Definition synthetic_frame (salary : list Z)
    (fraction savings_percent : list float)
    (goal_amount duration_years : list Z) (goal_type : list string)
    (noise : list Z) : DataFrame :=
  let expenses := zip_with (fun s u => fmul (np_float s) u)
                    salary fraction in
  let monthly_savings :=
    zip_with (fun s r => fmul (np_float s) r) salary savings_percent in
  let time_months :=
    map np_ceil
      (zip_with (fun g m => np_divide (np_float g) m)
         goal_amount monthly_savings) in
  let time_months :=
    zip_with (fun t z => fadd t (np_float z)) time_months noise in
  let time_months :=
    map (fun t => np_clip_float t (Fin one_units) (Fin (120 * one_units)))
      time_months in
  [ ("salary", map CInt salary);
    ("expenses", map CFloat expenses);
    ("goal_amount", map CInt goal_amount);
    ("duration_years", map CInt duration_years);
    ("goal_type", map CStr goal_type);
    ("savings_percent",
      map (fun r => CFloat (fmul r hundred)) savings_percent);
    ("time_months", map (fun t => CInt (astype_int t)) time_months);
    ("achieved",
      zip_with
        (fun t d =>
           CInt (bool_to_int (fle t (np_float (wrap_int64 (d * 12))))))
        time_months duration_years) ]%string.

Definition column_names : list string :=
  ["salary"; "expenses"; "goal_amount"; "duration_years"; "goal_type";
   "savings_percent"; "time_months"; "achieved"]%string.

(** A salary cell and an expenses cell of one record: positive expenses
    that the salary covers. *)
Definition within_salary (a b : cell) : Prop :=
  exists s e, a = CInt s /\ b = CFloat (Fin e) /\
              0 < e <= s * one_units.

(** A month count between 1 and 120. *)
Definition is_month_count (c : cell) : Prop :=
  exists z, c = CInt z /\ 1 <= z <= 120.

(** What the script expects of the seven arrays: [n] values each, in the
    ranges asked for. *)
Definition drawn (n : nat) (salary : list Z)
    (fraction savings_percent : list float)
    (goal_amount duration_years : list Z) (goal_type : list string)
    (noise : list Z) : Prop :=
  (List.length salary = n /\ List.length fraction = n /\
   List.length savings_percent = n /\ List.length goal_amount = n /\
   List.length duration_years = n /\ List.length goal_type = n /\
   List.length noise = n) /\
  (forall s, In s salary -> 30000 <= s < 200000) /\
  (forall u, In u fraction ->
     le_float (of_ratio 3 10) u /\ le_float u (of_ratio 8 10)) /\
  (forall r, In r savings_percent ->
     le_float (of_ratio 1 10) r /\ le_float r (of_ratio 4 10)) /\
  (forall g, In g goal_amount -> 100000 <= g < 5000000) /\
  (forall d, In d duration_years -> 1 <= d < 10) /\
  (forall z, In z noise -> -10 <= z < 10).

Section WithRandomState.

Variable rng_state : Type.
Variable randint : Z -> Z -> nat -> rng_state -> list Z * rng_state.
Variable uniform :
  float -> float -> nat -> rng_state -> list float * rng_state.
Variable choice :
  list string -> nat -> rng_state -> list string * rng_state.

(** NumPy's documentation of the three draws: [size] values, integers
    in [[low, high)], floats between [low] and [high]. *)
Definition numpy_draws : Prop :=
  (forall lo hi n g,
     List.length (fst (randint lo hi n g)) = n /\
     (lo < hi -> forall x, In x (fst (randint lo hi n g)) -> lo <= x < hi))
  /\
  (forall lo hi n g,
     List.length (fst (uniform lo hi n g)) = n /\
     (le_float lo hi ->
      forall x, In x (fst (uniform lo hi n g)) ->
                le_float lo x /\ le_float x hi))
  /\
  (forall xs n g, List.length (fst (choice xs n g)) = n).

End WithRandomState.

End Synthetic.

(** * Facts about the embedding *)

Module Float64Facts.

(** *** Nearest-even rounding of a quotient *)

(** [rne] through the quotient and the remainder. *)
Lemma rne_unfold a c :
  rne a c =
    match 2 * (a mod c) ?= c with
    | Lt => a / c
    | Gt => a / c + 1
    | Eq => if Z.even (a / c) then a / c else a / c + 1
    end.
Proof.
  unfold rne, Z.div, Z.modulo. destruct (Z.div_eucl a c). reflexivity.
Qed.

Lemma rne_spec a c : 0 < c -> rne_cases a c (rne a c).
Proof.
  intros Hc. rewrite rne_unfold.
  pose proof (Z.div_mod a c ltac:(lia)) as Hdm.
  pose proof (Z.mod_pos_bound a c Hc) as Hr.
  destruct (Z.compare_spec (2 * (a mod c)) c) as [He | Hl | Hg].
  - destruct (Z.even (a / c)) eqn:Ev.
    + eapply rne_tie_even; eauto.
    + eapply rne_tie_odd; eauto.
  - eapply rne_down; eauto; lia.
  - eapply rne_up; eauto; lia.
Qed.

Lemma floor_le c1 c2 f1 f2 r1 r2 :
  0 < c1 -> 0 < c2 -> 0 <= r1 -> r2 < c2 ->
  (c1 * f1 + r1) * c2 <= (c2 * f2 + r2) * c1 -> f1 <= f2.
Proof.
  intros H1 H2 Hr1 Hr2 Hle.
  destruct (Z_le_gt_dec f1 f2) as [|Hgt]; [assumption | exfalso].
  assert (c1 * c2 * (f2 + 1) <= c1 * c2 * f1)
    by (apply Z.mul_le_mono_nonneg_l; nia).
  nia.
Qed.

(** Rounding to the nearest integer is monotone in the fraction. *)
Lemma rne_mono a1 c1 a2 c2 :
  0 < c1 -> 0 < c2 -> a1 * c2 <= a2 * c1 -> rne a1 c1 <= rne a2 c2.
Proof.
  intros H1 H2 Hle.
  destruct (rne_spec a1 c1 H1)
    as [f1 r1 E1 ? ? | f1 r1 E1 ? ? | f1 r1 E1 ? Ev1 | f1 r1 E1 ? Ev1];
  destruct (rne_spec a2 c2 H2)
    as [f2 r2 E2 ? ? | f2 r2 E2 ? ? | f2 r2 E2 ? Ev2 | f2 r2 E2 ? Ev2];
  subst a1 a2;
  assert (f1 <= f2) by (apply (floor_le c1 c2 f1 f2 r1 r2); lia);
  try lia;
  (assert (f1 < f2 \/ f1 = f2) as [Hlt | Heq] by lia;
   [lia | subst f2; try congruence; exfalso; nia]).
Qed.

(** An integer is its own nearest integer. *)
Lemma rne_exact m c : 0 < c -> rne (m * c) c = m.
Proof.
  intros Hc. rewrite rne_unfold.
  rewrite Z.div_mul, Z.mod_mul by lia.
  destruct (Z.compare_spec (2 * 0) c); lia.
Qed.

(** Ties-to-even is symmetric about zero. *)
Lemma rne_opp a c : 0 < c -> rne (- a) c = - rne a c.
Proof.
  intros Hc. rewrite !rne_unfold.
  destruct (Z.eq_dec (a mod c) 0) as [Hz | Hnz].
  - rewrite Z.mod_opp_l_z, Z.div_opp_l_z, Hz by lia.
    destruct (Z.compare_spec (2 * 0) c); lia.
  - rewrite Z.mod_opp_l_nz, Z.div_opp_l_nz by lia.
    pose proof (Z.mod_pos_bound a c Hc).
    replace (- (a / c) - 1) with (- (a / c + 1)) by lia.
    rewrite Z.even_opp, Z.even_add.
    destruct (Z.compare_spec (2 * (a mod c)) c);
      destruct (Z.compare_spec (2 * (c - a mod c)) c); try lia;
      destruct (Z.even (a / c)); simpl; lia.
Qed.

Lemma rne_nonneg a c : 0 < c -> 0 <= a -> 0 <= rne a c.
Proof.
  intros Hc Ha. rewrite <- (rne_exact 0 1) by lia.
  apply rne_mono; lia.
Qed.

(** *** The exponent of the last place *)

Lemma div_mono_frac a1 b1 a2 b2 :
  0 < b1 -> 0 < b2 -> 0 <= a1 -> a1 * b2 <= a2 * b1 -> a1 / b1 <= a2 / b2.
Proof.
  intros H1 H2 Ha Hle.
  apply Z.div_le_lower_bound; [assumption|].
  pose proof (Z.mul_div_le a1 b1 H1).
  assert (0 <= a1 / b1) by (apply Z.div_pos; lia).
  nia.
Qed.

Lemma ulp_exp_nonneg a b : 0 <= ulp_exp a b.
Proof. unfold ulp_exp. lia. Qed.

Lemma ulp_exp_opp a b : ulp_exp (- a) b = ulp_exp a b.
Proof. unfold ulp_exp. now rewrite Z.abs_opp. Qed.

Lemma ulp_exp_mono a1 b1 a2 b2 :
  0 < b1 -> 0 < b2 -> 0 <= a1 -> a1 * b2 <= a2 * b1 ->
  ulp_exp a1 b1 <= ulp_exp a2 b2.
Proof.
  intros H1 H2 Ha Hle. unfold ulp_exp.
  assert (0 <= a2) by nia.
  rewrite !Z.abs_eq by lia.
  pose proof (Z.log2_le_mono _ _ (div_mono_frac a1 b1 a2 b2 H1 H2 Ha Hle)).
  lia.
Qed.

(** Above the subnormal range the significand has at least 53 bits, *)
Lemma ulp_exp_lower a b :
  0 < b -> 0 <= a -> 0 < ulp_exp a b -> b * 2 ^ (ulp_exp a b + 52) <= a.
Proof.
  intros Hb Ha Hk. unfold ulp_exp in *.
  rewrite Z.abs_eq in * by lia.
  assert (0 < a / b).
  { destruct (Z.eq_dec (a / b) 0) as [E|]; [rewrite E in Hk; simpl in Hk; lia|].
    pose proof (Z.div_pos a b Ha Hb). lia. }
  destruct (Z.log2_spec (a / b)) as [Hlo _]; [assumption|].
  replace (Z.max 0 (Z.log2 (a / b) - 52) + 52) with (Z.log2 (a / b)) by lia.
  pose proof (Z.mul_div_le a b Hb). nia.
Qed.

(** and it never has more. *)
Lemma ulp_exp_upper a b :
  0 < b -> 0 <= a -> a < b * 2 ^ (ulp_exp a b + 53).
Proof.
  intros Hb Ha. unfold ulp_exp. rewrite Z.abs_eq by lia.
  assert (a / b < 2 ^ (Z.log2 (a / b) + 1)) as Hup.
  { destruct (Z.eq_dec (a / b) 0) as [E|].
    - rewrite E. simpl. lia.
    - pose proof (Z.div_pos a b Ha Hb).
      destruct (Z.log2_spec (a / b)); lia. }
  assert (2 ^ (Z.log2 (a / b) + 1)
          <= 2 ^ (Z.max 0 (Z.log2 (a / b) - 52) + 53))
    by (apply Z.pow_le_mono_r; [lia|]; pose proof (Z.log2_nonneg (a / b)); lia).
  pose proof (Z.mul_succ_div_gt a b Hb). nia.
Qed.

(** *** Rounding to the binary64 grid *)

Lemma round_units_opp a b : 0 < b -> round_units (- a) b = - round_units a b.
Proof.
  intros Hb. unfold round_units. rewrite ulp_exp_opp.
  pose proof (ulp_exp_nonneg a b).
  assert (0 < 2 ^ ulp_exp a b) by (apply Z.pow_pos_nonneg; lia).
  rewrite rne_opp by nia. lia.
Qed.

(** Monotonicity of rounding on the non-negative side: with equal exponents
    it is that of [rne]; otherwise the power of two between the two binades
    separates the results. *)
Lemma round_units_mono_nonneg a1 b1 a2 b2 :
  0 < b1 -> 0 < b2 -> 0 <= a1 -> a1 * b2 <= a2 * b1 ->
  round_units a1 b1 <= round_units a2 b2.
Proof.
  intros H1 H2 Ha Hle. unfold round_units.
  assert (0 <= a2) as Ha2 by nia.
  pose proof (ulp_exp_mono a1 b1 a2 b2 H1 H2 Ha Hle) as Hk.
  pose proof (ulp_exp_nonneg a1 b1) as Hk1.
  set (k1 := ulp_exp a1 b1) in *. set (k2 := ulp_exp a2 b2) in *.
  assert (0 < 2 ^ k1) as P1 by (apply Z.pow_pos_nonneg; lia).
  assert (0 < 2 ^ k2) as P2 by (apply Z.pow_pos_nonneg; lia).
  assert (k1 = k2 \/ k1 < k2) as [E | Hlt] by lia.
  - rewrite <- E. apply Z.mul_le_mono_nonneg_r; [lia|].
    apply rne_mono; nia.
  - (* a1 is below 2^(k1+53), a2 is at least 2^(k2+52) *)
    pose proof (ulp_exp_upper a1 b1 H1 Ha) as Hup. fold k1 in Hup.
    pose proof (ulp_exp_lower a2 b2 H2 Ha2 ltac:(fold k2; lia)) as Hlo.
    fold k2 in Hlo.
    rewrite Z.pow_add_r in Hup, Hlo by lia.
    assert (rne a1 (b1 * 2 ^ k1) <= 2 ^ 53) as R1.
    { pose proof (rne_mono a1 (b1 * 2 ^ k1) (2 ^ 53 * (b1 * 2 ^ k1))
                    (b1 * 2 ^ k1) ltac:(nia) ltac:(nia) ltac:(nia)) as M.
      rewrite rne_exact in M by nia. exact M. }
    assert (2 ^ 52 <= rne a2 (b2 * 2 ^ k2)) as R2.
    { pose proof (rne_mono (2 ^ 52 * (b2 * 2 ^ k2)) (b2 * 2 ^ k2) a2
                    (b2 * 2 ^ k2) ltac:(nia) ltac:(nia) ltac:(nia)) as M.
      rewrite rne_exact in M by nia. exact M. }
    assert (2 ^ (k1 + 1) <= 2 ^ k2) as Hp
      by (apply Z.pow_le_mono_r; lia).
    rewrite Z.pow_add_r in Hp by lia.
    change (2 ^ 53) with (2 ^ 52 * 2) in R1.
    assert (0 < 2 ^ 52) by (apply Z.pow_pos_nonneg; lia).
    transitivity (2 ^ 52 * 2 * 2 ^ k1); [nia|].
    transitivity (2 ^ 52 * 2 ^ k2); nia.
Qed.

Lemma round_units_zero b : 0 < b -> round_units 0 b = 0.
Proof.
  intros Hb. unfold round_units.
  assert (ulp_exp 0 b = 0) as E
    by (unfold ulp_exp; change (Z.abs 0) with 0;
        rewrite Z.div_0_l by lia; reflexivity).
  rewrite E.
  pose proof (rne_exact 0 (b * 2 ^ 0) ltac:(lia)) as R.
  rewrite Z.mul_0_l in R. rewrite R. reflexivity.
Qed.

Lemma round_units_nonneg a b : 0 < b -> 0 <= a -> 0 <= round_units a b.
Proof.
  intros Hb Ha. rewrite <- (round_units_zero 1) by lia.
  apply round_units_mono_nonneg; lia.
Qed.

(** Rounding is monotone. *)
Lemma round_units_mono a1 b1 a2 b2 :
  0 < b1 -> 0 < b2 -> a1 * b2 <= a2 * b1 ->
  round_units a1 b1 <= round_units a2 b2.
Proof.
  intros H1 H2 Hle.
  destruct (Z_le_gt_dec 0 a1) as [Ha1 | Ha1].
  - now apply round_units_mono_nonneg.
  - destruct (Z_le_gt_dec 0 a2) as [Ha2 | Ha2].
    + pose proof (round_units_nonneg a2 b2 H2 Ha2).
      pose proof (round_units_nonneg (- a1) b1 H1 ltac:(lia)) as Hn.
      rewrite round_units_opp in Hn by assumption. lia.
    + pose proof (round_units_mono_nonneg (- a2) b2 (- a1) b1 H2 H1
                    ltac:(lia) ltac:(lia)) as Hn.
      rewrite !round_units_opp in Hn by assumption. lia.
Qed.

Lemma representable_spec n :
  representable n = true ->
  n mod 2 ^ ulp_exp n 1 = 0 /\ Z.abs n < overflow_units.
Proof.
  unfold representable. rewrite andb_true_iff, Z.eqb_eq, Z.ltb_lt. tauto.
Qed.

(** A representable value rounds to itself. *)
Lemma round_units_exact n : representable n = true -> round_units n 1 = n.
Proof.
  intros Hn. apply representable_spec in Hn as [Hm _].
  unfold round_units.
  pose proof (ulp_exp_nonneg n 1).
  assert (0 < 2 ^ ulp_exp n 1) as P by (apply Z.pow_pos_nonneg; lia).
  rewrite Z.mul_1_l.
  pose proof (Z.div_mod n (2 ^ ulp_exp n 1) ltac:(lia)) as E.
  rewrite Hm, Z.add_0_r in E.
  pose proof (rne_exact (n / 2 ^ ulp_exp n 1) _ P) as R.
  replace (n / 2 ^ ulp_exp n 1 * 2 ^ ulp_exp n 1) with n in R by lia.
  rewrite R. lia.
Qed.

Lemma classify_mono n1 n2 :
  n1 <= n2 -> le_float (classify n1) (classify n2).
Proof.
  intros H. unfold le_float, classify.
  destruct (Z.leb_spec overflow_units n1), (Z.leb_spec overflow_units n2),
    (Z.leb_spec n1 (- overflow_units)), (Z.leb_spec n2 (- overflow_units));
    simpl; try reflexivity; try lia;
    try (apply Z.leb_le; lia);
    assert (0 < overflow_units) by (apply Z.pow_pos_nonneg; lia); lia.
Qed.

(** Correct rounding is monotone, overflow included. *)
Lemma round64_mono a1 b1 a2 b2 :
  0 < b1 -> 0 < b2 -> a1 * b2 <= a2 * b1 ->
  le_float (round64 a1 b1) (round64 a2 b2).
Proof.
  intros. apply classify_mono. now apply round_units_mono.
Qed.

Lemma round64_exact n : representable n = true -> round64 n 1 = Fin n.
Proof.
  intros Hn. unfold round64. rewrite round_units_exact by assumption.
  apply representable_spec in Hn as [_ Hb]. unfold classify.
  destruct (Z.leb_spec overflow_units n); [lia|].
  destruct (Z.leb_spec n (- overflow_units)); [lia|]. reflexivity.
Qed.

(** *** The order and the operations *)

Lemma le_float_refl_fin n : le_float (Fin n) (Fin n).
Proof. apply Z.leb_refl. Qed.

Lemma le_float_fin a b : le_float (Fin a) (Fin b) <-> a <= b.
Proof. apply Z.leb_le. Qed.

Lemma le_float_trans x y z : le_float x y -> le_float y z -> le_float x z.
Proof.
  unfold le_float.
  destruct x, y, z; simpl; try congruence; rewrite ?Z.leb_le; lia.
Qed.

Lemma classify_not_nan n : classify n <> NaN.
Proof.
  unfold classify.
  destruct (overflow_units <=? n); [discriminate|].
  destruct (n <=? - overflow_units); discriminate.
Qed.

Lemma round64_not_nan a b : round64 a b <> NaN.
Proof. apply classify_not_nan. Qed.

Lemma le_float_pinf x : x <> NaN -> le_float x PInf.
Proof. destruct x; simpl; congruence || reflexivity. Qed.

(** A value between two finite values is finite. *)
Lemma fin_between a b x :
  le_float (Fin a) x -> le_float x (Fin b) ->
  exists n, x = Fin n /\ a <= n <= b.
Proof.
  unfold le_float. destruct x; simpl; try discriminate.
  rewrite !Z.leb_le. eauto.
Qed.

Lemma one_units_pos : 0 < one_units.
Proof. apply Z.pow_pos_nonneg; lia. Qed.

Lemma overflow_units_pos : 0 < overflow_units.
Proof. apply Z.pow_pos_nonneg; lia. Qed.

Lemma round64_nonneg a b : 0 < b -> 0 <= a -> le_float zero (round64 a b).
Proof.
  intros Hb Ha.
  pose proof (round64_mono 0 1 a b ltac:(lia) Hb ltac:(lia)) as M.
  unfold round64 in M at 1. rewrite round_units_zero in M by lia.
  exact M.
Qed.

Lemma fgt_zero_fin n : fgt (Fin n) zero = true <-> 0 < n.
Proof. apply Z.ltb_lt. Qed.

(** Dividing by a positive finite value. *)
Lemma fdiv_nz_fin a b :
  0 < b -> fdiv_nz (Fin a) (Fin b) = round64 (a * one_units) b.
Proof.
  intros Hb. simpl. rewrite Z.sgn_pos, Z.abs_eq by lia.
  now rewrite Z.mul_1_l.
Qed.

Lemma fdiv_pos x b : 0 < b -> fdiv x (Fin b) = Ok (fdiv_nz x (Fin b)).
Proof. intros Hb. unfold fdiv. destruct b; try lia; reflexivity. Qed.

(** Division by a positive finite value, addition of a non-negative value
    and multiplication by 100 are monotone on non-negative values. *)
Lemma fdiv_nz_mono x y b :
  0 < b -> le_float zero x -> le_float x y ->
  le_float (fdiv_nz x (Fin b)) (fdiv_nz y (Fin b)) /\
  le_float zero (fdiv_nz x (Fin b)).
Proof.
  intros Hb Hx Hxy. pose proof one_units_pos.
  destruct x as [a| | |]; try discriminate;
    destruct y as [c| | |]; try discriminate.
  - apply le_float_fin in Hx, Hxy. rewrite !fdiv_nz_fin by assumption.
    split; [apply round64_mono | apply round64_nonneg]; try assumption.
    + apply Z.mul_le_mono_nonneg_r; [lia|].
      apply Z.mul_le_mono_nonneg_r; lia.
    + apply Z.mul_nonneg_nonneg; lia.
  - apply le_float_fin in Hx. rewrite fdiv_nz_fin by assumption.
    split; [|apply round64_nonneg; [lia | apply Z.mul_nonneg_nonneg; lia]].
    simpl. destruct (Z.ltb_spec 0 b); [|lia].
    apply le_float_pinf, round64_not_nan.
  - simpl. destruct (Z.ltb_spec 0 b); [|lia]. split; reflexivity.
Qed.

Lemma fadd_mono x y e :
  le_float zero x -> le_float x y -> le_float zero e ->
  le_float (fadd x e) (fadd y e) /\ le_float zero (fadd x e).
Proof.
  intros Hx Hxy He.
  destruct e as [c| | |]; try discriminate;
    destruct x as [a| | |]; try discriminate;
    destruct y as [b| | |]; try discriminate;
    try (split; reflexivity).
  - apply le_float_fin in Hx, Hxy, He. simpl.
    split; [apply round64_mono | apply round64_nonneg]; lia.
  - apply le_float_fin in Hx, He. simpl.
    split; [apply le_float_pinf, round64_not_nan
           | apply round64_nonneg; lia].
Qed.

Lemma hundred_units_pos : 0 < 100 * one_units.
Proof. pose proof one_units_pos. lia. Qed.

Lemma fmul_hundred_mono x y :
  le_float zero x -> le_float x y ->
  le_float (fmul x hundred) (fmul y hundred) /\
  le_float zero (fmul x hundred).
Proof.
  intros Hx Hxy. pose proof one_units_pos. pose proof hundred_units_pos.
  unfold hundred.
  destruct x as [a| | |]; try discriminate;
    destruct y as [b| | |]; try discriminate; cbn [fmul].
  - apply le_float_fin in Hx, Hxy.
    split; [apply round64_mono | apply round64_nonneg]; try assumption.
    + apply Z.mul_le_mono_nonneg_r; [lia|].
      apply Z.mul_le_mono_nonneg_r; lia.
    + apply Z.mul_nonneg_nonneg; lia.
  - apply le_float_fin in Hx.
    destruct (Z.eqb_spec (100 * one_units) 0); [lia|].
    destruct (Z.ltb_spec 0 (100 * one_units)); [|lia].
    split; [apply le_float_pinf, round64_not_nan
           | apply round64_nonneg; [assumption | apply Z.mul_nonneg_nonneg; lia]].
  - destruct (Z.eqb_spec (100 * one_units) 0); [lia|].
    destruct (Z.ltb_spec 0 (100 * one_units)); [|lia].
    split; reflexivity.
Qed.

(** So is [round]. *)
Lemma py_round_mono x y a b :
  le_float x y -> py_round x = Ok a -> py_round y = Ok b -> a <= b.
Proof.
  pose proof one_units_pos.
  destruct x, y; simpl; try discriminate.
  intros Hxy [= <-] [= <-]. apply le_float_fin in Hxy.
  apply rne_mono; try assumption.
  apply Z.mul_le_mono_nonneg_r; lia.
Qed.

(** [x <= y] and not [y > z] give not [x > z]. *)
Lemma fgt_false_le x y z :
  le_float x y -> fgt y z = false -> fgt x z = false.
Proof.
  unfold le_float, fgt.
  destruct x, y, z; simpl; try congruence;
    rewrite ?Z.leb_le, ?Z.ltb_ge; try lia; try discriminate.
Qed.

(** *** Representable values *)

Lemma representable_opp n :
  representable n = true -> representable (- n) = true.
Proof.
  intros Hn. apply representable_spec in Hn as [Hm Hb].
  unfold representable. rewrite ulp_exp_opp, Z.abs_opp.
  apply andb_true_iff. split; [apply Z.eqb_eq | apply Z.ltb_lt; assumption].
  pose proof (ulp_exp_nonneg n 1).
  assert (0 < 2 ^ ulp_exp n 1) by (apply Z.pow_pos_nonneg; lia).
  rewrite Z.mod_opp_l_z; lia.
Qed.

Lemma ulp_exp_double n : ulp_exp (2 * n) 1 <= ulp_exp n 1 + 1.
Proof.
  unfold ulp_exp. rewrite !Z.div_1_r, Z.abs_mul.
  change (Z.abs 2) with 2.
  destruct (Z.eq_dec (Z.abs n) 0) as [E | NE].
  - rewrite E. simpl. lia.
  - rewrite Z.log2_double by lia. lia.
Qed.

(** Doubling keeps a value on the grid. *)
Lemma representable_double n :
  representable n = true -> 2 * Z.abs n < overflow_units ->
  representable (2 * n) = true.
Proof.
  intros Hn Hb. apply representable_spec in Hn as [Hm _].
  unfold representable. apply andb_true_iff.
  split; [apply Z.eqb_eq | apply Z.ltb_lt; lia].
  pose proof (ulp_exp_nonneg n 1) as K.
  pose proof (ulp_exp_nonneg (2 * n) 1) as K'.
  pose proof (ulp_exp_double n) as D.
  set (k := ulp_exp n 1) in *. set (k' := ulp_exp (2 * n) 1) in *.
  assert (0 < 2 ^ k) by (apply Z.pow_pos_nonneg; lia).
  apply Z.mod_divide; [apply Z.pow_nonzero; lia|].
  apply Z.mod_divide in Hm; [|lia].
  destruct Hm as [q Hq].
  exists (q * 2 ^ (k + 1 - k')).
  rewrite <- Z.mul_assoc, <- Z.pow_add_r by lia.
  replace (k + 1 - k' + k') with (k + 1) by lia.
  rewrite Z.pow_add_r by lia. lia.
Qed.

(** Positive integers below the bound convert, to at least [1.0]. *)
Lemma of_int_ok t :
  0 < t < int_overflow_bound ->
  exists n, of_int t = Ok (Fin n) /\ one_units <= n.
Proof.
  intros [Hlo Hhi]. pose proof one_units_pos as U. unfold of_int.
  assert (le_float (Fin one_units) (round64 (t * one_units) 1)) as L.
  { rewrite <- (round64_exact one_units) by (vm_compute; reflexivity).
    apply round64_mono; nia. }
  assert (le_float (round64 (t * one_units) 1) (Fin max_units)) as R.
  { replace (Fin max_units)
      with (round64 ((int_overflow_bound - 1) * one_units) 1)
      by (vm_compute; reflexivity).
    apply round64_mono; nia. }
  destruct (fin_between _ _ _ L R) as (n & -> & Hn).
  exists n. split; [reflexivity | lia].
Qed.

End Float64Facts.

Import Float64Facts.

Module Solver.

(** What validation guarantees. *)
Lemma valid_profile_inv p :
  valid_profile p ->
  fgt (salary p) zero = true /\ fgt (expenses p) zero = true /\
  fgt (goal_amount p) zero = true /\ 0 < duration_years p /\
  is_binary64 (salary p) = true /\ is_binary64 (expenses p) = true /\
  is_binary64 (goal_amount p) = true.
Proof.
  intros [W F]. unfold well_formed, field_constraints in *.
  repeat (apply andb_true_iff in W as [W ?]).
  repeat (apply andb_true_iff in F as [F ?]).
  rewrite Z.ltb_lt in *. tauto.
Qed.

Lemma finite_profile_inv p :
  finite_profile p ->
  exists s e g,
    salary p = Fin s /\ expenses p = Fin e /\ goal_amount p = Fin g /\
    0 < s /\ 0 < e /\ 0 < g /\
    representable s = true /\ representable e = true /\
    representable g = true.
Proof.
  intros (V & Fs & Fe & Fg).
  apply valid_profile_inv in V as (Ps & Pe & Pg & _ & Rs & Re & Rg).
  destruct (salary p) as [s| | |]; try discriminate.
  destruct (expenses p) as [e| | |]; try discriminate.
  destruct (goal_amount p) as [g| | |]; try discriminate.
  apply fgt_zero_fin in Ps, Pe, Pg.
  exists s, e, g. simpl in Rs, Re, Rg. tauto.
Qed.

(** Whatever the solver returns lies in [1, 100]. *)
Lemma calculate_recommendation_range p t r :
  calculate_recommendation p t = Ok r -> 1 <= r <= 100.
Proof.
  unfold calculate_recommendation, bind.
  destruct (of_int t); [|discriminate].
  destruct (fdiv _ _); [|discriminate].
  destruct (fgt _ _); [intros [= <-]; lia|].
  destruct (fdiv _ _); [|discriminate].
  destruct (py_round _); [|discriminate].
  intros [= <-]. unfold np_clip. lia.
Qed.

(** The intermediate values of the solver on a finite profile. *)
Lemma solver_steps p t :
  finite_profile p -> 0 < t < int_overflow_bound ->
  exists s e g T m d,
    salary p = Fin s /\ expenses p = Fin e /\ goal_amount p = Fin g /\
    0 < s /\ 0 < e /\ 0 < g /\ representable s = true /\
    of_int t = Ok (Fin T) /\ 0 < T /\
    monthly_savings_needed p t = Ok (Fin m) /\ 0 <= m <= g /\
    net_income p = Fin d /\ d <= s /\ (0 <= d -> e <= s).
Proof.
  intros Hf Ht.
  destruct (finite_profile_inv p Hf)
    as (s & e & g & Es & Ee & Eg & Ps & Pe & Pg & Rs & Re & Rg).
  destruct (of_int_ok t Ht) as (T & ET & HT).
  pose proof one_units_pos as U.
  exists s, e, g, T.
  (* monthly_savings_needed *)
  assert (exists m, fdiv_nz (Fin g) (Fin T) = Fin m /\ 0 <= m <= g)
    as (m & Em & Hm).
  { rewrite fdiv_nz_fin by lia.
    apply fin_between.
    - apply (round64_nonneg (g * one_units) T); nia.
    - rewrite <- (round64_exact g Rg). apply round64_mono; nia. }
  (* net_income *)
  assert (exists d, fsub (Fin s) (Fin e) = Fin d /\ - e <= d <= s)
    as (d & Ed & Hd).
  { unfold fsub. simpl. apply fin_between.
    - rewrite <- (round64_exact (- e)) by now apply representable_opp.
      apply round64_mono; lia.
    - rewrite <- (round64_exact s Rs). apply round64_mono; lia. }
  exists m, d.
  repeat split; try assumption; try lia.
  - unfold monthly_savings_needed, bind. rewrite ET, Eg, fdiv_pos by lia.
    now rewrite Em.
  - unfold net_income. now rewrite Es, Ee.
  - intros Hd0.
    destruct (Z_le_gt_dec e s) as [|Hgt]; [assumption | exfalso].
    assert (le_float (round64 (s + - e) 1) (round64 (- 1) 1)) as M
      by (apply round64_mono; lia).
    unfold fsub in Ed. simpl in Ed. rewrite Ed in M.
    rewrite (round64_exact (- 1)) in M by (vm_compute; reflexivity).
    apply le_float_fin in M. lia.
Qed.

(** The solver after its first division. *)
Lemma calculate_recommendation_unfold p t msn :
  monthly_savings_needed p t = Ok msn ->
  calculate_recommendation p t =
    if fgt msn (net_income p) then Ok 100
    else
      ratio <- fdiv (fadd msn (expenses p)) (salary p) ;;
      rounded <- py_round (fmul ratio hundred) ;;
      Ok (np_clip rounded 1 100).
Proof.
  unfold monthly_savings_needed, calculate_recommendation, net_income, bind.
  destruct (of_int t); [|discriminate].
  intros ->. reflexivity.
Qed.

Lemma classify_fin n r :
  classify n = Fin r -> r = n /\ - overflow_units < n < overflow_units.
Proof.
  unfold classify.
  destruct (Z.leb_spec overflow_units n); [discriminate|].
  destruct (Z.leb_spec n (- overflow_units)); [discriminate|].
  intros [= <-]. lia.
Qed.

(** In the feasible branch the percentage is finite as soon as the sum
    [monthly_savings_needed + expenses] is. *)
Lemma feasible_percent_finite s e m r :
  0 < s -> 0 < e -> 0 <= m -> m <= s -> e <= s ->
  representable s = true ->
  fadd (Fin m) (Fin e) = Fin r ->
  exists q c,
    fdiv (Fin r) (Fin s) = Ok (Fin q) /\
    fmul (Fin q) hundred = Fin c /\ 0 <= c <= 200 * one_units.
Proof.
  intros Ps Pe Hm Hms Hes Rs Er. pose proof one_units_pos as U.
  simpl in Er.
  assert (0 <= r <= 2 * s) as Hr.
  { split.
    - pose proof (round64_nonneg (m + e) 1 ltac:(lia) ltac:(lia)) as N.
      rewrite Er in N. now apply le_float_fin in N.
    - destruct (Z_lt_ge_dec (2 * s) overflow_units) as [Hlt | Hge].
      + pose proof (round64_mono (m + e) 1 (2 * s) 1
                      ltac:(lia) ltac:(lia) ltac:(lia)) as M.
        rewrite Er, round64_exact in M
          by (apply representable_double; [assumption | lia]).
        now apply le_float_fin in M.
      + apply classify_fin in Er. lia. }
  assert (exists q, fdiv_nz (Fin r) (Fin s) = Fin q /\ 0 <= q <= 2 * one_units)
    as (q & Eq & Hq).
  { rewrite fdiv_nz_fin by lia. apply fin_between.
    - apply (round64_nonneg (r * one_units) s); nia.
    - rewrite <- (round64_exact (2 * one_units))
        by (vm_compute; reflexivity).
      apply round64_mono; nia. }
  assert (exists c, fmul (Fin q) hundred = Fin c /\ 0 <= c <= 200 * one_units)
    as (c & Ec & Hc).
  { unfold hundred. cbn [fmul]. apply fin_between.
    - apply (round64_nonneg (q * (100 * one_units)) one_units); nia.
    - rewrite <- (round64_exact (200 * one_units))
        by (vm_compute; reflexivity).
      apply round64_mono; nia. }
  exists q, c. rewrite fdiv_pos by lia. rewrite Eq. auto.
Qed.

(** On a finite profile the solver returns a percentage, or raises because
    the sum overflowed in the feasible branch. *)
Lemma solver_total_or_overflow p t :
  finite_profile p -> 0 < t < int_overflow_bound ->
  exists msn,
    monthly_savings_needed p t = Ok msn /\
    ((fgt msn (net_income p) = false /\
      fadd msn (expenses p) = PInf /\
      calculate_recommendation p t = Raise OverflowError)
     \/
     (~ (fgt msn (net_income p) = false /\ fadd msn (expenses p) = PInf) /\
      exists r, calculate_recommendation p t = Ok r /\ 1 <= r <= 100)).
Proof.
  intros Hf Ht.
  destruct (solver_steps p t Hf Ht)
    as (s & e & g & T & m & d & Es & Ee & Eg & Ps & Pe & Pg & Rs
        & ET & PT & Em & Hm & Ed & Hds & Hes).
  exists (Fin m). split; [assumption|].
  rewrite (calculate_recommendation_unfold p t _ Em), Ed, Ee, Es.
  destruct (fgt (Fin m) (Fin d)) eqn:Hgt.
  - right. split; [intros [? _]; discriminate|]. exists 100. split; [reflexivity | lia].
  - assert (m <= d) as Hmd by (apply Z.ltb_ge; exact Hgt).
    destruct (fadd (Fin m) (Fin e)) as [r| | |] eqn:Er.
    + right. split; [intros [_ ?]; discriminate|].
      destruct (feasible_percent_finite s e m r) as (q & c & -> & Ec & Hc);
        try assumption; try lia.
      cbn [bind]. rewrite Ec. cbn [py_round bind].
      eexists. split; [reflexivity|]. unfold np_clip. lia.
    + left. repeat split.
      rewrite fdiv_pos by lia. cbn [bind fdiv_nz].
      destruct (Z.ltb_spec 0 s); [|lia].
      unfold hundred. cbn [fmul]. pose proof hundred_units_pos.
      destruct (Z.eqb_spec (100 * one_units) 0); [lia|].
      destruct (Z.ltb_spec 0 (100 * one_units)); [|lia]. reflexivity.
    + exfalso.
      pose proof (round64_nonneg (m + e) 1 ltac:(lia) ltac:(lia)) as N.
      simpl in Er. rewrite Er in N. discriminate.
    + exfalso. simpl in Er. now apply round64_not_nan in Er.
Qed.

(** No overflow below [2^1023]. *)
Lemma solver_total_bounded p t :
  finite_profile p -> 0 < t < int_overflow_bound ->
  flt (salary p) two_pow_1023 = true ->
  exists r, calculate_recommendation p t = Ok r /\ 1 <= r <= 100.
Proof.
  intros Hf Ht Hs.
  destruct (solver_total_or_overflow p t Hf Ht) as (msn & Em & [C | C]);
    [exfalso | tauto].
  destruct C as (Hgt & Hinf & _).
  destruct (solver_steps p t Hf Ht)
    as (s & e & g & T & m & d & Es & Ee & Eg & Ps & Pe & Pg & Rs
        & ET & PT & Em' & Hm & Ed & Hds & Hes).
  rewrite Em in Em'. injection Em' as ->.
  rewrite Ed in Hgt. rewrite Ee in Hinf. rewrite Es in Hs.
  assert (m <= d) as Hmd by (apply Z.ltb_ge; exact Hgt).
  unfold two_pow_1023 in Hs. apply Z.ltb_lt in Hs.
  assert (2 * s < overflow_units)
    by (unfold overflow_units;
        change (2 ^ 2098) with (2 * 2 ^ 2097); lia).
  pose proof (round64_mono (m + e) 1 (2 * s) 1
                ltac:(lia) ltac:(lia) ltac:(lia)) as M.
  simpl in Hinf. rewrite Hinf, round64_exact in M
    by (apply representable_double; [assumption | lia]).
  discriminate.
Qed.

(** Whenever a positive integer converts, it converts to at least [1.0]. *)
Lemma of_int_pos t x :
  0 < t -> of_int t = Ok x -> exists n, x = Fin n /\ one_units <= n.
Proof.
  intros Ht. pose proof one_units_pos as U. unfold of_int.
  assert (le_float (Fin one_units) (round64 (t * one_units) 1)) as L.
  { rewrite <- (round64_exact one_units) by (vm_compute; reflexivity).
    apply round64_mono; nia. }
  destruct (round64 (t * one_units) 1) as [n| | |]; try discriminate.
  intros [= <-]. apply le_float_fin in L. eauto.
Qed.

Lemma fgt_zero_le x : fgt x zero = true -> le_float zero x.
Proof.
  unfold fgt, le_float. destruct x; simpl; try congruence.
  rewrite Z.ltb_lt, Z.leb_le. lia.
Qed.

Lemma np_clip_mono a b lo hi : a <= b -> np_clip a lo hi <= np_clip b lo hi.
Proof. unfold np_clip. lia. Qed.

(** The feasible branch is monotone in [monthly_savings_needed]. *)
Lemma feasible_branch_mono m1 m2 e s r1 r2 :
  le_float zero m1 -> le_float m1 m2 ->
  fgt e zero = true -> fgt s zero = true ->
  (ratio <- fdiv (fadd m1 e) s ;;
   rounded <- py_round (fmul ratio hundred) ;;
   Ok (np_clip rounded 1 100)) = Ok r1 ->
  (ratio <- fdiv (fadd m2 e) s ;;
   rounded <- py_round (fmul ratio hundred) ;;
   Ok (np_clip rounded 1 100)) = Ok r2 ->
  r1 <= r2.
Proof.
  intros Hm1 Hm12 He Hs.
  destruct (fadd_mono m1 m2 e Hm1 Hm12 (fgt_zero_le e He)) as [Ha Ha0].
  destruct s as [s| | |]; try discriminate.
  - apply fgt_zero_fin in Hs. rewrite !fdiv_pos by assumption.
    cbn [bind].
    destruct (fdiv_nz_mono _ _ s Hs Ha0 Ha) as [Hq Hq0].
    destruct (fmul_hundred_mono _ _ Hq0 Hq) as [Hc _].
    destruct (py_round (fmul (fdiv_nz (fadd m1 e) (Fin s)) hundred))
      as [a|] eqn:R1; [|discriminate].
    destruct (py_round (fmul (fdiv_nz (fadd m2 e) (Fin s)) hundred))
      as [b|] eqn:R2; [|discriminate].
    cbn [bind]. intros [= <-] [= <-].
    apply np_clip_mono. exact (py_round_mono _ _ _ _ Hc R1 R2).
  - unfold fdiv. cbn [bind].
    destruct (fadd m1 e) as [x1| | |]; try discriminate;
      destruct (fadd m2 e) as [x2| | |]; try discriminate;
      cbn [fdiv_nz fmul py_round bind]; try discriminate.
    intros [= <-] [= <-]. lia.
Qed.

(** The solver is monotone in the goal amount. *)
Lemma solver_monotone p g1 g2 t r1 r2 :
  valid_profile (with_goal p g1) -> valid_profile (with_goal p g2) ->
  0 < t -> le_float g1 g2 ->
  calculate_recommendation (with_goal p g1) t = Ok r1 ->
  calculate_recommendation (with_goal p g2) t = Ok r2 ->
  r1 <= r2.
Proof.
  intros V1 V2 Ht Hg C1 C2.
  apply valid_profile_inv in V1 as (Ps & Pe & Pg1 & _).
  apply valid_profile_inv in V2 as (_ & _ & Pg2 & _).
  cbn [with_goal salary expenses goal_amount] in *.
  destruct (of_int t) as [T|] eqn:ET;
    [|unfold calculate_recommendation in C1; rewrite ET in C1; discriminate].
  destruct (of_int_pos t T Ht ET) as (n & -> & Hn).
  pose proof one_units_pos as U.
  assert (forall g, monthly_savings_needed (with_goal p g) t
                    = Ok (fdiv_nz g (Fin n))) as Em.
  { intros g. unfold monthly_savings_needed. rewrite ET. cbn [bind].
    apply fdiv_pos. lia. }
  destruct (fdiv_nz_mono g1 g2 n ltac:(lia) (fgt_zero_le _ Pg1) Hg)
    as [Hm Hm0].
  rewrite (calculate_recommendation_unfold _ t _ (Em g1)) in C1.
  rewrite (calculate_recommendation_unfold _ t _ (Em g2)) in C2.
  change (net_income (with_goal p g1)) with (net_income p) in C1.
  change (net_income (with_goal p g2)) with (net_income p) in C2.
  cbn [with_goal salary expenses] in C1, C2.
  destruct (fgt (fdiv_nz g2 (Fin n)) (net_income p)) eqn:F2.
  - injection C2 as <-.
    destruct (fgt (fdiv_nz g1 (Fin n)) (net_income p)).
    + injection C1 as <-. lia.
    + destruct (fdiv _ _); [|discriminate]. cbn [bind] in C1.
      destruct (py_round _); [|discriminate].
      injection C1 as <-. unfold np_clip. lia.
  - rewrite (fgt_false_le _ _ _ Hm F2) in C1.
    exact (feasible_branch_mono _ _ _ _ _ _ Hm0 Hm Pe Ps C1 C2).
Qed.

End Solver.

Import Solver.

Module Routes.

Lemma fdiv_by_positive x y :
  fgt y zero = true -> fdiv x y = Ok (fdiv_nz x y).
Proof.
  unfold fdiv. destruct y as [n| | |]; try reflexivity.
  intros H. apply fgt_zero_fin in H. destruct n; try lia; reflexivity.
Qed.

Lemma solver_ok_inv p t r :
  calculate_recommendation p t = Ok r ->
  exists msn, monthly_savings_needed p t = Ok msn.
Proof.
  unfold calculate_recommendation, monthly_savings_needed, bind.
  destruct (of_int t); [|discriminate].
  destruct (fdiv _ _); [eauto | discriminate].
Qed.

Lemma predict_time_to_goal_min model p n :
  predict_time_to_goal model p = Ok n -> 1 <= n.
Proof.
  unfold predict_time_to_goal, bind.
  destruct (raw_prediction model p); [|discriminate].
  destruct (py_round _); [|discriminate].
  intros [= <-]. lia.
Qed.

(** An integer from [2^1024 - 2^970] on does not convert. *)
Lemma of_int_overflows t :
  int_overflow_bound <= t -> of_int t = Raise OverflowError.
Proof.
  intros Ht. pose proof one_units_pos as U. unfold of_int.
  assert (le_float PInf (round64 (t * one_units) 1)) as L.
  { replace PInf with (round64 (int_overflow_bound * one_units) 1)
      by (vm_compute; reflexivity).
    apply round64_mono; nia. }
  destruct (round64 (t * one_units) 1); try reflexivity.
  discriminate L.
Qed.

Lemma predictor_overflows model p :
  int_overflow_bound <= duration_years p * 12 ->
  predict_time_to_goal model p = Raise OverflowError.
Proof.
  intros H. unfold predict_time_to_goal, raw_prediction.
  now rewrite (of_int_overflows _ H).
Qed.

Lemma predictor_raises_on_non_finite model p raw :
  raw_prediction model p = Ok raw -> is_finite raw = false ->
  predict_time_to_goal model p
  = Raise (match raw with NaN => ValueError | _ => OverflowError end).
Proof.
  intros E H. unfold predict_time_to_goal. rewrite E. cbn [bind].
  destruct raw; try discriminate; reflexivity.
Qed.

Lemma make_response_ok g months percent i :
  1 <= months -> 1 <= percent <= 100 ->
  make_response g months percent i
  = Ok (mkPredictionResponse g months percent i).
Proof.
  intros Hm Hp. unfold make_response.
  destruct (Z.leb_spec 1 months); [|lia].
  destruct (Z.leb_spec 1 percent); [|lia].
  destruct (Z.leb_spec percent 100); [|lia]. reflexivity.
Qed.

(** The insight step returns, and which branch it takes. *)
Lemma insight_generation_branch p predicted t recommended :
  valid_profile p ->
  calculate_recommendation p t = Ok recommended ->
  exists i gap b,
    insight_generation p predicted t recommended = Ok i /\
    extra_savings_needed p t = Ok gap /\
    branch_of i = Some b /\
    (b = BranchOnTrack <-> predicted <= t) /\
    (b = BranchBehindWithGap <-> t < predicted /\ fgt gap zero = true) /\
    (b = BranchFallback <-> t < predicted /\ fgt gap zero = false).
Proof.
  intros V C.
  apply valid_profile_inv in V as (Ps & _).
  destruct (solver_ok_inv p t recommended C) as (msn & Em).
  unfold insight_generation, extra_savings_needed.
  rewrite (fdiv_by_positive _ _ Ps), Em. cbn [bind].
  unfold monthly_savings_needed in Em.
  destruct (of_int t) as [T|]; [|discriminate]. cbn [bind] in *.
  rewrite Em. cbn [bind]. fold (net_income p).
  destruct (Z.leb_spec predicted t) as [Hle | Hgt].
  - do 2 eexists. exists BranchOnTrack.
    repeat split; try reflexivity; try (intros; assumption);
      try discriminate; intros [? _]; lia.
  - destruct (fgt (fsub msn (net_income p)) zero) eqn:G.
    + do 2 eexists. exists BranchBehindWithGap.
      repeat split; try reflexivity; try assumption;
        try discriminate; try lia; intros [_ ?]; congruence.
    + do 2 eexists. exists BranchFallback.
      repeat split; try reflexivity; try assumption;
        try discriminate; try lia; intros [_ ?]; congruence.
Qed.

(** [/predict] returns whenever the predictor and the solver do, with the
    insight of the insight step, and leaves the request object as it
    was. *)
Lemma predict_route_returns model p predicted recommended i :
  predict_time_to_goal model p = Ok predicted ->
  calculate_recommendation p (duration_years p * 12) = Ok recommended ->
  insight_generation p predicted (duration_years p * 12) recommended
  = Ok i ->
  predict_goal_achievement model p
  = Ok (mkPredictionResponse (goal_type p) predicted recommended i, p).
Proof.
  intros P C I.
  unfold predict_goal_achievement, rbind, reading.
  rewrite P, C, I.
  rewrite make_response_ok;
    [reflexivity | eapply predict_time_to_goal_min; eassumption
    | eapply calculate_recommendation_range; eassumption].
Qed.

Lemma predict_route_frame model p resp o :
  predict_goal_achievement model p = Ok (resp, o) -> o = p.
Proof.
  unfold predict_goal_achievement, rbind, reading.
  destruct (predict_time_to_goal model p); [|discriminate].
  destruct (calculate_recommendation _ _); [|discriminate].
  destruct (insight_generation _ _ _ _); [|discriminate].
  destruct (make_response _ _ _ _); [|discriminate].
  intros [= _ <-]. reflexivity.
Qed.

Lemma raw_prediction_ignores_savings_percent model p v :
  raw_prediction model
    (mkFinancialInput (salary p) (expenses p) (goal_amount p)
       (goal_type p) (duration_years p) v)
  = raw_prediction model p.
Proof. reflexivity. Qed.

(** What [/recommend] returns and how it leaves the request object. *)
Lemma recommend_route_inv model p resp o :
  get_savings_recommendation model p = Ok (resp, o) ->
  exists recommended predicted,
    calculate_recommendation p (duration_years p * 12) = Ok recommended /\
    predict_time_to_goal model p = Ok predicted /\
    resp = mkPredictionResponse (goal_type p) predicted recommended
             (recommendation_insight p recommended) /\
    o = mkFinancialInput (salary p) (expenses p) (goal_amount p)
          (goal_type p) (duration_years p) (Some (NInt recommended)).
Proof.
  unfold get_savings_recommendation, rbind, reading, set_savings_percent.
  destruct (calculate_recommendation _ _) as [r|] eqn:C; [|discriminate].
  unfold predict_time_to_goal at 1.
  rewrite raw_prediction_ignores_savings_percent.
  fold (predict_time_to_goal model p).
  destruct (predict_time_to_goal model p) as [m|] eqn:P; [|discriminate].
  cbn [goal_type].
  rewrite make_response_ok;
    [| eapply predict_time_to_goal_min; eassumption
     | eapply calculate_recommendation_range; eassumption].
  intros [= <- <-]. eauto 6.
Qed.

End Routes.

Module TrainerFacts.
Import ModelTrainer.

(** *** Conversions *)

Lemma round64_opp a b : 0 < b -> round64 (- a) b = fneg (round64 a b).
Proof.
  intros Hb. unfold round64. rewrite round_units_opp by exact Hb.
  pose proof overflow_units_pos as O. unfold classify.
  set (n := round_units a b).
  destruct (Z.leb_spec overflow_units n);
    destruct (Z.leb_spec overflow_units (- n));
    destruct (Z.leb_spec n (- overflow_units));
    destruct (Z.leb_spec (- n) (- overflow_units));
    cbn [fneg]; try lia; reflexivity.
Qed.

Lemma of_int_error t e : of_int t = Raise e -> e = OverflowError.
Proof. unfold of_int. destruct (round64 _ _); congruence. Qed.

(** Integers of at most 68 bits convert, away from zero when they are not
    zero. *)
Lemma of_int_small z :
  - 2 ^ 67 <= z <= 2 ^ 67 ->
  exists n, of_int z = Ok (Fin n) /\ (z <> 0 -> n <> 0).
Proof.
  intros Hz. pose proof one_units_pos as U.
  assert (2 ^ 67 < int_overflow_bound) as B by (vm_compute; reflexivity).
  destruct (Z.lt_trichotomy z 0) as [Hn | [-> | Hp]].
  - destruct (of_int_ok (- z)) as (n & E & Hn'); [lia|].
    unfold of_int in *.
    replace (z * one_units) with (- (- z * one_units)) by lia.
    rewrite round64_opp by lia.
    destruct (round64 (- z * one_units) 1); try discriminate.
    injection E as ->. cbn [fneg]. exists (- n). split; [reflexivity | lia].
  - exists 0. unfold of_int, round64.
    rewrite Z.mul_0_l, round_units_zero by lia. unfold classify.
    pose proof overflow_units_pos.
    destruct (Z.leb_spec overflow_units 0); [lia|].
    destruct (Z.leb_spec 0 (- overflow_units)); [lia|].
    split; [reflexivity | congruence].
  - destruct (of_int_ok z) as (n & E & Hn'); [lia|].
    exists n. split; [exact E | lia].
Qed.

(** A quotient of magnitude at most [2^67] is finite. *)
Lemma round64_small a b :
  0 < b -> - (2 ^ 67 * one_units) * b <= a <= 2 ^ 67 * one_units * b ->
  exists n, round64 a b = Fin n.
Proof.
  intros Hb Ha.
  assert (representable (2 ^ 67 * one_units) = true) as R
    by (vm_compute; reflexivity).
  destruct (fin_between (- (2 ^ 67 * one_units)) (2 ^ 67 * one_units)
              (round64 a b)) as (n & E & _).
  - rewrite <- (round64_exact (- (2 ^ 67 * one_units)))
      by (apply representable_opp, R).
    apply round64_mono; lia.
  - rewrite <- (round64_exact (2 ^ 67 * one_units)) by exact R.
    apply round64_mono; lia.
  - eauto.
Qed.

Lemma wrap_int64_range z : - 2 ^ 63 <= wrap_int64 z < 2 ^ 63.
Proof.
  unfold wrap_int64.
  pose proof (Z.mod_pos_bound (z + 2 ^ 63) (2 ^ 64) ltac:(lia)). lia.
Qed.

Lemma fits_int64_spec z :
  fits_int64 (CInt z) = true <-> - 2 ^ 63 <= z < 2 ^ 63.
Proof. cbn [fits_int64]. rewrite andb_true_iff, Z.leb_le, Z.ltb_lt. tauto. Qed.

(** *** Python's operators *)

Lemma py_float_error c e :
  py_float c = Raise e -> e = TypeError \/ e = OverflowError.
Proof.
  destruct c; cbn [py_float]; [|discriminate|intros [= <-]; now left].
  intros H%of_int_error. now right.
Qed.

Lemma py_float_returns c :
  match c with CInt z => - 2 ^ 67 <= z <= 2 ^ 67 | _ => True end ->
  is_non_numeric c = false ->
  exists x, py_float c = Ok x /\ (is_zero c = false -> x <> Fin 0).
Proof.
  destruct c as [z|x|s]; cbn [py_float is_non_numeric]; intros Hr Hs;
    [| |discriminate].
  - destruct (of_int_small z Hr) as (n & -> & Hn). eexists.
    split; [reflexivity|]. intros Hz [= ->]. apply Hn; [|reflexivity].
    intros ->. discriminate.
  - exists x. split; [reflexivity|]. intros Hz ->. discriminate.
Qed.

Lemma py_sub_text a b :
  is_non_numeric a || is_non_numeric b = true -> py_sub a b = Raise TypeError.
Proof. destruct a, b; intros H; try discriminate H; reflexivity. Qed.

Lemma py_sub_error a b e : py_sub a b = Raise e -> arithmetic_error e.
Proof.
  unfold arithmetic_error.
  destruct a as [x|x|s], b as [y|y|t]; cbn [py_sub py_float bind];
    try discriminate; try (intros [= <-]; tauto).
  - destruct (of_int x) eqn:E; cbn [bind]; [discriminate|].
    intros [= <-]. apply of_int_error in E. tauto.
  - destruct (of_int y) eqn:E; cbn [bind]; [discriminate|].
    intros [= <-]. apply of_int_error in E. tauto.
Qed.

Lemma py_sub_returns a b :
  fits_int64 a = true -> fits_int64 b = true ->
  is_non_numeric a || is_non_numeric b = false ->
  exists c, py_sub a b = Ok c.
Proof.
  destruct a as [x|x|s], b as [y|y|t]; intros Fa Fb H;
    try discriminate H; cbn [py_sub py_float bind]; eauto.
  - apply fits_int64_spec in Fa.
    destruct (of_int_small x ltac:(lia)) as (n & -> & _). cbn [bind]. eauto.
  - apply fits_int64_spec in Fb.
    destruct (of_int_small y ltac:(lia)) as (n & -> & _). cbn [bind]. eauto.
Qed.

Lemma py_truediv_text a b :
  is_non_numeric a || is_non_numeric b = true ->
  py_truediv a b = Raise TypeError.
Proof. destruct a, b; intros H; try discriminate H; reflexivity. Qed.

Lemma fdiv_error x y e : fdiv x y = Raise e -> e = ZeroDivisionError.
Proof.
  unfold fdiv. destruct y as [n| | |]; try discriminate.
  destruct n; congruence.
Qed.

Lemma py_truediv_error a b e : py_truediv a b = Raise e -> arithmetic_error e.
Proof.
  unfold arithmetic_error.
  destruct a as [x|x|s], b as [y|y|t]; cbn [py_truediv py_float bind];
    try (intros [= <-]; tauto).
  - destruct (y =? 0); [intros [= <-]; tauto|].
    destruct (round64 _ _); try discriminate; intros [= <-]; tauto.
  - destruct (of_int x) eqn:E; cbn [bind];
      [|intros [= <-]; apply of_int_error in E; tauto].
    destruct (fdiv _ _) eqn:D; cbn [bind]; [discriminate|].
    intros [= <-]. apply fdiv_error in D. tauto.
  - destruct (of_int y) eqn:E; cbn [bind];
      [|intros [= <-]; apply of_int_error in E; tauto].
    destruct (fdiv _ _) eqn:D; cbn [bind]; [discriminate|].
    intros [= <-]. apply fdiv_error in D. tauto.
  - destruct (fdiv _ _) eqn:D; cbn [bind]; [discriminate|].
    intros [= <-]. apply fdiv_error in D. tauto.
Qed.

Lemma fdiv_returns x y : y <> Fin 0 -> exists q, fdiv x y = Ok q.
Proof.
  intros Hy. unfold fdiv. destruct y as [n| | |]; eauto.
  destruct n; eauto. congruence.
Qed.

Lemma py_truediv_returns a b :
  fits_int64 a = true ->
  match b with CInt z => - 2 ^ 67 <= z <= 2 ^ 67 | _ => True end ->
  is_zero b = false ->
  is_non_numeric a || is_non_numeric b = false ->
  exists c, py_truediv a b = Ok c.
Proof.
  intros Fa Rb Zb H. apply orb_false_iff in H as [Ha Hb].
  assert (match a with CInt z => - 2 ^ 67 <= z <= 2 ^ 67 | _ => True end)
    as Ra.
  { destruct a; auto. apply fits_int64_spec in Fa. lia. }
  destruct a as [x|x|s], b as [y|y|t]; try discriminate;
    cbn [py_truediv].
  - destruct (Z.eqb_spec y 0) as [-> | Hy]; [discriminate|].
    pose proof one_units_pos as U.
    set (k := 2 ^ 67 * one_units).
    assert (0 < k) as Hk by (unfold k; lia).
    assert (- k <= x * one_units <= k) as Hx by (unfold k; nia).
    assert (- k <= - x * one_units <= k) as Hx' by lia.
    assert (1 <= Z.abs y) as Hy1 by lia.
    assert (k <= k * Z.abs y) as Hky by nia.
    destruct (round64_small (Z.sgn y * x * one_units) (Z.abs y))
      as (n & ->); [lia | | eauto].
    fold k.
    destruct y as [|y|y]; [congruence| |]; cbn [Z.sgn].
    + rewrite Z.mul_1_l. lia.
    + replace (-1 * x * one_units) with (- x * one_units) by lia. lia.
  - destruct (py_float_returns (CInt x) Ra Ha) as (xa & -> & _).
    destruct (py_float_returns (CFloat y) I Hb) as (yb & -> & Hnz).
    cbn [bind]. destruct (fdiv_returns xa yb (Hnz Zb)) as (q & ->).
    cbn [bind]. eauto.
  - destruct (py_float_returns (CFloat x) I Ha) as (xa & -> & _).
    destruct (py_float_returns (CInt y) Rb Hb) as (yb & -> & Hnz).
    cbn [bind]. destruct (fdiv_returns xa yb (Hnz Zb)) as (q & ->).
    cbn [bind]. eauto.
  - destruct (py_float_returns (CFloat x) I Ha) as (xa & -> & _).
    destruct (py_float_returns (CFloat y) I Hb) as (yb & -> & Hnz).
    cbn [bind]. destruct (fdiv_returns xa yb (Hnz Zb)) as (q & ->).
    cbn [bind]. eauto.
Qed.

(** *** The loop over the pairs *)

Section Loop.

Variable f : cell -> cell -> result cell.

Lemma column_op_raise_inv xs ys e :
  column_op f xs ys = Raise e ->
  exists a b, In (a, b) (combine xs ys) /\ f a b = Raise e.
Proof.
  revert ys. induction xs as [|x xs IH]; intros [|y ys]; cbn [column_op];
    try discriminate.
  destruct (f x y) as [v|e'] eqn:E; cbn [bind].
  - destruct (column_op f xs ys) as [r|e'] eqn:R; cbn [bind];
      [discriminate|].
    intros [= <-]. destruct (IH ys R) as (a & b & Hin & Hab).
    exists a, b. split; [now right | exact Hab].
  - intros [= <-]. exists x, y. split; [now left | exact E].
Qed.

Lemma column_op_raises xs ys a b e :
  In (a, b) (combine xs ys) -> f a b = Raise e ->
  exists e', column_op f xs ys = Raise e'.
Proof.
  revert ys. induction xs as [|x xs IH]; intros [|y ys]; cbn [combine In];
    try tauto.
  intros [[= -> ->] | Hin] Hab; cbn [column_op].
  - rewrite Hab. cbn [bind]. eauto.
  - destruct (f x y); cbn [bind]; [|eauto].
    destruct (IH ys Hin Hab) as (e' & ->). cbn [bind]. eauto.
Qed.

Lemma column_op_returns xs ys :
  (forall a b, In (a, b) (combine xs ys) -> exists c, f a b = Ok c) ->
  exists cs, column_op f xs ys = Ok cs.
Proof.
  revert ys. induction xs as [|x xs IH]; intros [|y ys] H; cbn [column_op];
    eauto.
  destruct (H x y ltac:(now left)) as (c & ->). cbn [bind].
  destruct (IH ys) as (cs & ->); [|cbn [bind]; eauto].
  intros a b Hin. apply H. now right.
Qed.

Lemma column_op_length xs ys cs :
  List.length xs = List.length ys ->
  column_op f xs ys = Ok cs -> List.length cs = List.length xs.
Proof.
  revert ys cs. induction xs as [|x xs IH]; intros [|y ys] cs;
    cbn [column_op]; try discriminate.
  - intros _ [= <-]. reflexivity.
  - intros Hl. destruct (f x y); cbn [bind]; [|discriminate].
    destruct (column_op f xs ys) as [r|] eqn:E; cbn [bind]; [|discriminate].
    intros [= <-]. cbn [List.length] in *. f_equal.
    apply (IH ys); [congruence | exact E].
Qed.

End Loop.

Lemma meets_spec xs ys :
  text_meets_value xs ys = true <->
  exists a b, In (a, b) (combine xs ys) /\
              is_non_numeric a || is_non_numeric b = true /\
              notna a = true /\ notna b = true.
Proof.
  unfold text_meets_value. rewrite existsb_exists. split.
  - intros ([a b] & Hin & H). cbn [fst snd] in H.
    apply andb_true_iff in H as [H Hb]. apply andb_true_iff in H as [H Ha].
    exists a, b. auto.
  - intros (a & b & Hin & H & Ha & Hb). exists (a, b).
    split; [exact Hin|]. cbn [fst snd]. now rewrite H, Ha, Hb.
Qed.

Lemma meets_none xs ys a b :
  text_meets_value xs ys = false -> In (a, b) (combine xs ys) ->
  notna a && notna b = true ->
  is_non_numeric a || is_non_numeric b = false.
Proof.
  intros H Hin Hn. destruct (is_non_numeric a || is_non_numeric b) eqn:E;
    [|reflexivity].
  apply andb_true_iff in Hn as [Ha Hb].
  assert (text_meets_value xs ys = true) as C
    by (apply meets_spec; exists a, b; auto).
  congruence.
Qed.

Lemma meets_has_text xs ys :
  text_meets_value xs ys = true ->
  has_non_numeric xs || has_non_numeric ys = true.
Proof.
  intros (a & b & Hin & Ht & _)%meets_spec.
  apply orb_true_iff in Ht. apply orb_true_iff.
  destruct Ht as [Ht | Ht]; [left | right]; apply existsb_exists.
  - exists a. split; [|exact Ht]. now apply in_combine_l in Hin.
  - exists b. split; [|exact Ht]. now apply in_combine_r in Hin.
Qed.

Section Retry.

Variable f : cell -> cell -> result cell.

(** The operator raises [TypeError] on a string. *)
Hypothesis f_text :
  forall a b, is_non_numeric a || is_non_numeric b = true ->
              f a b = Raise TypeError.

(** A string beside a value that is not missing: the operation raises,
    with an exception of the operator. *)
Lemma object_op_raises xs ys :
  text_meets_value xs ys = true ->
  exists e, object_op f xs ys = Raise e /\ exists a b, f a b = Raise e.
Proof.
  intros (a & b & Hin & Ht & Ha & Hb)%meets_spec.
  pose proof (f_text a b Ht) as Hab. unfold object_op.
  destruct (column_op_raises f xs ys a b _ Hin Hab) as (e1 & E1).
  rewrite E1.
  assert (exists e, masked_op f xs ys = Raise e /\
                    exists a b, f a b = Raise e) as (e2 & E2 & H2).
  { unfold masked_op.
    destruct (column_op_raises
                (fun a b => if notna a && notna b then f a b
                            else Ok (CFloat NaN)) xs ys a b TypeError Hin)
      as (e2 & E2); [now rewrite Ha, Hb|].
    exists e2. split; [exact E2|].
    apply column_op_raise_inv in E2 as (a' & b' & _ & H').
    destruct (notna a' && notna b'); [eauto | discriminate]. }
  destruct (column_op_raise_inv f xs ys e1 E1) as (a1 & b1 & _ & H1).
  destruct e1; eauto.
Qed.

(** No string beside a value that is not missing, and an operator that
    returns on numbers: the operation returns. *)
Lemma object_op_returns xs ys :
  text_meets_value xs ys = false ->
  (forall a b, In (a, b) (combine xs ys) ->
               is_non_numeric a || is_non_numeric b = false ->
               exists c, f a b = Ok c) ->
  exists cs, object_op f xs ys = Ok cs.
Proof.
  intros Hm Hf. unfold object_op.
  assert (exists cs, masked_op f xs ys = Ok cs) as (cs & Ecs).
  { apply column_op_returns. intros a b Hin.
    destruct (notna a && notna b) eqn:N; [|eauto].
    apply Hf; [exact Hin|]. now apply (meets_none xs ys). }
  destruct (column_op f xs ys) as [r|e] eqn:E; [eauto|].
  apply column_op_raise_inv in E as (a & b & Hin & Hab).
  destruct (is_non_numeric a || is_non_numeric b) eqn:Ht.
  - rewrite (f_text a b Ht) in Hab. injection Hab as <-. eauto.
  - destruct (Hf a b Hin Ht) as (c & Hc). congruence.
Qed.

(** Whatever the operation raises, the operator raised. *)
Lemma object_op_error xs ys e :
  object_op f xs ys = Raise e -> exists a b, f a b = Raise e.
Proof.
  unfold object_op, masked_op.
  destruct (column_op f xs ys) as [r|e1] eqn:E; [discriminate|].
  assert ((Raise e1 : result column) = Raise e ->
          exists a b, f a b = Raise e) as Direct.
  { intros [= <-]. apply column_op_raise_inv in E as (a & b & _ & H).
    eauto. }
  destruct e1; try exact Direct.
  intros (a & b & _ & H)%column_op_raise_inv.
  destruct (notna a && notna b); [eauto | discriminate].
Qed.

End Retry.

(** *** Columns of a frame *)

Lemma int64_column_in c a :
  int64_column c = true -> In a c -> fits_int64 a = true.
Proof. unfold int64_column. rewrite forallb_forall. auto. Qed.

Lemma existsb_false_in {A} (p : A -> bool) xs x :
  existsb p xs = false -> In x xs -> p x = false.
Proof.
  intros H Hin. destruct (p x) eqn:E; [|reflexivity].
  assert (existsb p xs = true) by (apply existsb_exists; eauto).
  congruence.
Qed.

Lemma np_float_not_missing z : is_missing (CFloat (np_float z)) = false.
Proof.
  unfold np_float. pose proof (round64_not_nan (z * one_units) 1) as N.
  destruct (round64 _ _); congruence || reflexivity.
Qed.

Lemma np_float_nonzero z : z <> 0 -> np_float z <> Fin 0.
Proof.
  intros Hz. pose proof one_units_pos as U. unfold np_float.
  assert (forall t, 0 < t -> round64 (t * one_units) 1 <> Fin 0) as Pos.
  { intros t Ht.
    assert (le_float (Fin one_units) (round64 (t * one_units) 1)) as L.
    { rewrite <- (round64_exact one_units) by (vm_compute; reflexivity).
      apply round64_mono; nia. }
    intros E. rewrite E in L. apply le_float_fin in L. lia. }
  destruct (Z.lt_trichotomy z 0) as [Hn | [-> | Hp]]; [|congruence|auto].
  replace (z * one_units) with (- (- z * one_units)) by lia.
  rewrite round64_opp by lia. specialize (Pos (- z) ltac:(lia)).
  destruct (round64 (- z * one_units) 1) as [n| | |]; cbn [fneg];
    try discriminate.
  intros [= E]. apply Pos. f_equal. lia.
Qed.

(** The elements of a column are its cells, an integer of a float64
    column as a float. *)
Lemma elements_cells c :
  exists g,
    elements c = map g c /\
    forall d, In d c ->
      g d = d \/ exists z, d = CInt z /\ g d = CFloat (np_float z).
Proof.
  unfold elements, dtype_of.
  destruct (has_non_numeric c) eqn:T;
    [exists (fun d => d); split; [now rewrite map_id | auto]|].
  destruct (existsb is_float c);
    [|exists (fun d => d); split; [now rewrite map_id | auto]].
  exists (fun x => CFloat (as_float x)). split; [reflexivity|].
  intros d Hd. pose proof (existsb_false_in _ _ d T Hd) as Nd.
  destruct d as [z|x|s]; [right; eauto | now left | discriminate].
Qed.

Lemma element_flags d d' :
  (d' = d \/ exists z, d = CInt z /\ d' = CFloat (np_float z)) ->
  is_non_numeric d' = is_non_numeric d /\
  is_missing d' = is_missing d /\
  (fits_int64 d = true -> fits_int64 d' = true) /\
  (is_zero d = false -> is_zero d' = false) /\
  (match d with CInt z => - 2 ^ 67 <= z <= 2 ^ 67 | _ => True end ->
   match d' with CInt z => - 2 ^ 67 <= z <= 2 ^ 67 | _ => True end).
Proof.
  intros [-> | (z & -> & ->)]; [tauto|].
  split; [reflexivity|]. split; [apply np_float_not_missing|].
  split; [reflexivity|]. split; [|auto].
  intros Hz. cbn [is_zero] in *.
  assert (z <> 0) as Nz by (intros ->; discriminate).
  pose proof (np_float_nonzero z Nz) as N.
  destruct (np_float z) as [n| | |]; try reflexivity.
  destruct n; congruence || reflexivity.
Qed.

Lemma meets_map xs ys g h :
  (forall d, In d xs -> is_non_numeric (g d) = is_non_numeric d /\
                        is_missing (g d) = is_missing d) ->
  (forall d, In d ys -> is_non_numeric (h d) = is_non_numeric d /\
                        is_missing (h d) = is_missing d) ->
  text_meets_value (map g xs) (map h ys) = text_meets_value xs ys.
Proof.
  unfold text_meets_value.
  revert ys. induction xs as [|a xs IH]; intros [|d ys] Hg Hh;
    try reflexivity.
  cbn [map combine existsb fst snd].
  destruct (Hg a ltac:(now left)) as [Gn Gm].
  destruct (Hh d ltac:(now left)) as [Hn Hm].
  unfold notna. rewrite Gn, Gm, Hn, Hm. f_equal.
  apply IH; intros d' Hd'; [apply Hg | apply Hh]; now right.
Qed.

Lemma text_map c g :
  (forall d, In d c -> is_non_numeric (g d) = is_non_numeric d) ->
  has_non_numeric (map g c) = has_non_numeric c.
Proof.
  unfold has_non_numeric. induction c as [|d c IH]; intros H;
    [reflexivity|].
  cbn [map existsb]. rewrite (H d ltac:(now left)). f_equal.
  apply IH. intros d' Hd'. apply H. now right.
Qed.

Lemma meets_elements xs ys :
  text_meets_value (elements xs) (elements ys) = text_meets_value xs ys.
Proof.
  destruct (elements_cells xs) as (g & -> & Hg).
  destruct (elements_cells ys) as (h & -> & Hh).
  apply meets_map; intros d Hd;
    [destruct (element_flags d (g d) (Hg d Hd)) as (? & ? & _)
    |destruct (element_flags d (h d) (Hh d Hd)) as (? & ? & _)]; auto.
Qed.

Lemma in_combine_elements xs ys a b :
  In (a, b) (combine (elements xs) (elements ys)) ->
  exists a0 b0,
    In a0 xs /\ In b0 ys /\
    (a = a0 \/ exists z, a0 = CInt z /\ a = CFloat (np_float z)) /\
    (b = b0 \/ exists z, b0 = CInt z /\ b = CFloat (np_float z)).
Proof.
  intros Hin.
  pose proof (in_combine_l _ _ _ _ Hin) as Ha.
  pose proof (in_combine_r _ _ _ _ Hin) as Hb.
  destruct (elements_cells xs) as (g & Eg & Hg). rewrite Eg in Ha.
  destruct (elements_cells ys) as (h & Eh & Hh). rewrite Eh in Hb.
  apply in_map_iff in Ha as (a0 & <- & Ha0).
  apply in_map_iff in Hb as (b0 & <- & Hb0).
  exists a0, b0. auto.
Qed.

Lemma series_sub_object xs ys :
  has_non_numeric xs || has_non_numeric ys = true ->
  series_sub xs ys = object_op py_sub (elements xs) (elements ys).
Proof.
  unfold series_sub, dtype_of.
  destruct (has_non_numeric xs), (has_non_numeric ys); try discriminate;
    intros _; try reflexivity.
  destruct (existsb is_float xs); reflexivity.
Qed.

Lemma series_sub_numeric xs ys :
  has_non_numeric xs || has_non_numeric ys = false ->
  exists c, series_sub xs ys = Ok c.
Proof.
  unfold series_sub, dtype_of.
  destruct (has_non_numeric xs), (has_non_numeric ys); try discriminate.
  intros _.
  destruct (existsb is_float xs), (existsb is_float ys); eauto.
Qed.

Lemma series_sub_error xs ys e :
  series_sub xs ys = Raise e -> arithmetic_error e.
Proof.
  destruct (has_non_numeric xs || has_non_numeric ys) eqn:T.
  - rewrite series_sub_object by exact T.
    intros (a & b & H)%object_op_error. now apply py_sub_error in H.
  - destruct (series_sub_numeric xs ys T) as (c & ->). discriminate.
Qed.

Lemma series_sub_raises xs ys :
  text_meets_value xs ys = true ->
  exists e, series_sub xs ys = Raise e.
Proof.
  intros H. rewrite series_sub_object by (apply meets_has_text, H).
  rewrite <- meets_elements in H.
  destruct (object_op_raises py_sub py_sub_text _ _ H) as (e & E & _).
  eauto.
Qed.

Lemma series_sub_returns xs ys :
  text_meets_value xs ys = false ->
  int64_column xs = true -> int64_column ys = true ->
  exists c, series_sub xs ys = Ok c.
Proof.
  intros Hm Ix Iy.
  destruct (has_non_numeric xs || has_non_numeric ys) eqn:T;
    [|now apply series_sub_numeric].
  rewrite series_sub_object by exact T.
  apply object_op_returns;
    [apply py_sub_text | now rewrite meets_elements |].
  intros a b (a0 & b0 & Ha & Hb & Ea & Eb)%in_combine_elements Hn.
  destruct (element_flags a0 a Ea) as (_ & _ & Fa & _).
  destruct (element_flags b0 b Eb) as (_ & _ & Fb & _).
  apply py_sub_returns; [| |exact Hn].
  - apply Fa. now apply (int64_column_in xs).
  - apply Fb. now apply (int64_column_in ys).
Qed.

(** Multiplying by 12 keeps a string a string and a missing value
    missing. *)
Lemma fmul_12_missing x :
  is_missing (CFloat (fmul x (Fin (12 * one_units))))
  = is_missing (CFloat x).
Proof.
  pose proof one_units_pos as U.
  destruct x as [a| | |]; cbn [fmul is_missing].
  - pose proof (round64_not_nan (a * (12 * one_units)) one_units) as N.
    destruct (round64 _ _); congruence || reflexivity.
  - destruct (Z.eqb_spec (12 * one_units) 0); [lia|].
    destruct (0 <? 12 * one_units); reflexivity.
  - destruct (Z.eqb_spec (12 * one_units) 0); [lia|].
    destruct (0 <? 12 * one_units); reflexivity.
  - reflexivity.
Qed.

Lemma times_12_cells dur :
  exists g,
    series_times_12 dur = map g dur /\
    forall d, In d dur ->
      is_non_numeric (g d) = is_non_numeric d /\
      is_missing (g d) = is_missing d /\
      (fits_int64 d = true ->
       match g d with
       | CInt z => - 2 ^ 67 <= z <= 2 ^ 67
       | _ => True
       end).
Proof.
  unfold series_times_12, dtype_of.
  destruct (has_non_numeric dur) eqn:T.
  - exists py_times_12. split; [reflexivity|]. intros [z|x|s] _.
    + split; [reflexivity|]. split; [reflexivity|].
      intros F%fits_int64_spec. cbn [py_times_12]. lia.
    + cbn [py_times_12]. split; [reflexivity|].
      split; [apply fmul_12_missing | auto].
    + split; [reflexivity|]. split; [reflexivity|]. intros _. exact I.
  - destruct (existsb is_float dur) eqn:F.
    + exists float64_times_12. split; [reflexivity|]. intros d Hd.
      pose proof (existsb_false_in _ _ d T Hd) as Nd.
      destruct d as [z|x|s]; [| |discriminate]; unfold float64_times_12;
        cbn [as_float].
      * split; [reflexivity|]. split; [|auto].
        rewrite fmul_12_missing. apply np_float_not_missing.
      * split; [reflexivity|]. split; [apply fmul_12_missing | auto].
    + exists int64_times_12. split; [reflexivity|]. intros d Hd.
      pose proof (existsb_false_in _ _ d T Hd) as Nd.
      pose proof (existsb_false_in _ _ d F Hd) as Fd.
      destruct d as [z|x|s]; try discriminate.
      unfold int64_times_12. cbn [as_int].
      split; [reflexivity|]. split; [reflexivity|]. intros _.
      pose proof (wrap_int64_range (z * 12)). lia.
Qed.

Lemma meets_times_12 goal dur :
  text_meets_value goal (series_times_12 dur) = text_meets_value goal dur.
Proof.
  destruct (times_12_cells dur) as (g & -> & H).
  rewrite <- (map_id goal) at 1.
  apply meets_map; [auto|].
  intros d Hd. destruct (H d Hd) as (? & ? & _). auto.
Qed.

Lemma text_times_12 dur :
  has_non_numeric (series_times_12 dur) = has_non_numeric dur.
Proof.
  destruct (times_12_cells dur) as (g & -> & H).
  apply text_map. intros d Hd. now destruct (H d Hd).
Qed.

Lemma series_div_object xs ys :
  has_non_numeric xs || has_non_numeric ys = true ->
  series_div xs ys = object_op py_truediv (elements xs) (elements ys).
Proof.
  unfold series_div, dtype_of.
  destruct (has_non_numeric xs), (has_non_numeric ys); try discriminate;
    intros _; try reflexivity.
  destruct (existsb is_float xs); reflexivity.
Qed.

Lemma series_div_numeric xs ys :
  has_non_numeric xs || has_non_numeric ys = false ->
  exists c, series_div xs ys = Ok c.
Proof.
  unfold series_div, dtype_of.
  destruct (has_non_numeric xs), (has_non_numeric ys); try discriminate.
  intros _.
  destruct (existsb is_float xs), (existsb is_float ys); eauto.
Qed.

Lemma series_div_error xs ys e :
  series_div xs ys = Raise e -> arithmetic_error e.
Proof.
  destruct (has_non_numeric xs || has_non_numeric ys) eqn:T.
  - rewrite series_div_object by exact T.
    intros (a & b & H)%object_op_error. now apply py_truediv_error in H.
  - destruct (series_div_numeric xs ys T) as (c & ->). discriminate.
Qed.

Lemma series_div_raises goal dur :
  text_meets_value goal dur = true ->
  exists e, series_div goal (series_times_12 dur) = Raise e.
Proof.
  intros H. rewrite <- meets_times_12 in H.
  rewrite series_div_object by (apply meets_has_text, H).
  rewrite <- meets_elements in H.
  destruct (object_op_raises py_truediv py_truediv_text _ _ H)
    as (e & E & _).
  eauto.
Qed.

Lemma series_div_returns goal dur :
  text_meets_value goal dur = false ->
  int64_column goal = true -> int64_column dur = true ->
  divides_by_zero goal dur = false ->
  exists c, series_div goal (series_times_12 dur) = Ok c.
Proof.
  intros Hm Ig Id Hz.
  destruct (has_non_numeric goal || has_non_numeric (series_times_12 dur))
    eqn:T; [|now apply series_div_numeric].
  rewrite series_div_object by exact T.
  rewrite text_times_12 in T. unfold divides_by_zero in Hz.
  rewrite T in Hz. cbn [andb] in Hz.
  apply object_op_returns;
    [apply py_truediv_text
    | now rewrite meets_elements, meets_times_12 |].
  intros a b (a0 & b0 & Ha & Hb & Ea & Eb)%in_combine_elements Hn.
  destruct (element_flags a0 a Ea) as (_ & _ & Fa & _).
  destruct (element_flags b0 b Eb) as (_ & _ & _ & Zb & Rb).
  pose proof (existsb_false_in _ _ b0 Hz Hb) as Zb0.
  destruct (times_12_cells dur) as (g & Eg & Hg). rewrite Eg in Hb.
  apply in_map_iff in Hb as (d & <- & Hd).
  destruct (Hg d Hd) as (_ & _ & Hr).
  apply py_truediv_returns; [| | |exact Hn].
  - apply Fa. now apply (int64_column_in goal).
  - apply Rb, Hr. now apply (int64_column_in dur).
  - now apply Zb.
Qed.

(** *** Frames *)

(** Reading a frame after an assignment. *)
Lemma get_set_same df k c : get_column (set_column df k c) k = Ok c.
Proof.
  induction df as [|[k' c'] df IH]; simpl.
  - now rewrite String.eqb_refl.
  - destruct (String.eqb k' k) eqn:E; simpl; rewrite E; auto.
Qed.

Lemma get_set_other df k c k' :
  String.eqb k k' = false ->
  get_column (set_column df k c) k' = get_column df k'.
Proof.
  intros Hk. induction df as [|[k0 c0] df IH]; simpl.
  - now rewrite Hk.
  - destruct (String.eqb k0 k) eqn:E; simpl.
    + apply String.eqb_eq in E. subst k0. now rewrite Hk.
    + now rewrite IH.
Qed.

Lemma existsb_snoc {A} (f : A -> bool) xs x :
  existsb f (xs ++ [x]) = existsb f xs || f x.
Proof. rewrite existsb_app. simpl. now rewrite orb_false_r. Qed.

Section WithEstimator.

Variable Model : Type.
Variable train_test_split :
  DataFrame -> column ->
  result (DataFrame * DataFrame * column * column).
Variable fit : DataFrame -> column -> result Model.
Variable predict : Model -> DataFrame -> result column.
Variable mean_absolute_error : column -> column -> result float.

Local Abbreviation derive := (derive_features Model).
Local Abbreviation fit_save :=
  (fit_evaluate_save Model train_test_split fit predict
     mean_absolute_error).
Local Abbreviation train :=
  (train_and_save_model Model train_test_split fit predict
     mean_absolute_error).
Local Abbreviation returns :=
  (estimator_returns Model train_test_split fit predict
     mean_absolute_error).

(** A string beside a value that is not missing stops the derivation:
    nothing was fitted or saved. *)
Lemma derive_raises_on_text (w : world Model) sal exp goal dur :
  get_column (frame _ w) "salary" = Ok sal ->
  get_column (frame _ w) "expenses" = Ok exp ->
  get_column (frame _ w) "goal_amount" = Ok goal ->
  get_column (frame _ w) "duration_years" = Ok dur ->
  text_meets_value sal exp || text_meets_value goal dur = true ->
  exists e w', derive w = (Raise e, w') /\ arithmetic_error e /\
               artifact _ w' = artifact _ w /\
               history _ w' = history _ w.
Proof.
  intros Gs Ge Gg Gd H.
  unfold derive_features, io_bind, read_frame, lift, assign_column.
  rewrite Gs, Ge.
  destruct (series_sub sal exp) as [ni|e] eqn:S.
  - cbn [frame artifact history].
    rewrite !get_set_other, Gg, Gd by reflexivity.
    assert (text_meets_value goal dur = true) as Hg.
    { destruct (text_meets_value sal exp) eqn:Hs; [|exact H].
      destruct (series_sub_raises sal exp Hs) as (e & E). congruence. }
    destruct (series_div_raises goal dur Hg) as (e & E). rewrite E.
    exists e. eexists. split; [reflexivity|].
    split; [now apply series_div_error in E|]. split; reflexivity.
  - exists e, w. split; [reflexivity|].
    split; [now apply series_sub_error in S|]. split; reflexivity.
Qed.

(** Without such a pair the derivation returns, whatever is missing: the
    feature frame carries the source columns on to the estimator. *)
Lemma derive_returns_otherwise (w : world Model) sal exp goal dur y :
  get_column (frame _ w) "salary" = Ok sal ->
  get_column (frame _ w) "expenses" = Ok exp ->
  get_column (frame _ w) "goal_amount" = Ok goal ->
  get_column (frame _ w) "duration_years" = Ok dur ->
  get_column (frame _ w) "time_months" = Ok y ->
  text_meets_value sal exp || text_meets_value goal dur = false ->
  int64_column sal && int64_column exp && int64_column goal
  && int64_column dur = true ->
  divides_by_zero goal dur = false ->
  exists ni rate w',
    derive w =
      (Ok ([("net_income", ni); ("required_savings_rate", rate);
            ("salary", sal); ("expenses", exp)]%string, y), w') /\
    artifact _ w' = artifact _ w /\ history _ w' = history _ w.
Proof.
  intros Gs Ge Gg Gd Gy H I Hz.
  apply orb_false_iff in H as [Hs Hg].
  apply andb_true_iff in I as [I Id]. apply andb_true_iff in I as [I Ig].
  apply andb_true_iff in I as [Is Ie].
  unfold derive_features, io_bind, read_frame, lift, assign_column.
  rewrite Gs, Ge.
  destruct (series_sub_returns sal exp Hs Is Ie) as [ni ->].
  cbn [frame artifact history].
  rewrite !get_set_other, Gg, Gd by reflexivity.
  destruct (series_div_returns goal dur Hg Ig Id Hz) as [rate ->].
  cbn [frame artifact history select_columns feature_names bind].
  rewrite get_set_same.
  rewrite (get_set_other _ "required_savings_rate" _ "net_income")
    by reflexivity.
  rewrite get_set_same.
  rewrite !get_set_other, Gs, Ge, Gy by reflexivity.
  cbn [bind]. unfold io_ret.
  do 3 eexists. split; [reflexivity|]. split; reflexivity.
Qed.

(** The artifact is written exactly when every estimator call
    returns; the frame reaches [fit] as soon as the split returns. *)
Lemma fit_evaluate_save_outcome X y (w : world Model) :
  let (r, w') := fit_save X y w in
  (if returns X y
   then exists m, r = Ok m /\ artifact _ w' = Some m
   else (exists e, r = Raise e) /\ artifact _ w' = artifact _ w)
  /\ (forall parts, train_test_split X y = Ok parts ->
                    fit_was_called _ w' = true).
Proof.
  unfold fit_evaluate_save, estimator_returns, io_bind, lift, log,
    joblib_dump, io_ret, fit_was_called.
  destruct (train_test_split X y) as [[[[Xtr Xte] ytr] yte]|e].
  2: { split; [eauto | discriminate]. }
  cbn [frame artifact history].
  destruct (fit Xtr ytr) as [m|e]; cbn [frame artifact history].
  2: { split; [eauto | intros; rewrite existsb_snoc; apply orb_true_r]. }
  destruct (predict m Xte) as [yp|e]; cbn [frame artifact history].
  2: { split; [eauto|]. intros.
       rewrite !existsb_snoc. cbn. now rewrite orb_true_r. }
  destruct (mean_absolute_error yte yp) as [mae|e];
    cbn [frame artifact history].
  2: { split; [eauto|]. intros.
       rewrite !existsb_snoc. cbn. now rewrite orb_true_r. }
  split; [eauto|]. intros.
  rewrite !existsb_snoc. cbn. now rewrite !orb_false_r, orb_true_r.
Qed.

(** Training is the derivation followed by the estimator phase. *)
Lemma train_unfold (w : world Model) :
  train w =
    match derive w with
    | (Ok (X, y), w') => fit_save X y w'
    | (Raise e, w') => (Raise e, w')
    end.
Proof.
  unfold train_and_save_model, io_bind.
  destruct (derive w) as [[[X y]|e] w']; reflexivity.
Qed.

End WithEstimator.

End TrainerFacts.

(** ** The claims *)

Import ModelTrainer TrainerFacts Routes.

(** On every operation of [reference_cases], ties and the overflow included,
    the rounding defined here and [SpecFloat] give the same float. *)
Example operations_agree_with_reference :
  forallb agrees_with_reference reference_cases = true.
Proof. vm_compute. reflexivity. Qed.

(** C1, as the code has it. For every valid profile with finite amounts and
    every positive [target_months] below [2^1024 - 2^970] (so that it converts
    to a float), [calculate_recommendation] returns an integer in
    [1, 100], except when the feasible branch is taken and
    [monthly_savings_needed + expenses] overflows to infinity: then [round]
    raises [OverflowError]. That cannot happen when the salary is below
    [2^1023]. *)
Theorem solver_range_unless_overflow (p : FinancialInput) (t : Z) :
  finite_profile p -> 0 < t < int_overflow_bound ->
  (exists msn,
      monthly_savings_needed p t = Ok msn /\
      ((fgt msn (net_income p) = false /\
        fadd msn (expenses p) = PInf /\
        calculate_recommendation p t = Raise OverflowError)
       \/
       (~ (fgt msn (net_income p) = false /\ fadd msn (expenses p) = PInf) /\
        exists r, calculate_recommendation p t = Ok r /\ 1 <= r <= 100)))
  /\ (flt (salary p) two_pow_1023 = true ->
      exists r, calculate_recommendation p t = Ok r /\ 1 <= r <= 100).
Proof.
  intros Hf Ht. split.
  - now apply solver_total_or_overflow.
  - now apply solver_total_bounded.
Qed.

Lemma scenario_feasible_finite : finite_profile scenario_feasible.
Proof. vm_compute. repeat split. Defined.

Lemma scenario_infeasible_valid : valid_profile scenario_infeasible.
Proof. vm_compute. repeat split. Defined.

Lemma months_24_convertible : 0 < 24 < int_overflow_bound.
Proof. vm_compute. repeat split. Defined.

Lemma solver_range_unless_overflow_witness :
  exists r, calculate_recommendation scenario_feasible 24 = Ok r
            /\ 1 <= r <= 100.
Proof.
  apply (proj2 (solver_range_unless_overflow scenario_feasible 24
                  scenario_feasible_finite months_24_convertible)).
  vm_compute. reflexivity.
Defined.

(** C1, as stated, fails: a valid profile of finite amounts and
    [target_months = 1] on which the solver raises. The salary is the largest
    finite float; [salary - expenses] rounds up to the goal amount, so the
    goal passes the feasibility test, and [goal + expenses] then rounds to
    infinity. *)
Lemma solver_raises_on_overflow :
  valid_profile overflowing_profile /\ 0 < 1 /\
  net_income overflowing_profile = goal_amount overflowing_profile /\
  calculate_recommendation overflowing_profile 1 = Raise OverflowError.
Proof. vm_compute. repeat split. Qed.

(** A [target_months] too large for a float makes the division raise. *)
Example solver_raises_on_huge_target :
  calculate_recommendation scenario_feasible (2 ^ 1024) = Raise OverflowError.
Proof. vm_compute. reflexivity. Qed.

(** C2. For every valid profile and positive [target_months], when
    [goal_amount / target_months] evaluates above [salary - expenses],
    [calculate_recommendation] returns exactly 100. *)
Theorem infeasible_goal_returns_100 (p : FinancialInput) (t : Z)
    (msn : float) :
  valid_profile p -> 0 < t ->
  monthly_savings_needed p t = Ok msn ->
  fgt msn (net_income p) = true ->
  calculate_recommendation p t = Ok 100.
Proof.
  intros _ _ Em Hgt.
  rewrite (calculate_recommendation_unfold p t msn Em), Hgt. reflexivity.
Qed.

Lemma infeasible_goal_returns_100_witness :
  calculate_recommendation scenario_infeasible 12 = Ok 100.
Proof.
  apply (infeasible_goal_returns_100 scenario_infeasible 12 (amount 50000)
           scenario_infeasible_valid).
  - vm_compute. reflexivity.
  - vm_compute. reflexivity.
  - vm_compute. reflexivity.
Defined.

(** C3, as the code has it. For every valid profile and every finite raw
    prediction of the model, negative, zero or fractional,
    [predict_time_to_goal] returns [max 1 (round raw)], an integer that is
    at least 1, and whenever it returns at all its result is at least 1.
    The model is asked whenever [duration_years * 12] converts to a float,
    that is below [2^1024 - 2^970]: the feature row is built and handed to
    it. From that bound on the conversion raises [OverflowError], whatever
    the model is; a raw prediction that is not a number makes [round] raise
    [ValueError], an infinite one [OverflowError]. *)
Theorem predicted_months_at_least_one
    (model : FeatureRow -> result float) (p : FinancialInput) :
  valid_profile p ->
  (forall raw,
      raw_prediction model p = Ok raw -> is_finite raw = true ->
      exists rounded n,
        py_round raw = Ok rounded /\
        predict_time_to_goal model p = Ok n /\ n = Z.max 1 rounded /\ 1 <= n)
  /\ (duration_years p * 12 < int_overflow_bound ->
      exists rate,
        raw_prediction model p
        = model (mkFeatureRow (net_income p) rate (salary p) (expenses p)))
  /\ (forall n, predict_time_to_goal model p = Ok n -> 1 <= n)
  /\ (int_overflow_bound <= duration_years p * 12 ->
      predict_time_to_goal model p = Raise OverflowError)
  /\ (forall raw,
      raw_prediction model p = Ok raw -> is_finite raw = false ->
      predict_time_to_goal model p
      = Raise (match raw with NaN => ValueError | _ => OverflowError end)).
Proof.
  intros V. split; [|split; [|split; [|split]]].
  - intros raw Er Hfin. unfold predict_time_to_goal. rewrite Er. cbn [bind].
    destruct raw as [x| | |]; try discriminate.
    cbn [py_round bind]. do 2 eexists. repeat split. lia.
  - intros Hb. apply valid_profile_inv in V as (_ & _ & _ & Hy & _).
    destruct (of_int_ok (duration_years p * 12) ltac:(lia)) as (n & En & Hn).
    pose proof one_units_pos.
    unfold raw_prediction. rewrite En. cbn [bind].
    rewrite fdiv_pos by lia. cbn [bind]. eexists. reflexivity.
  - apply predict_time_to_goal_min.
  - apply predictor_overflows.
  - apply predictor_raises_on_non_finite.
Qed.

Lemma predicted_months_at_least_one_witness :
  exists n,
    predict_time_to_goal (flat_model (Fin (- 7 * 2 ^ 1073))) scenario_feasible
    = Ok n /\ 1 <= n.
Proof.
  destruct (proj1 (predicted_months_at_least_one
                     (flat_model (Fin (- 7 * 2 ^ 1073))) scenario_feasible
                     (proj1 scenario_feasible_finite))
              (Fin (- 7 * 2 ^ 1073)) ltac:(vm_compute; reflexivity) eq_refl)
    as (rounded & n & _ & P & _ & H).
  exists n. split; assumption.
Defined.

(** Minus three and a half rounds to minus four and is clamped to 1. *)
Example predicted_months_clamps_negative :
  predict_time_to_goal (flat_model (Fin (- 7 * 2 ^ 1073))) scenario_feasible
  = Ok 1.
Proof. vm_compute. reflexivity. Qed.

(** A raw prediction that is not a number makes [round] raise. *)
Example predicted_months_raises_on_nan :
  predict_time_to_goal (flat_model NaN) scenario_feasible = Raise ValueError.
Proof. vm_compute. reflexivity. Qed.

(** C3, as stated, fails: a duration of [10^400] years is valid, and
    [duration_years * 12] no longer converts to a float; the division of
    line 65 raises [OverflowError] before the model is asked, whatever the
    model is. *)
Lemma predicted_months_raises_on_long_duration :
  valid_profile long_profile /\
  forall model, predict_time_to_goal model long_profile = Raise OverflowError.
Proof.
  split; [vm_compute; repeat split|].
  intros model. apply predictor_overflows.
  apply Z.leb_le. vm_compute. reflexivity.
Qed.

(** C4. Holding salary, expenses and [target_months] fixed, for goal amounts
    [g1 <= g2] the solver's result for [g1] is at most its result for [g2],
    across both branches; and on finite amounts with the salary below
    [2^1023] both results exist. *)
Theorem recommendation_monotone_in_goal (p : FinancialInput)
    (g1 g2 : float) (t : Z) :
  valid_profile (with_goal p g1) -> valid_profile (with_goal p g2) ->
  0 < t -> le_float g1 g2 ->
  (forall r1 r2,
      calculate_recommendation (with_goal p g1) t = Ok r1 ->
      calculate_recommendation (with_goal p g2) t = Ok r2 ->
      r1 <= r2)
  /\ (finite_profile (with_goal p g1) -> finite_profile (with_goal p g2) ->
      t < int_overflow_bound -> flt (salary p) two_pow_1023 = true ->
      exists r1 r2,
        calculate_recommendation (with_goal p g1) t = Ok r1 /\
        calculate_recommendation (with_goal p g2) t = Ok r2 /\
        r1 <= r2).
Proof.
  intros V1 V2 Ht Hg.
  assert (forall r1 r2,
             calculate_recommendation (with_goal p g1) t = Ok r1 ->
             calculate_recommendation (with_goal p g2) t = Ok r2 ->
             r1 <= r2) as M
    by (intros r1 r2; now apply solver_monotone).
  split; [exact M|].
  intros F1 F2 Hb Hs.
  destruct (solver_total_bounded _ t F1 ltac:(lia) Hs) as (r1 & C1 & _).
  destruct (solver_total_bounded _ t F2 ltac:(lia) Hs) as (r2 & C2 & _).
  exists r1, r2. auto.
Qed.

Lemma scenario_larger_goal_finite :
  finite_profile (with_goal scenario_feasible (amount 1500000)).
Proof. vm_compute. repeat split. Defined.

Lemma recommendation_monotone_in_goal_witness :
  exists r1 r2,
    calculate_recommendation
      (with_goal scenario_feasible (amount 240000)) 24 = Ok r1 /\
    calculate_recommendation
      (with_goal scenario_feasible (amount 1500000)) 24 = Ok r2 /\
    r1 <= r2.
Proof.
  apply (proj2 (recommendation_monotone_in_goal scenario_feasible
                  (amount 240000) (amount 1500000) 24
                  (proj1 scenario_feasible_finite)
                  (proj1 scenario_larger_goal_finite)
                  ltac:(vm_compute; reflexivity)
                  ltac:(vm_compute; reflexivity))).
  - exact scenario_feasible_finite.
  - exact scenario_larger_goal_finite.
  - vm_compute. reflexivity.
  - vm_compute. reflexivity.
Defined.

(** Raising the goal of the feasible scenario from 240000 to 1500000 moves
    the solver from the feasible branch, 60, to the infeasible one, 100. *)
Example recommendation_across_the_branches :
  calculate_recommendation (with_goal scenario_feasible (amount 240000)) 24
  = Ok 60 /\
  calculate_recommendation (with_goal scenario_feasible (amount 1500000)) 24
  = Ok 100.
Proof. vm_compute. repeat split. Qed.

(** C5. The worked scenario: salary 100000, expenses 50000, goal 240000 over
    2 years gives [target_months = 24], [monthly_savings_needed = 10000],
    not above [net_income = 50000]; [recommended_savings_amount = 60000],
    the percentage is exactly 60.0 and the solver returns 60. *)
Theorem worked_scenario_feasible :
  duration_years scenario_feasible * 12 = 24 /\
  monthly_savings_needed scenario_feasible 24 = Ok (amount 10000) /\
  net_income scenario_feasible = amount 50000 /\
  fgt (amount 10000) (net_income scenario_feasible) = false /\
  fadd (amount 10000) (expenses scenario_feasible) = amount 60000 /\
  (ratio <- fdiv (amount 60000) (salary scenario_feasible) ;;
   Ok (fmul ratio hundred)) = Ok (amount 60) /\
  py_round (amount 60) = Ok 60 /\
  calculate_recommendation scenario_feasible 24 = Ok 60.
Proof. vm_compute. repeat split. Qed.

(** The other scenario of the specification: 50000 a month is needed, 40000
    is available, the solver returns 100. *)
Example worked_scenario_infeasible :
  monthly_savings_needed scenario_infeasible 12 = Ok (amount 50000) /\
  net_income scenario_infeasible = amount 40000 /\
  calculate_recommendation scenario_infeasible 12 = Ok 100.
Proof. vm_compute. repeat split. Qed.

(** C6. Once the solver has returned for [target_months], the insight step
    returns exactly one narrative, for every [predicted]: on track exactly
    when [predicted <= target_months]; behind with a gap exactly when
    [predicted > target_months] and
    [goal_amount / target_months - (salary - expenses) > 0]; the fallback
    exactly in the remaining case. With [target_months = duration_years * 12]
    and [predicted] the predictor's answer, [/predict] returns that
    narrative. *)
Theorem reconciliation_selects_exactly_one_branch
    (model : FeatureRow -> result float) (p : FinancialInput)
    (predicted t recommended : Z) :
  valid_profile p ->
  calculate_recommendation p t = Ok recommended ->
  exists i gap b,
    insight_generation p predicted t recommended = Ok i /\
    extra_savings_needed p t = Ok gap /\
    branch_of i = Some b /\
    (b = BranchOnTrack <-> predicted <= t) /\
    (b = BranchBehindWithGap <-> t < predicted /\ fgt gap zero = true) /\
    (b = BranchFallback <-> t < predicted /\ fgt gap zero = false) /\
    (t = duration_years p * 12 ->
     predict_time_to_goal model p = Ok predicted ->
     predict_goal_achievement model p
     = Ok (mkPredictionResponse (goal_type p) predicted recommended i, p)).
Proof.
  intros V C.
  destruct (insight_generation_branch p predicted t recommended V C)
    as (i & gap & b & I & G & B & H1 & H2 & H3).
  exists i, gap, b.
  split; [exact I|]. split; [exact G|]. split; [exact B|].
  split; [exact H1|]. split; [exact H2|]. split; [exact H3|].
  intros -> P. now apply predict_route_returns.
Qed.

Lemma reconciliation_selects_exactly_one_branch_witness :
  exists i gap b,
    insight_generation scenario_feasible 30 24 60 = Ok i /\
    extra_savings_needed scenario_feasible 24 = Ok gap /\
    branch_of i = Some b /\
    (b = BranchFallback <-> 24 < 30 /\ fgt gap zero = false).
Proof.
  destruct (reconciliation_selects_exactly_one_branch
              (flat_model (amount 30)) scenario_feasible 30 24 60
              (proj1 scenario_feasible_finite)
              ltac:(vm_compute; reflexivity))
    as (i & gap & b & I & G & B & _ & _ & H3 & _).
  exists i, gap, b. auto.
Defined.

(** The model predicts 30 months against a target of 24 while the required
    10000 a month is below the 50000 available: the fallback narrative. *)
Example reconciliation_fallback_scenario :
  match predict_goal_achievement (flat_model (amount 30)) scenario_feasible
  with
  | Ok (resp, o) =>
      branch_of (r_insight resp) = Some BranchFallback /\
      predicted_months resp = 30 /\ recommended_savings_percent resp = 60
  | Raise _ => False
  end.
Proof. vm_compute. repeat split. Qed.

(** C7. Two calls of [generate_synthetic_data] with the same record count
    return the same frame, column by column and row by row, whatever state
    the global generator was left in: each call starts by reseeding it with
    42. In particular a second call made after the first, with
    [NUM_RECORDS = 1000] records, repeats its frame. *)
Theorem generate_synthetic_data_deterministic
    (rng_state : Type) (seed : Z -> rng_state)
    (randint : Z -> Z -> nat -> rng_state -> list Z * rng_state)
    (uniform : float -> float -> nat -> rng_state -> list float * rng_state)
    (choice : list string -> nat -> rng_state -> list string * rng_state)
    (n : nat) (g1 g2 : rng_state) :
  generate_synthetic_data rng_state seed randint uniform choice n g1
  = generate_synthetic_data rng_state seed randint uniform choice n g2
  /\ fst (generate_synthetic_data rng_state seed randint uniform choice
            NUM_RECORDS
            (snd (generate_synthetic_data rng_state seed randint uniform
                    choice NUM_RECORDS g1)))
     = fst (generate_synthetic_data rng_state seed randint uniform choice
              NUM_RECORDS g1).
Proof.
  assert (forall m a b,
             generate_synthetic_data rng_state seed randint uniform choice m a
             = generate_synthetic_data rng_state seed randint uniform choice
                 m b) as R
    by (intros; unfold generate_synthetic_data, rand_bind, np_random_seed;
        reflexivity).
  split; [apply R | apply f_equal, R].
Qed.

(** With a generator that merely counts, a call on state 7 and a call on the
    state it leaves behind give the same two records. *)
Example generate_synthetic_data_twice :
  let gen :=
    generate_synthetic_data Z counter_seed counter_randint counter_uniform
      counter_choice 2 in
  snd (gen 7) <> 7 /\ fst (gen (snd (gen 7))) = fst (gen 7).
Proof.
  vm_compute. split; [discriminate | reflexivity].
Qed.

(** C8, as the code has it. [train_and_save_model] checks nothing itself.
    What can stop it before [fit] is the arithmetic of lines 61 and 62: a
    string in [salary], [expenses], [goal_amount] or [duration_years]
    beside a value that is not missing makes Python's operator raise,
    training aborts and nothing is saved. Without such a pair (the
    integers being int64 values and no division by zero happening in
    Python) the derivation returns: a string beside a missing value gives a
    missing value, a missing value stays missing, and the feature frame,
    still carrying the strings and missing values of [salary] and
    [expenses], is handed to the estimator; [fit] is called as soon as the
    split returns, and the artifact is written exactly when split, [fit],
    [predict] and [mean_absolute_error] all return; when one of them
    raises, the stored artifact is left as it was. *)
Theorem training_validation_is_delegated
    (Model : Type)
    (train_test_split :
       DataFrame -> column ->
       result (DataFrame * DataFrame * column * column))
    (fit : DataFrame -> column -> result Model)
    (predict : Model -> DataFrame -> result column)
    (mean_absolute_error : column -> column -> result float)
    (w : world Model) (sal exp goal dur : column) :
  get_column (frame _ w) "salary" = Ok sal ->
  get_column (frame _ w) "expenses" = Ok exp ->
  get_column (frame _ w) "goal_amount" = Ok goal ->
  get_column (frame _ w) "duration_years" = Ok dur ->
  List.length sal = List.length exp ->
  List.length goal = List.length dur ->
  (text_meets_value sal exp || text_meets_value goal dur = true ->
   exists e w',
     train_and_save_model Model train_test_split fit predict
       mean_absolute_error w = (Raise e, w') /\
     arithmetic_error e /\
     artifact _ w' = artifact _ w /\
     fit_was_called _ w' = fit_was_called _ w)
  /\
  (text_meets_value sal exp || text_meets_value goal dur = false ->
   int64_column sal && int64_column exp && int64_column goal
   && int64_column dur = true ->
   divides_by_zero goal dur = false ->
   forall y, get_column (frame _ w) "time_months" = Ok y ->
   exists ni rate w1,
     let X := [("net_income", ni); ("required_savings_rate", rate);
               ("salary", sal); ("expenses", exp)]%string in
     derive_features Model w = (Ok (X, y), w1) /\
     (has_missing sal || has_missing exp
      || has_non_numeric sal || has_non_numeric exp = true ->
      frame_has_invalid X = true) /\
     train_and_save_model Model train_test_split fit predict
       mean_absolute_error w
     = fit_evaluate_save Model train_test_split fit predict
         mean_absolute_error X y w1 /\
     let (r, w') :=
       fit_evaluate_save Model train_test_split fit predict
         mean_absolute_error X y w1 in
     (if estimator_returns Model train_test_split fit predict
           mean_absolute_error X y
      then exists m, r = Ok m /\ artifact _ w' = Some m
      else (exists e, r = Raise e) /\ artifact _ w' = artifact _ w)
     /\ (forall parts, train_test_split X y = Ok parts ->
                       fit_was_called _ w' = true)).
Proof.
  intros Gs Ge Gg Gd Lse Lgd. split.
  - intros H.
    destruct (derive_raises_on_text Model w sal exp goal dur
                Gs Ge Gg Gd H) as (e & w' & D & He & A & Hh).
    exists e, w'. rewrite train_unfold, D.
    unfold fit_was_called. rewrite Hh. auto.
  - intros H I Hz y Gy.
    destruct (derive_returns_otherwise Model w sal exp goal dur y
                Gs Ge Gg Gd Gy H I Hz) as (ni & rate & w1 & D & A & Hh).
    exists ni, rate, w1. cbv zeta.
    split; [exact D|]. split.
    + intros M. unfold frame_has_invalid. cbn [existsb snd].
      destruct (has_missing sal), (has_missing exp), (has_non_numeric sal),
        (has_non_numeric exp); try discriminate M;
        rewrite ?orb_true_r; reflexivity.
    + split; [rewrite train_unfold, D; reflexivity|].
      pose proof (fit_evaluate_save_outcome Model train_test_split fit
                    predict mean_absolute_error
                    [("net_income", ni); ("required_savings_rate", rate);
                     ("salary", sal); ("expenses", exp)]%string y w1) as O.
      destruct (fit_evaluate_save Model train_test_split fit predict
                  mean_absolute_error _ y w1) as [r w'].
      destruct O as [O1 O2]. split; [|exact O2].
      destruct (estimator_returns _ _ _ _ _ _ y); [exact O1|].
      rewrite <- A. exact O1.
Qed.

Lemma training_validation_is_delegated_witness :
  exists e w',
    train_and_save_model unit lenient_split lenient_fit lenient_predict
      lenient_mae (mkWorld unit dataset_with_text_salary None [])
    = (Raise e, w') /\
    arithmetic_error e /\
    artifact _ w' = None /\ fit_was_called _ w' = false.
Proof.
  exact (proj1 (training_validation_is_delegated unit lenient_split
                  lenient_fit lenient_predict lenient_mae
                  (mkWorld unit dataset_with_text_salary None [])
                  _ _ _ _ eq_refl eq_refl eq_refl eq_refl eq_refl eq_refl)
           eq_refl).
Defined.

(** C8, as stated, fails: a dataset whose first salary is missing passes the
    feature derivation, the feature frame that reaches the estimator still
    holds the missing value, [fit] is called on it, and with an estimator
    that accepts missing values the artifact is written. *)
Lemma training_accepts_missing_value :
  has_missing [CFloat NaN; CInt 50000] = true /\
  match derive_features unit
          (mkWorld unit dataset_with_missing_salary None []) with
  | (Ok (X, _), _) => frame_has_invalid X = true
  | _ => False
  end /\
  match train_and_save_model unit lenient_split lenient_fit lenient_predict
          lenient_mae (mkWorld unit dataset_with_missing_salary None []) with
  | (Ok _, w') => fit_was_called _ w' = true /\ artifact _ w' = Some tt
  | _ => False
  end.
Proof. vm_compute. repeat split. Qed.

(** The string of the first goal amount sits beside a missing duration:
    pandas' second attempt skips the pair, the required rate of that record
    is missing, training goes on and the artifact is written. With a number
    for the duration the same string stops training. *)
Example training_continues_past_text_beside_missing :
  text_meets_value [CStr "n/a"; CInt 600000] [CFloat NaN; CInt 3] = false /\
  match train_and_save_model unit lenient_split lenient_fit lenient_predict
          lenient_mae
          (mkWorld unit dataset_with_text_beside_missing None []) with
  | (Ok _, w') =>
      fit_was_called _ w' = true /\ artifact _ w' = Some tt /\
      match get_column (frame _ w') "required_savings_rate" with
      | Ok [c; _] => is_missing c = true
      | _ => False
      end
  | _ => False
  end.
Proof. vm_compute. repeat split. Qed.

(** C9, as the code has it. No helper and neither route changes [salary],
    [expenses], [goal_amount], [goal_type] or [duration_years]; [/predict]
    leaves the whole request object as it was; [/recommend] overwrites
    [savings_percent] with the recommended percentage it returns. *)
Theorem routes_preserve_financial_fields
    (model : FeatureRow -> result float) (p : FinancialInput) :
  (forall resp o,
      predict_goal_achievement model p = Ok (resp, o) -> o = p)
  /\
  (forall resp o,
      get_savings_recommendation model p = Ok (resp, o) ->
      salary o = salary p /\ expenses o = expenses p /\
      goal_amount o = goal_amount p /\ goal_type o = goal_type p /\
      duration_years o = duration_years p /\
      savings_percent o = Some (NInt (recommended_savings_percent resp))).
Proof.
  split.
  - intros resp o. apply predict_route_frame.
  - intros resp o H.
    destruct (recommend_route_inv model p resp o H)
      as (r & m & _ & _ & -> & ->).
    repeat split.
Qed.

Lemma routes_preserve_financial_fields_witness :
  exists resp o,
    get_savings_recommendation (flat_model (amount 30)) scenario_feasible
    = Ok (resp, o) /\
    salary o = salary scenario_feasible /\
    savings_percent o = Some (NInt (recommended_savings_percent resp)).
Proof.
  assert (exists x,
             get_savings_recommendation (flat_model (amount 30))
               scenario_feasible = Ok x) as [[resp o] E]
    by (vm_compute; eexists; reflexivity).
  exists resp, o. split; [exact E|].
  destruct (proj2 (routes_preserve_financial_fields
                     (flat_model (amount 30)) scenario_feasible) resp o E)
    as (Hs & _ & _ & _ & _ & Hp).
  split; assumption.
Defined.

(** C9, as stated, fails: the profile of the worked scenario is constructed
    with [savings_percent = None] and holds 60 after [/recommend]. *)
Lemma recommend_route_overwrites_savings_percent :
  exists resp o,
    get_savings_recommendation (flat_model (amount 30)) scenario_feasible
    = Ok (resp, o) /\
    savings_percent scenario_feasible = None /\
    savings_percent o = Some (NInt 60).
Proof. vm_compute. do 2 eexists. repeat split. Qed.

(** C10. Two valid profiles that agree on salary, expenses, goal amount,
    goal type and duration get the same answer from [predict_time_to_goal],
    whatever their [savings_percent]; so the months reported by
    [/recommend], predicted after the solved percentage was written into the
    profile, are the months predicted for the profile as it came in. *)
Theorem prediction_ignores_savings_percent
    (model : FeatureRow -> result float) (p1 p2 : FinancialInput) :
  valid_profile p1 -> valid_profile p2 ->
  salary p1 = salary p2 -> expenses p1 = expenses p2 ->
  goal_amount p1 = goal_amount p2 -> goal_type p1 = goal_type p2 ->
  duration_years p1 = duration_years p2 ->
  predict_time_to_goal model p1 = predict_time_to_goal model p2
  /\ (forall resp o,
         get_savings_recommendation model p1 = Ok (resp, o) ->
         predict_time_to_goal model o = Ok (predicted_months resp) /\
         predict_time_to_goal model p1 = Ok (predicted_months resp)).
Proof.
  intros _ _ Hs He Hg Ht Hd. split.
  - unfold predict_time_to_goal, raw_prediction.
    now rewrite Hs, He, Hg, Hd.
  - intros resp o H.
    destruct (recommend_route_inv model p1 resp o H)
      as (r & m & _ & P & -> & ->).
    cbn [predicted_months]. split; [|exact P].
    unfold predict_time_to_goal.
    rewrite raw_prediction_ignores_savings_percent. exact P.
Qed.

Lemma scenario_saving_20_valid : valid_profile scenario_saving_20.
Proof. vm_compute. repeat split. Defined.

Lemma prediction_ignores_savings_percent_witness :
  predict_time_to_goal feature_model scenario_feasible
  = predict_time_to_goal feature_model scenario_saving_20.
Proof.
  exact (proj1 (prediction_ignores_savings_percent feature_model
                  scenario_feasible scenario_saving_20
                  (proj1 scenario_feasible_finite) scenario_saving_20_valid
                  eq_refl eq_refl eq_refl eq_refl eq_refl)).
Defined.

(** The model of the witness does read its features: 10000 needed a month
    out of 50000 available, a fifth of a month per percent. *)
Example feature_model_scenario :
  predict_time_to_goal feature_model scenario_feasible = Ok 20.
Proof. vm_compute. reflexivity. Qed.

Module SolverOrder.

(** Scaling numerator and denominator does not change the rounding. *)
Lemma round_units_scale a b c :
  0 < b -> 0 < c -> round_units (a * c) (b * c) = round_units a b.
Proof.
  intros Hb Hc.
  assert (round_units (a * c) (b * c) <= round_units a b)
    by (apply round_units_mono; nia).
  assert (round_units a b <= round_units (a * c) (b * c))
    by (apply round_units_mono; nia).
  lia.
Qed.

Lemma round64_scale a b c :
  0 < b -> 0 < c -> round64 (a * c) (b * c) = round64 a b.
Proof. intros. unfold round64. now rewrite round_units_scale. Qed.

(** A larger positive divisor gives a smaller quotient, a larger dividend a
    larger one. *)
Lemma fdiv_nz_mono2 x y b1 b2 :
  0 < b2 -> b2 <= b1 -> le_float zero x -> le_float x y ->
  le_float (fdiv_nz x (Fin b1)) (fdiv_nz y (Fin b2)) /\
  le_float zero (fdiv_nz x (Fin b1)).
Proof.
  intros Hb2 Hb Hx Hxy. pose proof one_units_pos.
  destruct x as [a| | |]; try discriminate;
    destruct y as [c| | |]; try discriminate.
  - apply le_float_fin in Hx, Hxy. rewrite !fdiv_nz_fin by lia.
    assert (0 <= a * one_units) by (apply Z.mul_nonneg_nonneg; lia).
    assert (a * one_units <= c * one_units)
      by (apply Z.mul_le_mono_nonneg_r; lia).
    assert (a * one_units * b2 <= c * one_units * b1)
      by (transitivity (a * one_units * b1);
          [apply Z.mul_le_mono_nonneg_l; lia
          | apply Z.mul_le_mono_nonneg_r; lia]).
    split; [apply round64_mono | apply round64_nonneg]; lia.
  - apply le_float_fin in Hx. rewrite fdiv_nz_fin by lia.
    split; [|apply round64_nonneg; [lia | apply Z.mul_nonneg_nonneg; lia]].
    simpl. destruct (Z.ltb_spec 0 b2); [|lia].
    apply le_float_pinf, round64_not_nan.
  - simpl. destruct (Z.ltb_spec 0 b1); [|lia].
    destruct (Z.ltb_spec 0 b2); [|lia]. split; reflexivity.
Qed.

Lemma fadd_mono2 x y e1 e2 :
  le_float zero x -> le_float x y -> le_float zero e1 -> le_float e1 e2 ->
  le_float (fadd x e1) (fadd y e2) /\ le_float zero (fadd x e1).
Proof.
  intros Hx Hxy He He12.
  destruct e1 as [c1| | |]; try discriminate;
    destruct e2 as [c2| | |]; try discriminate;
    destruct x as [a| | |]; try discriminate;
    destruct y as [b| | |]; try discriminate;
    try (split; reflexivity);
    repeat match goal with
           | H : le_float (Fin _) (Fin _) |- _ => apply le_float_fin in H
           | H : le_float zero (Fin _) |- _ => apply le_float_fin in H
           end; simpl;
    (split; [first [apply round64_mono; lia
                   | apply le_float_pinf, round64_not_nan]
            | apply round64_nonneg; lia]).
Qed.

(** [y > z] and [x <= z] give [y > x]. *)
Lemma fgt_true_le x y z :
  fgt y z = true -> le_float x z -> fgt y x = true.
Proof.
  unfold le_float, fgt.
  destruct x, y, z; simpl; try congruence;
    rewrite ?Z.leb_le, ?Z.ltb_lt; try lia; try discriminate.
Qed.

(** The feasible branch is monotone in the amount needed and in the
    expenses, and antitone in a finite salary. *)
Lemma feasible_branch_mono2 m1 m2 e1 e2 s1 s2 r1 r2 :
  le_float zero m1 -> le_float m1 m2 ->
  le_float zero e1 -> le_float e1 e2 ->
  0 < s2 -> s2 <= s1 ->
  (ratio <- fdiv (fadd m1 e1) (Fin s1) ;;
   rounded <- py_round (fmul ratio hundred) ;;
   Ok (np_clip rounded 1 100)) = Ok r1 ->
  (ratio <- fdiv (fadd m2 e2) (Fin s2) ;;
   rounded <- py_round (fmul ratio hundred) ;;
   Ok (np_clip rounded 1 100)) = Ok r2 ->
  r1 <= r2.
Proof.
  intros Hm1 Hm12 He1 He12 Hs2 Hs.
  destruct (fadd_mono2 m1 m2 e1 e2 Hm1 Hm12 He1 He12) as [Ha Ha0].
  rewrite !fdiv_pos by lia. cbn [bind].
  destruct (fdiv_nz_mono2 _ _ s1 s2 Hs2 Hs Ha0 Ha) as [Hq Hq0].
  destruct (fmul_hundred_mono _ _ Hq0 Hq) as [Hc _].
  destruct (py_round (fmul (fdiv_nz (fadd m1 e1) (Fin s1)) hundred))
    as [a|] eqn:R1; [|discriminate].
  destruct (py_round (fmul (fdiv_nz (fadd m2 e2) (Fin s2)) hundred))
    as [b|] eqn:R2; [|discriminate].
  cbn [bind]. intros [= <-] [= <-].
  apply np_clip_mono. exact (py_round_mono _ _ _ _ Hc R1 R2).
Qed.

(** Conversion of integers is monotone. *)
Lemma of_int_mono t1 t2 n1 n2 :
  t1 <= t2 -> of_int t1 = Ok (Fin n1) -> of_int t2 = Ok (Fin n2) -> n1 <= n2.
Proof.
  intros Ht. unfold of_int. pose proof one_units_pos.
  pose proof (round64_mono (t1 * one_units) 1 (t2 * one_units) 1
                ltac:(lia) ltac:(lia) ltac:(nia)) as M.
  destruct (round64 (t1 * one_units) 1); try discriminate.
  destruct (round64 (t2 * one_units) 1); try discriminate.
  intros [= <-] [= <-]. now apply le_float_fin in M.
Qed.

(** A longer deadline never needs a higher rate. *)
Lemma solver_antitone_target p t1 t2 r1 r2 :
  valid_profile p -> 0 < t1 -> t1 <= t2 ->
  calculate_recommendation p t1 = Ok r1 ->
  calculate_recommendation p t2 = Ok r2 ->
  r2 <= r1.
Proof.
  intros V Ht1 Ht C1 C2.
  apply valid_profile_inv in V as (Ps & Pe & Pg & _).
  destruct (of_int t1) as [T1|] eqn:E1;
    [|unfold calculate_recommendation in C1; rewrite E1 in C1; discriminate].
  destruct (of_int t2) as [T2|] eqn:E2;
    [|unfold calculate_recommendation in C2; rewrite E2 in C2; discriminate].
  destruct (of_int_pos t1 T1 Ht1 E1) as (n1 & -> & Hn1).
  destruct (of_int_pos t2 T2 ltac:(lia) E2) as (n2 & -> & Hn2).
  pose proof (of_int_mono t1 t2 n1 n2 Ht E1 E2) as Hn.
  pose proof one_units_pos as U.
  assert (monthly_savings_needed p t1 = Ok (fdiv_nz (goal_amount p) (Fin n1)))
    as M1
    by (unfold monthly_savings_needed; rewrite E1; cbn [bind];
        apply fdiv_pos; lia).
  assert (monthly_savings_needed p t2 = Ok (fdiv_nz (goal_amount p) (Fin n2)))
    as M2
    by (unfold monthly_savings_needed; rewrite E2; cbn [bind];
        apply fdiv_pos; lia).
  pose proof (fgt_zero_le _ Pg) as Hg.
  destruct (fdiv_nz_mono2 (goal_amount p) (goal_amount p) n2 n1
              ltac:(lia) Hn Hg) as [Hm Hm0].
  { destruct (goal_amount p); try discriminate;
      [apply le_float_refl_fin | reflexivity]. }
  rewrite (calculate_recommendation_unfold _ t1 _ M1) in C1.
  rewrite (calculate_recommendation_unfold _ t2 _ M2) in C2.
  destruct (fgt (fdiv_nz (goal_amount p) (Fin n1)) (net_income p)) eqn:F1.
  - injection C1 as <-.
    destruct (fgt (fdiv_nz (goal_amount p) (Fin n2)) (net_income p)).
    + injection C2 as <-. lia.
    + destruct (fdiv _ _); [|discriminate]. cbn [bind] in C2.
      destruct (py_round _); [|discriminate].
      injection C2 as <-. unfold np_clip. lia.
  - rewrite (fgt_false_le _ _ _ Hm F1) in C2.
    exact (feasible_branch_mono _ _ _ _ _ _ Hm0 Hm Pe Ps C2 C1).
Qed.

(** The solver on a finite profile, after the conversion of the months. *)
Lemma solver_on_finite p t r :
  finite_profile p -> 0 < t ->
  calculate_recommendation p t = Ok r ->
  exists s e g n,
    salary p = Fin s /\ expenses p = Fin e /\ goal_amount p = Fin g /\
    0 < s /\ 0 < e /\ 0 < g /\
    representable s = true /\ representable e = true /\ 0 < n /\
    le_float zero (fdiv_nz (Fin g) (Fin n)) /\
    monthly_savings_needed p t = Ok (fdiv_nz (Fin g) (Fin n)).
Proof.
  intros F Ht C.
  destruct (finite_profile_inv p F)
    as (s & e & g & Es & Ee & Eg & Ps & Pe & Pg & Rs & Re & Rg).
  destruct (of_int t) as [T|] eqn:ET;
    [|unfold calculate_recommendation in C; rewrite ET in C; discriminate].
  destruct (of_int_pos t T Ht ET) as (n & -> & Hn).
  pose proof one_units_pos.
  exists s, e, g, n. repeat split; try assumption; try lia.
  - apply (fdiv_nz_mono (Fin g) (Fin g) n); try lia;
      apply le_float_fin; lia.
  - unfold monthly_savings_needed. rewrite ET, Eg. cbn [bind].
    apply fdiv_pos. lia.
Qed.

(** Higher expenses never lower the recommendation. *)
Lemma solver_monotone_expenses p e1 e2 t r1 r2 :
  finite_profile (with_expenses p e1) ->
  finite_profile (with_expenses p e2) ->
  0 < t -> le_float e1 e2 ->
  calculate_recommendation (with_expenses p e1) t = Ok r1 ->
  calculate_recommendation (with_expenses p e2) t = Ok r2 ->
  r1 <= r2.
Proof.
  intros F1 F2 Ht He C1 C2.
  destruct (solver_on_finite _ t r1 F1 Ht C1)
    as (s & a1 & g & n & Es & Ea1 & Eg & Ps & Pa1 & Pg & _ & _ & Hn & Hm0 & M1).
  destruct (solver_on_finite _ t r2 F2 Ht C2)
    as (s' & a2 & g' & n' & Es' & Ea2 & Eg' & _ & Pa2 & _ & _ & _ & _ & _ & M2).
  cbn [with_expenses salary expenses goal_amount] in *.
  rewrite Es in Es'. injection Es' as <-.
  rewrite Eg in Eg'. injection Eg' as <-.
  subst e1 e2. apply le_float_fin in He.
  assert (monthly_savings_needed (with_expenses p (Fin a2)) t
          = Ok (fdiv_nz (Fin g) (Fin n))) as M2'
    by (rewrite <- M1; reflexivity).
  rewrite (calculate_recommendation_unfold _ t _ M1) in C1.
  rewrite (calculate_recommendation_unfold _ t _ M2') in C2.
  unfold net_income in C1, C2.
  cbn [with_expenses salary expenses] in C1, C2. rewrite Es in C1, C2.
  assert (le_float (fsub (Fin s) (Fin a2)) (fsub (Fin s) (Fin a1))) as Hnet
    by (unfold fsub; simpl; apply round64_mono; lia).
  set (m := fdiv_nz (Fin g) (Fin n)) in *.
  destruct (fgt m (fsub (Fin s) (Fin a1))) eqn:G1.
  - rewrite (fgt_true_le _ _ _ G1 Hnet) in C2.
    injection C1 as <-. injection C2 as <-. lia.
  - destruct (fgt m (fsub (Fin s) (Fin a2))).
    + injection C2 as <-.
      destruct (fdiv _ _); [|discriminate]. cbn [bind] in C1.
      destruct (py_round _); [|discriminate].
      injection C1 as <-. unfold np_clip. lia.
    + eapply (feasible_branch_mono2 m m (Fin a1) (Fin a2) s s);
        try eassumption; try lia;
        try (apply le_float_fin; lia).
      destruct m; try discriminate; [apply le_float_refl_fin | reflexivity].
Qed.

(** A higher salary never raises the recommendation. *)
Lemma solver_antitone_salary p s1 s2 t r1 r2 :
  finite_profile (with_salary p s1) ->
  finite_profile (with_salary p s2) ->
  0 < t -> le_float s1 s2 ->
  calculate_recommendation (with_salary p s1) t = Ok r1 ->
  calculate_recommendation (with_salary p s2) t = Ok r2 ->
  r2 <= r1.
Proof.
  intros F1 F2 Ht Hs C1 C2.
  destruct (solver_on_finite _ t r1 F1 Ht C1)
    as (a1 & e & g & n & Ea1 & Ee & Eg & Pa1 & Pe & Pg & _ & _ & Hn & Hm0 & M1).
  destruct (solver_on_finite _ t r2 F2 Ht C2)
    as (a2 & e' & g' & n' & Ea2 & Ee' & Eg' & Pa2 & _ & _ & _ & _ & _ & _ & M2).
  cbn [with_salary salary expenses goal_amount] in *.
  rewrite Ee in Ee'. injection Ee' as <-.
  rewrite Eg in Eg'. injection Eg' as <-.
  subst s1 s2. apply le_float_fin in Hs.
  rewrite (calculate_recommendation_unfold _ t _ M1) in C1.
  assert (monthly_savings_needed (with_salary p (Fin a2)) t
          = Ok (fdiv_nz (Fin g) (Fin n))) as M2'
    by (rewrite <- M1; reflexivity).
  rewrite (calculate_recommendation_unfold _ t _ M2') in C2.
  unfold net_income in C1, C2.
  cbn [with_salary salary expenses] in C1, C2. rewrite Ee in C1, C2.
  assert (le_float (fsub (Fin a1) (Fin e)) (fsub (Fin a2) (Fin e))) as Hnet
    by (unfold fsub; simpl; apply round64_mono; lia).
  set (m := fdiv_nz (Fin g) (Fin n)) in *.
  destruct (fgt m (fsub (Fin a2) (Fin e))) eqn:G2.
  - rewrite (fgt_true_le _ _ _ G2 Hnet) in C1.
    injection C1 as <-. injection C2 as <-. lia.
  - destruct (fgt m (fsub (Fin a1) (Fin e))).
    + injection C1 as <-.
      destruct (fdiv _ _); [|discriminate]. cbn [bind] in C2.
      destruct (py_round _); [|discriminate].
      injection C2 as <-. unfold np_clip. lia.
    + eapply (feasible_branch_mono2 m m (Fin e) (Fin e) a2 a1);
        try eassumption; try lia;
        try (apply le_float_fin; lia).
      destruct m; try discriminate; [apply le_float_refl_fin | reflexivity].
Qed.

(** Adding nothing changes nothing. *)
Lemma fadd_zero_l e : is_binary64 e = true -> fadd zero e = e.
Proof.
  destruct e as [a| | |]; try reflexivity.
  intros R. simpl in *. now apply round64_exact.
Qed.

(** A value divided by itself is one, and one times a hundred is a hundred,
    which rounds to 100. *)
Lemma whole_salary_is_100 s :
  0 < s ->
  (ratio <- fdiv (Fin s) (Fin s) ;;
   rounded <- py_round (fmul ratio hundred) ;;
   Ok (np_clip rounded 1 100)) = Ok 100.
Proof.
  intros Hs. pose proof one_units_pos as U.
  rewrite fdiv_pos, fdiv_nz_fin by lia. cbn [bind].
  replace (s * one_units) with (one_units * s) by lia.
  replace s with (1 * s) at 2 by lia.
  rewrite round64_scale by lia.
  rewrite round64_exact by (vm_compute; reflexivity).
  unfold hundred. cbn [fmul].
  replace (one_units * (100 * one_units)) with (100 * one_units * one_units)
    by lia.
  replace one_units with (1 * one_units) at 3 by lia.
  rewrite round64_scale by lia.
  rewrite round64_exact by (vm_compute; reflexivity).
  cbn [py_round bind]. rewrite rne_exact by lia. reflexivity.
Qed.

(** With expenses at or above the salary the answer is 100. *)
Lemma overspending_returns_100 p t :
  finite_profile p -> 0 < t < int_overflow_bound ->
  fle (salary p) (expenses p) = true ->
  calculate_recommendation p t = Ok 100.
Proof.
  intros F Ht Hle.
  destruct (solver_steps p t F Ht)
    as (s & e & g & T & m & d & Es & Ee & Eg & Ps & Pe & Pg & Rs
        & ET & PT & Em & Hm & Ed & Hds & Hes).
  destruct (finite_profile_inv p F)
    as (s' & e' & g' & Es' & Ee' & _ & _ & _ & _ & _ & Re & _).
  rewrite Ee in Ee'. injection Ee' as <-.
  rewrite Es, Ee in Hle. apply Z.leb_le in Hle.
  rewrite (calculate_recommendation_unfold p t _ Em), Ed.
  destruct (Z_lt_ge_dec d m) as [Hlt | Hge].
  - replace (fgt (Fin m) (Fin d)) with true
      by (symmetry; apply Z.ltb_lt; exact Hlt).
    reflexivity.
  - assert (e = s) by (specialize (Hes ltac:(lia)); lia). subst e.
    assert (d = 0) as ->.
    { unfold net_income in Ed. rewrite Es, Ee in Ed. unfold fsub in Ed.
      simpl in Ed. replace (s + - s) with 0 in Ed by lia.
      rewrite round64_exact in Ed by (vm_compute; reflexivity).
      congruence. }
    assert (m = 0) as -> by lia.
    replace (fgt (Fin 0) (Fin 0)) with false by reflexivity.
    rewrite Ee, Es.
    change (Fin 0) with zero. rewrite fadd_zero_l by exact Re.
    now apply whole_salary_is_100.
Qed.

(** The recommendation is never below the share of the salary that the
    expenses take. *)
Lemma expense_share_le p t q r :
  valid_profile p -> 0 < t ->
  expense_share_percent p = Ok q ->
  calculate_recommendation p t = Ok r ->
  q <= r.
Proof.
  intros V Ht Q C.
  apply valid_profile_inv in V as (Ps & Pe & Pg & _ & _ & Re & _).
  destruct (of_int t) as [T|] eqn:ET;
    [|unfold calculate_recommendation in C; rewrite ET in C; discriminate].
  destruct (of_int_pos t T Ht ET) as (n & -> & Hn).
  pose proof one_units_pos.
  assert (monthly_savings_needed p t = Ok (fdiv_nz (goal_amount p) (Fin n)))
    as M
    by (unfold monthly_savings_needed; rewrite ET; cbn [bind];
        apply fdiv_pos; lia).
  destruct (fdiv_nz_mono (goal_amount p) (goal_amount p) n ltac:(lia)
              (fgt_zero_le _ Pg)) as [_ Hm0].
  { destruct (goal_amount p); try discriminate;
      [apply le_float_refl_fin | reflexivity]. }
  rewrite (calculate_recommendation_unfold p t _ M) in C.
  unfold expense_share_percent in Q.
  rewrite <- (fadd_zero_l (expenses p) Re) in Q.
  destruct (fgt (fdiv_nz (goal_amount p) (Fin n)) (net_income p)).
  - injection C as <-.
    destruct (fdiv _ _); [|discriminate]. cbn [bind] in Q.
    destruct (py_round _); [|discriminate].
    injection Q as <-. unfold np_clip. lia.
  - refine (feasible_branch_mono zero _ _ _ q r _ Hm0 Pe Ps Q C).
    apply le_float_refl_fin.
Qed.

(** On a finite profile whose expenses do not exceed a salary below
    [2^1023], the share is defined. *)
Lemma expense_share_defined p :
  finite_profile p -> fle (expenses p) (salary p) = true ->
  exists q, expense_share_percent p = Ok q.
Proof.
  intros F Hle.
  destruct (finite_profile_inv p F)
    as (s & e & g & Es & Ee & _ & Ps & Pe & _ & Rs & Re & _).
  rewrite Es, Ee in Hle. apply Z.leb_le in Hle.
  destruct (feasible_percent_finite s e 0 e) as (q & c & Eq & Ec & Hc);
    try assumption; try lia.
  { change (Fin 0) with zero. now apply (fadd_zero_l (Fin e)). }
  unfold expense_share_percent. rewrite Es, Ee, Eq. cbn [bind].
  rewrite Ec. cbn [py_round bind]. eauto.
Qed.

End SolverOrder.

Import SolverOrder.

Module RouteFacts.

Lemma of_int_raises t e : of_int t = Raise e -> e = OverflowError.
Proof.
  unfold of_int. destruct (round64 _ _); congruence.
Qed.

Lemma py_round_raises x e :
  py_round x = Raise e -> e = OverflowError \/ e = ValueError.
Proof. destruct x; simpl; intros [= <-]; auto. Qed.

(** On a valid profile the solver raises nothing but what the conversion of
    the months and [round] raise. *)
Lemma solver_raises p t e :
  valid_profile p -> 0 < t ->
  calculate_recommendation p t = Raise e ->
  e = OverflowError \/ e = ValueError.
Proof.
  intros V Ht. apply valid_profile_inv in V as (Ps & _).
  unfold calculate_recommendation.
  destruct (of_int t) as [T|e'] eqn:ET; cbn [bind];
    [|intros [= <-]; left; now apply of_int_raises in ET].
  destruct (of_int_pos t T Ht ET) as (n & -> & Hn).
  pose proof one_units_pos.
  rewrite fdiv_pos by lia. cbn [bind].
  destruct (fgt (fdiv_nz _ _) _); [intros [=]|].
  rewrite (fdiv_by_positive _ _ Ps). cbn [bind].
  destruct (py_round _) eqn:R; cbn [bind]; [intros [=]|].
  intros [= <-]. now apply py_round_raises in R.
Qed.

(** The predictor raises what the conversion, [round] or the model
    raise. *)
Lemma predictor_raises model p e :
  valid_profile p ->
  predict_time_to_goal model p = Raise e ->
  e = OverflowError \/ e = ValueError \/ exists row, model row = Raise e.
Proof.
  intros V. apply valid_profile_inv in V as (_ & _ & _ & Hy & _).
  unfold predict_time_to_goal, raw_prediction.
  destruct (of_int (duration_years p * 12)) as [T|e'] eqn:ET; cbn [bind];
    [|intros [= <-]; left; now apply of_int_raises in ET].
  destruct (of_int_pos (duration_years p * 12) T ltac:(lia) ET) as (n & -> & Hn).
  pose proof one_units_pos.
  rewrite fdiv_pos by lia. cbn [bind].
  destruct (model _) as [raw|e'] eqn:M; cbn [bind];
    [|intros [= <-]; eauto].
  destruct (py_round raw) eqn:R; cbn [bind]; [intros [=]|].
  intros [= <-]. apply py_round_raises in R. tauto.
Qed.

Lemma predict_route_inv model p resp o :
  predict_goal_achievement model p = Ok (resp, o) ->
  exists predicted recommended i,
    predict_time_to_goal model p = Ok predicted /\
    calculate_recommendation p (duration_years p * 12) = Ok recommended /\
    insight_generation p predicted (duration_years p * 12) recommended
    = Ok i /\
    resp = mkPredictionResponse (goal_type p) predicted recommended i /\
    o = p.
Proof.
  unfold predict_goal_achievement, rbind, reading.
  destruct (predict_time_to_goal model p) as [m|] eqn:P; [|discriminate].
  destruct (calculate_recommendation _ _) as [r|] eqn:C; [|discriminate].
  destruct (insight_generation _ _ _ _) as [i|] eqn:I; [|discriminate].
  rewrite make_response_ok;
    [| eapply predict_time_to_goal_min; eassumption
     | eapply calculate_recommendation_range; eassumption].
  intros [= <- <-]. eauto 8.
Qed.

Lemma recommend_route_returns model p predicted recommended :
  predict_time_to_goal model p = Ok predicted ->
  calculate_recommendation p (duration_years p * 12) = Ok recommended ->
  get_savings_recommendation model p
  = Ok (mkPredictionResponse (goal_type p) predicted recommended
          (recommendation_insight p recommended),
        mkFinancialInput (salary p) (expenses p) (goal_amount p)
          (goal_type p) (duration_years p) (Some (NInt recommended))).
Proof.
  intros P C.
  unfold get_savings_recommendation, rbind, reading, set_savings_percent.
  rewrite C.
  unfold predict_time_to_goal at 1.
  rewrite raw_prediction_ignores_savings_percent.
  fold (predict_time_to_goal model p). rewrite P. cbn [goal_type].
  rewrite make_response_ok;
    [reflexivity | eapply predict_time_to_goal_min; eassumption
    | eapply calculate_recommendation_range; eassumption].
Qed.

Lemma insight_generation_returns p predicted t recommended :
  valid_profile p ->
  calculate_recommendation p t = Ok recommended ->
  exists i, insight_generation p predicted t recommended = Ok i.
Proof.
  intros V C.
  destruct (insight_generation_branch p predicted t recommended V C)
    as (i & _ & _ & I & _). eauto.
Qed.

(** The gap of the narrative is positive exactly when the amount needed
    exceeds the net income. *)
Lemma gap_positive_iff_infeasible msn net :
  fgt (fsub msn net) zero = fgt msn net.
Proof.
  unfold fsub, fgt.
  destruct msn as [m| | |], net as [d| | |]; try reflexivity.
  cbn [fneg fadd flt]. unfold zero.
  destruct (Z.ltb_spec d m) as [Hlt | Hge].
  - pose proof (round64_mono 1 1 (m + - d) 1 ltac:(lia) ltac:(lia) ltac:(lia))
      as M.
    rewrite round64_exact in M by (vm_compute; reflexivity).
    destruct (round64 (m + - d) 1); try discriminate; [|reflexivity].
    apply le_float_fin in M. apply Z.ltb_lt. lia.
  - pose proof (round64_mono (m + - d) 1 0 1 ltac:(lia) ltac:(lia) ltac:(lia))
      as M.
    rewrite (round64_exact 0) in M by (vm_compute; reflexivity).
    destruct (round64 (m + - d) 1); try discriminate; [|reflexivity].
    apply le_float_fin in M. apply Z.ltb_ge. lia.
Qed.

(** The branch of the narrative against the branch of the solver. *)
Lemma insight_branch_vs_solver p predicted t recommended msn i :
  monthly_savings_needed p t = Ok msn ->
  calculate_recommendation p t = Ok recommended ->
  insight_generation p predicted t recommended = Ok i ->
  (branch_of i = Some BranchBehindWithGap <->
   t < predicted /\ fgt msn (net_income p) = true) /\
  (branch_of i = Some BranchFallback <->
   t < predicted /\ fgt msn (net_income p) = false) /\
  (branch_of i = Some BranchBehindWithGap -> recommended = 100).
Proof.
  intros M C I.
  assert (fgt msn (net_income p) = true -> recommended = 100) as H100.
  { intros G. rewrite (calculate_recommendation_unfold p t msn M), G in C.
    congruence. }
  unfold insight_generation in I.
  destruct (fdiv _ _); [|discriminate]. cbn [bind] in I.
  unfold monthly_savings_needed in M.
  destruct (of_int t) as [T|]; [|discriminate]. cbn [bind] in *.
  rewrite M in I. cbn [bind] in I.
  fold (net_income p) in I. rewrite gap_positive_iff_infeasible in I.
  destruct (Z.leb_spec predicted t) as [Hle | Hgt].
  - injection I as <-. cbn [branch_of].
    repeat split; try discriminate; intros [? _]; lia.
  - destruct (fgt msn (net_income p)) eqn:G; injection I as <-;
      cbn [branch_of]; repeat split; auto; try discriminate;
      intros [_ ?]; discriminate.
Qed.

End RouteFacts.

Module CorsFacts.
Import Cors.

Lemma lstrip_head s :
  match lstrip s with
  | [] => True
  | c :: _ => is_space c = false
  end.
Proof.
  induction s as [|c r IH]; simpl; [exact I|].
  destruct (is_space c) eqn:E; [exact IH | exact E].
Qed.

Lemma lstrip_fixed c r : is_space c = false -> lstrip (c :: r) = c :: r.
Proof. intros E. simpl. now rewrite E. Qed.

Lemma lstrip_idem s : lstrip (lstrip s) = lstrip s.
Proof.
  pose proof (lstrip_head s) as H.
  destruct (lstrip s) as [|c r]; [reflexivity | now apply lstrip_fixed].
Qed.

Lemma lstrip_incl s c : In c (lstrip s) -> In c s.
Proof.
  induction s as [|a r IH]; simpl; [tauto|].
  destruct (is_space a); simpl; tauto.
Qed.

Lemma lstrip_snoc u c :
  lstrip (u ++ [c]) =
    match lstrip u with
    | [] => if is_space c then [] else [c]
    | l => l ++ [c]
    end.
Proof.
  induction u as [|a u IH]; simpl; [reflexivity|].
  destruct (is_space a); [exact IH | reflexivity].
Qed.

(** [rstrip], from the front. *)
Lemma rstrip_cons c r :
  rstrip (c :: r) =
    match rstrip r with
    | [] => if is_space c then [] else [c]
    | _ => c :: rstrip r
    end.
Proof.
  unfold rstrip. simpl rev. rewrite lstrip_snoc.
  destruct (lstrip (rev r)) as [|a l] eqn:E; simpl rev.
  - destruct (is_space c); reflexivity.
  - rewrite rev_app_distr. simpl.
    destruct (rev l ++ [a]) eqn:E'; [|reflexivity].
    now destruct (rev l).
Qed.

Lemma rstrip_incl s c : In c (rstrip s) -> In c s.
Proof.
  unfold rstrip. rewrite <- in_rev. intros H%lstrip_incl.
  now apply in_rev.
Qed.

Lemma rstrip_idem s : rstrip (rstrip s) = rstrip s.
Proof.
  unfold rstrip. now rewrite rev_involutive, lstrip_idem.
Qed.

(** Stripping the right end keeps a stripped left end. *)
Lemma lstrip_rstrip s : lstrip s = s -> lstrip (rstrip s) = rstrip s.
Proof.
  destruct s as [|c r]; [reflexivity|].
  intros H. pose proof (lstrip_head (c :: r)) as Hc. rewrite H in Hc.
  rewrite rstrip_cons.
  destruct (rstrip r); [|now apply lstrip_fixed].
  rewrite Hc. now apply lstrip_fixed.
Qed.

Lemma strip_lstrip s : lstrip (strip s) = strip s.
Proof. apply lstrip_rstrip, lstrip_idem. Qed.

Lemma strip_rstrip s : rstrip (strip s) = strip s.
Proof. apply rstrip_idem. Qed.

Lemma strip_idem s : strip (strip s) = strip s.
Proof. unfold strip at 1. now rewrite strip_lstrip, strip_rstrip. Qed.

Lemma strip_incl s c : In c (strip s) -> In c s.
Proof. intros H%rstrip_incl. now apply lstrip_incl. Qed.

Lemma lstrip_nil_iff s : lstrip s = [] <-> forallb is_space s = true.
Proof.
  induction s as [|c r IH]; simpl; [tauto|].
  destruct (is_space c); simpl; [exact IH|].
  split; discriminate.
Qed.

Lemma strip_nil_iff s : strip s = [] <-> forallb is_space s = true.
Proof.
  rewrite <- lstrip_nil_iff. unfold strip, rstrip. split.
  - intros H. apply (f_equal (@rev N)) in H.
    rewrite rev_involutive in H. simpl in H.
    pose proof (lstrip_head (rev (lstrip s))) as Hh.
    pose proof (lstrip_head s) as Hs.
    destruct (lstrip s) as [|c r] eqn:E; [reflexivity|].
    exfalso. apply lstrip_nil_iff in H.
    rewrite forallb_forall in H.
    specialize (H c ltac:(apply in_rev; rewrite rev_involutive; now left)).
    congruence.
  - now intros ->.
Qed.

Lemma split_nonempty sep s : split sep s <> [].
Proof.
  destruct s as [|c r]; simpl; [discriminate|].
  destruct (c =? sep)%N; [discriminate|].
  destruct (split sep r); discriminate.
Qed.

(** No piece of a split holds the separator. *)
Lemma split_no_sep sep s piece :
  In piece (split sep s) -> ~ In sep piece.
Proof.
  revert piece. induction s as [|c r IH]; simpl; intros piece.
  - intros [<- | []]. tauto.
  - destruct (N.eqb_spec c sep) as [-> | Hne].
    + intros [<- | H]; [tauto | now apply IH].
    + destruct (split sep r) as [|p ps] eqn:E.
      * intros [<- | []]. simpl. tauto.
      * intros [<- | H].
        -- simpl. intros [? | H']; [congruence|].
           apply (IH p); [now left | exact H'].
        -- apply IH. now right.
Qed.

Lemma split_no_sep_one sep x : ~ In sep x -> split sep x = [x].
Proof.
  induction x as [|c r IH]; simpl; [reflexivity|].
  intros H. destruct (N.eqb_spec c sep) as [-> | Hne]; [tauto|].
  rewrite IH by tauto. reflexivity.
Qed.

Lemma split_app sep x rest :
  ~ In sep x -> split sep (x ++ sep :: rest) = x :: split sep rest.
Proof.
  induction x as [|c r IH]; simpl.
  - intros _. now rewrite N.eqb_refl.
  - intros H. destruct (N.eqb_spec c sep) as [-> | Hne]; [tauto|].
    rewrite IH by tauto. reflexivity.
Qed.

(** Splitting what was joined gives the pieces back. *)
Lemma split_join sep x r :
  (forall o, In o (x :: r) -> ~ In sep o) ->
  split sep (join sep (x :: r)) = x :: r.
Proof.
  revert x. induction r as [|y r IH]; intros x H; simpl.
  - rewrite app_nil_r. apply split_no_sep_one, H. now left.
  - rewrite split_app by (apply H; now left).
    f_equal. apply (IH y). intros o Ho. apply H. now right.
Qed.

(** The pieces are blank exactly when the string holds nothing but
    separators and spaces. *)
Lemma split_all_blank sep s :
  Forall (fun piece => forallb is_space piece = true) (split sep s) <->
  Forall (fun c => c = sep \/ is_space c = true) s.
Proof.
  induction s as [|c r IH]; simpl.
  - split; constructor; auto.
  - destruct (N.eqb_spec c sep) as [-> | Hne].
    + rewrite !Forall_cons_iff, IH. simpl. tauto.
    + pose proof (split_nonempty sep r) as Hn.
      destruct (split sep r) as [|p ps]; [congruence|].
      rewrite !Forall_cons_iff in *. simpl.
      rewrite andb_true_iff, <- IH. intuition congruence.
Qed.

Lemma origin_kept env o :
  In o (origins env) <->
  exists piece,
    In piece (split comma (getenv env DEFAULT_CORS_ORIGINS)) /\
    strip piece <> [] /\ o = strip piece.
Proof.
  unfold origins. rewrite in_map_iff. split.
  - intros (piece & <- & [H T]%filter_In). exists piece.
    repeat split; auto. destruct (strip piece); [discriminate|discriminate].
  - intros (piece & H & T & ->). exists piece. split; [reflexivity|].
    apply filter_In. split; [exact H|]. now destruct (strip piece).
Qed.

Lemma keep_stripped xs :
  (forall o, In o xs -> strip o = o /\ o <> []) ->
  map strip (filter (fun origin => truthy (strip origin)) xs) = xs.
Proof.
  induction xs as [|o xs IH]; intros H; [reflexivity|].
  destruct (H o ltac:(now left)) as (S & Ne).
  cbn [filter]. rewrite S. destruct o as [|c o]; [congruence|].
  cbn [truthy map]. rewrite S. f_equal.
  apply IH. intros; apply H; now right.
Qed.

(** A list of stripped, non-empty, comma-free strings comes back from a
    join on commas. *)
Lemma origins_of_join xs :
  (forall o, In o xs -> strip o = o /\ o <> [] /\ ~ In comma o) ->
  origins (Some (join comma xs)) = xs.
Proof.
  unfold origins, getenv. destruct xs as [|x r]; [reflexivity|].
  intros H. rewrite split_join by (intros o Ho; now apply H).
  apply keep_stripped. intros o Ho. destruct (H o Ho) as (? & ? & _).
  now split.
Qed.

Lemma origin_clean env o :
  In o (origins env) -> strip o = o /\ o <> [] /\ ~ In comma o.
Proof.
  intros (piece & H & T & ->)%origin_kept.
  split; [apply strip_idem|]. split; [exact T|].
  intros C%strip_incl. now apply (split_no_sep comma _ piece H).
Qed.

(** No origin is kept exactly when the setting holds commas and white
    space only. *)
Lemma origins_nil_iff s :
  origins (Some s) = [] <->
  Forall (fun c => c = comma \/ is_space c = true) s.
Proof.
  rewrite <- split_all_blank. unfold origins, getenv. split.
  - intros H. apply Forall_forall. intros piece Hin.
    apply strip_nil_iff.
    destruct (strip piece) as [|c r] eqn:E; [reflexivity|].
    assert (In (strip piece)
              (map strip
                 (filter (fun origin => truthy (strip origin))
                    (split comma s)))) as C.
    { apply in_map, filter_In. split; [exact Hin | now rewrite E]. }
    rewrite H in C. destruct C.
  - intros H. rewrite Forall_forall in H.
    destruct (map strip _) as [|o os] eqn:E; [reflexivity|].
    assert (In o (map strip
                    (filter (fun origin => truthy (strip origin))
                       (split comma s)))) as C by (rewrite E; now left).
    apply in_map_iff in C as (piece & <- & [Hin T]%filter_In).
    apply H, strip_nil_iff in Hin. rewrite Hin in T. discriminate.
Qed.

End CorsFacts.

Module TrainingEffects.
Import Frames.

Lemma get_column_raises df k e : get_column df k = Raise e -> e = KeyError.
Proof.
  induction df as [|[k' c] df IH]; simpl; [congruence|].
  destruct (String.eqb k' k); [discriminate | exact IH].
Qed.

(** Assigning a column its own value changes nothing. *)
Lemma set_column_same df k c :
  get_column df k = Ok c -> set_column df k c = df.
Proof.
  induction df as [|[k' c'] df IH]; simpl; [discriminate|].
  destruct (String.eqb k' k); [congruence|].
  intros H. now rewrite IH.
Qed.

Section WithEstimator.

Variable Model : Type.
Variable train_test_split :
  DataFrame -> column ->
  result (DataFrame * DataFrame * column * column).
Variable fit : DataFrame -> column -> result Model.
Variable predict : Model -> DataFrame -> result column.
Variable mean_absolute_error : column -> column -> result float.

Local Abbreviation derive := (derive_features Model).
Local Abbreviation fit_save :=
  (fit_evaluate_save Model train_test_split fit predict
     mean_absolute_error).
Local Abbreviation train :=
  (train_and_save_model Model train_test_split fit predict
     mean_absolute_error).

(** What a derivation that returns has read and written. *)
Lemma derive_ok_inv (w w' : world Model) X y :
  derive w = (Ok (X, y), w') ->
  exists sal exp goal dur ni rate,
    get_column (frame _ w) "salary" = Ok sal /\
    get_column (frame _ w) "expenses" = Ok exp /\
    get_column (frame _ w) "goal_amount" = Ok goal /\
    get_column (frame _ w) "duration_years" = Ok dur /\
    get_column (frame _ w) "time_months" = Ok y /\
    series_sub sal exp = Ok ni /\
    series_div goal (series_times_12 dur) = Ok rate /\
    X = [("net_income", ni); ("required_savings_rate", rate);
         ("salary", sal); ("expenses", exp)]%string /\
    w' = mkWorld _
           (set_column (set_column (frame _ w) "net_income" ni)
              "required_savings_rate" rate)
           (artifact _ w) (history _ w).
Proof.
  unfold derive_features, io_bind, read_frame, lift, assign_column.
  destruct (get_column (frame _ w) "salary") as [sal|] eqn:Gs;
    [|discriminate].
  destruct (get_column (frame _ w) "expenses") as [exp|] eqn:Ge;
    [|discriminate].
  destruct (series_sub sal exp) as [ni|] eqn:Cs; [|discriminate].
  cbn [frame artifact history].
  rewrite !get_set_other by reflexivity.
  destruct (get_column (frame _ w) "goal_amount") as [goal|] eqn:Gg;
    [|discriminate].
  destruct (get_column (frame _ w) "duration_years") as [dur|] eqn:Gd;
    [|discriminate].
  destruct (series_div goal _) as [rate|] eqn:Cd; [|discriminate].
  cbn [frame artifact history select_columns feature_names bind].
  rewrite get_set_same.
  rewrite (get_set_other _ "required_savings_rate" _ "net_income")
    by reflexivity.
  rewrite get_set_same.
  rewrite !get_set_other, Gs, Ge by reflexivity.
  cbn [bind].
  destruct (get_column (frame _ w) "time_months") as [y'|] eqn:Gy;
    [|discriminate].
  unfold io_ret. intros [= <- <- <-].
  exists sal, exp, goal, dur, ni, rate. repeat split; assumption.
Qed.

(** What a derivation that raises has done. *)
Lemma derive_raise_inv (w w' : world Model) e :
  derive w = (Raise e, w') ->
  (e = KeyError \/ arithmetic_error e) /\
  artifact _ w' = artifact _ w /\ history _ w' = history _ w /\
  forall k, k <> "net_income"%string ->
            k <> "required_savings_rate"%string ->
            get_column (frame _ w') k = get_column (frame _ w) k.
Proof.
  unfold derive_features, io_bind, read_frame, lift, assign_column.
  destruct (get_column (frame _ w) "salary") as [sal|] eqn:Gs.
  2: { intros [= <- <-]. apply get_column_raises in Gs. repeat split; auto. }
  destruct (get_column (frame _ w) "expenses") as [exp|] eqn:Ge.
  2: { intros [= <- <-]. apply get_column_raises in Ge. repeat split; auto. }
  destruct (series_sub sal exp) as [ni|] eqn:Cs.
  2: { intros [= <- <-]. apply series_sub_error in Cs.
       repeat split; auto. }
  cbn [frame artifact history].
  rewrite !get_set_other by reflexivity.
  assert (forall k, k <> "net_income"%string ->
            get_column (set_column (frame _ w) "net_income" ni) k
            = get_column (frame _ w) k) as Keep.
  { intros k Hk. apply get_set_other. apply String.eqb_neq. congruence. }
  destruct (get_column (frame _ w) "goal_amount") as [goal|] eqn:Gg.
  2: { intros [= <- <-]. apply get_column_raises in Gg. repeat split; auto. }
  destruct (get_column (frame _ w) "duration_years") as [dur|] eqn:Gd.
  2: { intros [= <- <-]. apply get_column_raises in Gd. repeat split; auto. }
  destruct (series_div goal _) as [rate|] eqn:Cd.
  2: { intros [= <- <-]. apply series_div_error in Cd.
       repeat split; auto. }
  cbn [frame artifact history select_columns feature_names bind].
  rewrite get_set_same.
  rewrite (get_set_other _ "required_savings_rate" _ "net_income")
    by reflexivity.
  rewrite get_set_same.
  rewrite !get_set_other, Gs, Ge by reflexivity.
  cbn [bind].
  destruct (get_column (frame _ w) "time_months") as [y'|] eqn:Gy;
    [discriminate|].
  intros [= <- <-]. apply get_column_raises in Gy.
  cbn [frame artifact history]. repeat split; auto.
  intros k Hk Hr. rewrite get_set_other; [now apply Keep|].
  apply String.eqb_neq. congruence.
Qed.

(** The estimator phase leaves the frame alone. *)
Lemma fit_save_frame X y (w : world Model) :
  frame _ (snd (fit_save X y w)) = frame _ w.
Proof.
  unfold fit_evaluate_save, io_bind, lift, log, joblib_dump, io_ret.
  destruct (train_test_split X y) as [[[[Xtr Xte] ytr] yte]|e];
    [|reflexivity].
  cbn [frame artifact history].
  destruct (fit Xtr ytr) as [m|e]; cbn [frame artifact history];
    [|reflexivity].
  destruct (predict m Xte) as [yp|e]; cbn [frame artifact history];
    [|reflexivity].
  destruct (mean_absolute_error yte yp) as [mae|e];
    cbn [frame artifact history]; reflexivity.
Qed.

(** Training changes two columns of the caller's frame at most. *)
Lemma train_frame (w : world Model) k :
  k <> "net_income"%string -> k <> "required_savings_rate"%string ->
  get_column (frame _ (snd (train w))) k = get_column (frame _ w) k.
Proof.
  intros Hn Hr. rewrite train_unfold.
  destruct (derive w) as [[[X y]|e] w'] eqn:D.
  - rewrite fit_save_frame.
    apply derive_ok_inv in D
      as (sal & exp & goal & dur & ni & rate & _ & _ & _ & _ & _ & _ & _
          & _ & ->).
    cbn [frame].
    rewrite !get_set_other; [reflexivity | |];
      apply String.eqb_neq; congruence.
  - apply derive_raise_inv in D as (_ & _ & _ & Keep).
    cbn [snd]. now apply Keep.
Qed.

(** Training whose derivation returned leaves both derived columns in
    the frame. *)
Lemma train_frame_derived (w w' : world Model) X y :
  derive w = (Ok (X, y), w') ->
  select_columns (frame _ (snd (train w))) feature_names = Ok X.
Proof.
  intros D. rewrite train_unfold, D, fit_save_frame.
  apply derive_ok_inv in D
    as (sal & exp & goal & dur & ni & rate & Gs & Ge & _ & _ & _ & _ & _
        & -> & ->).
  cbn [frame select_columns feature_names].
  rewrite get_set_same.
  rewrite (get_set_other _ "required_savings_rate" _ "net_income")
    by reflexivity.
  rewrite get_set_same.
  rewrite !get_set_other, Gs, Ge by reflexivity.
  reflexivity.
Qed.

(** A derivation run again on the frame it extended returns the same
    features and target and changes nothing. *)
Lemma derive_again (w w' : world Model) X y :
  derive w = (Ok (X, y), w') -> derive w' = (Ok (X, y), w').
Proof.
  intros D.
  apply derive_ok_inv in D
    as (sal & exp & goal & dur & ni & rate & Gs & Ge & Gg & Gd & Gy & Cs
        & Cd & -> & ->).
  unfold derive_features, io_bind, read_frame, lift, assign_column.
  cbn [frame artifact history].
  rewrite !get_set_other, Gs, Ge, Cs by reflexivity.
  cbn [frame artifact history].
  rewrite (set_column_same _ "net_income" ni).
  2: { rewrite get_set_other by reflexivity. apply get_set_same. }
  rewrite !get_set_other, Gg, Gd, Cd by reflexivity.
  cbn [frame artifact history].
  rewrite (set_column_same _ "required_savings_rate" rate)
    by apply get_set_same.
  cbn [select_columns feature_names bind].
  rewrite get_set_same.
  rewrite (get_set_other _ "required_savings_rate" _ "net_income")
    by reflexivity.
  rewrite get_set_same.
  rewrite !get_set_other, Gs, Ge, Gy by reflexivity.
  reflexivity.
Qed.

(** Without one of the columns it reads, training raises before the
    estimator is reached. *)
Lemma train_missing_column (w : world Model) k :
  In k required_columns ->
  get_column (frame _ w) k = Raise KeyError ->
  exists e w',
    train w = (Raise e, w') /\ (e = KeyError \/ arithmetic_error e) /\
    artifact _ w' = artifact _ w /\ history _ w' = history _ w.
Proof.
  intros Hk Hget. rewrite train_unfold.
  destruct (derive w) as [[[X y]|e] w'] eqn:D.
  - exfalso.
    apply derive_ok_inv in D
      as (sal & exp & goal & dur & ni & rate & Gs & Ge & Gg & Gd & Gy & _).
    simpl in Hk.
    destruct Hk as [<- | [<- | [<- | [<- | [<- | []]]]]]; congruence.
  - apply derive_raise_inv in D as (He & Ha & Hh & _).
    exists e, w'. auto.
Qed.

End WithEstimator.

End TrainingEffects.

Module SyntheticFacts.
Import Synthetic.

(** *** Integers in binary64 *)

Lemma representable_int s :
  0 < s < 2 ^ 53 -> representable (s * one_units) = true.
Proof.
  intros [Hlo Hhi]. pose proof one_units_pos as U.
  unfold representable. apply andb_true_iff. split.
  - apply Z.eqb_eq. unfold ulp_exp.
    rewrite Z.abs_eq, Z.div_1_r by nia.
    unfold one_units. rewrite Z.log2_mul_pow2 by lia.
    assert (0 <= Z.log2 s) by apply Z.log2_nonneg.
    assert (Z.log2 s < 53) by (apply Z.log2_lt_pow2; lia).
    rewrite Z.max_r by lia.
    replace (2 ^ 1074) with (2 ^ (52 - Z.log2 s) * 2 ^ (1074 + Z.log2 s - 52)).
    + rewrite Z.mul_assoc. apply Z.mod_mul.
      apply Z.pow_nonzero; lia.
    + rewrite <- Z.pow_add_r by lia. f_equal. lia.
  - apply Z.ltb_lt. rewrite Z.abs_eq by nia.
    unfold overflow_units, one_units in *.
    replace 2098 with (1024 + 1074) by reflexivity.
    rewrite Z.pow_add_r by lia.
    apply Z.mul_lt_mono_pos_r; [exact U|].
    assert (2 ^ 53 < 2 ^ 1024) by (apply Z.pow_lt_mono_r; lia). lia.
Qed.

Lemma one_units_large : 1024 <= one_units.
Proof.
  change 1024 with (2 ^ 10). apply Z.pow_le_mono_r; lia.
Qed.

(** Integers below [2^53] in magnitude convert exactly. *)
Lemma np_float_exact s :
  - 2 ^ 53 < s < 2 ^ 53 -> np_float s = Fin (s * one_units).
Proof.
  intros H. unfold np_float.
  destruct (Z.lt_trichotomy s 0) as [Hn | [-> | Hp]].
  - apply round64_exact.
    replace (s * one_units) with (- (- s * one_units)) by lia.
    apply representable_opp, representable_int. lia.
  - unfold round64. rewrite round_units_zero by lia. reflexivity.
  - apply round64_exact, representable_int. lia.
Qed.

(** *** The kernels *)

Lemma fmul_not_nan a y : a <> 0 -> y <> NaN -> fmul (Fin a) y <> NaN.
Proof.
  intros Ha Hy. destruct y; simpl; try congruence.
  - apply round64_not_nan.
  - destruct (Z.eqb_spec a 0); [congruence|]. destruct (0 <? a); discriminate.
  - destruct (Z.eqb_spec a 0); [congruence|]. destruct (0 <? a); discriminate.
Qed.

Lemma np_divide_not_nan a y : a <> 0 -> y <> NaN -> np_divide (Fin a) y <> NaN.
Proof.
  intros Ha Hy. destruct y as [b| | |]; simpl; try congruence.
  destruct b as [|b|b]; simpl; try apply round64_not_nan.
  destruct (Z.eqb_spec a 0); [congruence|]. destruct (0 <? a); discriminate.
Qed.

Lemma np_ceil_not_nan x : x <> NaN -> np_ceil x <> NaN.
Proof. destruct x; simpl; congruence. Qed.

Lemma fadd_fin_not_nan x b : x <> NaN -> fadd x (Fin b) <> NaN.
Proof.
  destruct x; simpl; try congruence. intros _. apply round64_not_nan.
Qed.

(** Clipping a number to [1, 120] and truncating it gives a month
    count. *)
Lemma clip_month_count x :
  x <> NaN ->
  1 <= astype_int (np_clip_float x (Fin one_units) (Fin (120 * one_units)))
    <= 120.
Proof.
  intros Hx. pose proof one_units_pos as U.
  assert (forall c, one_units <= c <= 120 * one_units ->
                    1 <= astype_int (Fin c) <= 120) as Hc.
  { intros c Hc. unfold astype_int, wrap_int64.
    assert (1 <= Z.quot c one_units <= 120) as Hq.
    { rewrite Z.quot_div_nonneg by lia. split.
      - apply Z.div_le_lower_bound; lia.
      - apply Z.div_le_upper_bound; lia. }
    rewrite Z.mod_small; [lia|].
    change (2 ^ 63) with 9223372036854775808.
    change (2 ^ 64) with 18446744073709551616. lia. }
  destruct x as [n| | |]; [| | |congruence].
  - unfold np_clip_float, flt.
    destruct (Z.ltb_spec n one_units).
    + destruct (Z.ltb_spec (120 * one_units) one_units); apply Hc; lia.
    + destruct (Z.ltb_spec (120 * one_units) n); apply Hc; lia.
  - cbn [np_clip_float flt]. apply Hc. lia.
  - cbn [np_clip_float flt].
    destruct (Z.ltb_spec (120 * one_units) one_units); apply Hc; lia.
Qed.

Lemma le_float_not_nan_r x y : le_float x y -> y <> NaN.
Proof. unfold le_float. destruct x, y; simpl; congruence. Qed.

Lemma le_float_not_nan_l x y : le_float x y -> x <> NaN.
Proof. unfold le_float. destruct x, y; simpl; congruence. Qed.

(** A fraction of a salary: positive and within the salary. *)
Lemma share_of_salary s u :
  0 < s < 2 ^ 53 ->
  le_float (of_ratio 3 10) u -> le_float u (of_ratio 8 10) ->
  exists e, fmul (np_float s) u = Fin e /\ 0 < e <= s * one_units.
Proof.
  intros Hs Hlo Hhi. pose proof one_units_large as U.
  assert (le_float (Fin 1) u) as L.
  { apply le_float_trans with (2 := Hlo).
    rewrite <- (round64_exact 1) by (vm_compute; reflexivity).
    apply round64_mono; lia. }
  assert (le_float u (Fin one_units)) as R.
  { apply le_float_trans with (1 := Hhi).
    assert (Fin one_units = round64 (1 * one_units) 1) as ->.
    { rewrite round64_exact by (apply representable_int; lia).
      now rewrite Z.mul_1_l. }
    apply round64_mono; lia. }
  destruct (fin_between _ _ _ L R) as (b & -> & Hb).
  rewrite np_float_exact by lia. cbn [fmul].
  assert (one_units <= s * one_units) as Hsu by nia.
  assert (s * one_units * 1 <= s * one_units * b) as Hlow
    by (apply Z.mul_le_mono_nonneg_l; lia).
  assert (s * one_units * b <= s * one_units * one_units) as Hupp
    by (apply Z.mul_le_mono_nonneg_l; lia).
  destruct (fin_between 1 (s * one_units)
              (round64 (s * one_units * b) one_units)) as (e & -> & He).
  - rewrite <- (round64_exact 1) by (vm_compute; reflexivity).
    apply round64_mono; lia.
  - rewrite <- (round64_exact (s * one_units))
      by (apply representable_int; lia).
    apply round64_mono; lia.
  - exists e. split; [reflexivity | lia].
Qed.

(** *** Lists *)

Lemma zip_with_length {A B C} (f : A -> B -> C) xs ys :
  List.length xs = List.length ys ->
  List.length (zip_with f xs ys) = List.length xs.
Proof.
  revert ys. induction xs as [|x xs IH]; intros [|y ys]; simpl;
    try discriminate; auto.
Qed.

Lemma zip_with_in {A B C} (f : A -> B -> C) xs ys c :
  In c (zip_with f xs ys) ->
  exists a b, In a xs /\ In b ys /\ c = f a b.
Proof.
  revert ys. induction xs as [|x xs IH]; intros [|y ys]; simpl;
    try tauto.
  intros [<- | H]; [exists x, y; auto|].
  destruct (IH ys H) as (a & b & ? & ? & ?). exists a, b; auto.
Qed.

Lemma zip_with_forall2 {A B} (R : cell -> cell -> Prop)
    (ca : A -> cell) (cf : float -> cell) (f : A -> B -> float) xs ys :
  List.length xs = List.length ys ->
  (forall a b, In a xs -> In b ys -> R (ca a) (cf (f a b))) ->
  Forall2 R (map ca xs) (map cf (zip_with f xs ys)).
Proof.
  revert ys. induction xs as [|x xs IH]; intros [|y ys]; simpl;
    try discriminate; [constructor|].
  intros Hl H. constructor; [apply H; now left|].
  apply IH; [congruence|]. intros; apply H; now right.
Qed.

Lemma existsb_none {A} (f : A -> bool) xs :
  (forall x, In x xs -> f x = false) -> existsb f xs = false.
Proof.
  intros H. destruct (existsb f xs) eqn:E; [|reflexivity].
  apply existsb_exists in E as (x & Hin & Hx).
  rewrite (H x Hin) in Hx. discriminate.
Qed.

End SyntheticFacts.

Module GeneratedData.
Import Frames Synthetic SyntheticFacts TrainingEffects.

Lemma small_is_exact s : - 5000000 <= s <= 5000000 -> - 2 ^ 53 < s < 2 ^ 53.
Proof.
  intros H. assert (5000000 < 2 ^ 53) by (vm_compute; reflexivity). lia.
Qed.

Lemma is_missing_float x : x <> NaN -> is_missing (CFloat x) = false.
Proof. destruct x; simpl; congruence. Qed.

Section OnTheArrays.

Variable n : nat.
Variable salary : list Z.
Variables fraction savings_percent : list float.
Variables goal_amount duration_years : list Z.
Variable goal_type : list string.
Variable noise : list Z.

Hypothesis arrays :
  drawn n salary fraction savings_percent goal_amount duration_years
    goal_type noise.

Local Abbreviation the_frame :=
  (synthetic_frame salary fraction savings_percent goal_amount
     duration_years goal_type noise).

Lemma frame_shape :
  map fst the_frame = column_names /\
  Forall (fun kc => List.length (snd kc) = n) the_frame.
Proof.
  destruct arrays as ((Ls & Lf & Lp & Lg & Ld & Lt & Ln) & _).
  split; [reflexivity|].
  assert (forall A B C (f : A -> B -> C) xs ys,
            List.length xs = n -> List.length ys = n ->
            List.length (zip_with f xs ys) = n) as Hz.
  { intros. rewrite zip_with_length; congruence. }
  unfold synthetic_frame.
  repeat (apply Forall_cons || apply Forall_nil); cbn [snd];
    repeat (rewrite length_map || apply Hz); assumption.
Qed.

Lemma expenses_finite e :
  In e (zip_with (fun s u => fmul (np_float s) u) salary fraction) ->
  exists E, e = Fin E /\ 0 < E.
Proof.
  destruct arrays as (_ & Rs & Rf & _).
  intros (s & u & Hs & Hu & ->)%zip_with_in.
  destruct (Rf u Hu) as [Hlo Hhi]. specialize (Rs s Hs).
  destruct (share_of_salary s u) as (E & -> & HE); auto.
  - pose proof (small_is_exact s). lia.
  - exists E. split; [reflexivity | lia].
Qed.

Lemma frame_within_salary :
  Forall2 within_salary (map CInt salary)
    (map CFloat (zip_with (fun s u => fmul (np_float s) u) salary fraction)).
Proof.
  destruct arrays as ((Ls & Lf & _) & Rs & Rf & _).
  apply zip_with_forall2; [now rewrite Ls, Lf|].
  intros s u Hs Hu. destruct (Rf u Hu) as [Hlo Hhi]. specialize (Rs s Hs).
  destruct (share_of_salary s u) as (E & -> & HE); auto.
  - pose proof (small_is_exact s). lia.
  - exists s, E. auto.
Qed.

Lemma frame_months y :
  get_column the_frame "time_months" = Ok y -> Forall is_month_count y.
Proof.
  destruct arrays as (_ & Rs & _ & Rp & Rg & _ & Rn).
  intros [= <-]. apply Forall_forall. intros c.
  intros (t & <- & (t1 & <- & Ht1)%in_map_iff)%in_map_iff.
  apply zip_with_in in Ht1 as (t2 & z & Ht2 & Hz & ->).
  apply in_map_iff in Ht2 as (t3 & <- & Ht3).
  apply zip_with_in in Ht3 as (g & m & Hg & Hm & ->).
  apply zip_with_in in Hm as (s & r & Hs & Hr & ->).
  specialize (Rs s Hs). specialize (Rg g Hg). specialize (Rn z Hz).
  destruct (Rp r Hr) as [Hr1 _]. apply le_float_not_nan_r in Hr1.
  pose proof one_units_pos as U.
  pose proof (small_is_exact s). pose proof (small_is_exact g).
  pose proof (small_is_exact z).
  rewrite (np_float_exact s), (np_float_exact g), (np_float_exact z)
    by lia.
  eexists. split; [reflexivity|].
  apply clip_month_count, fadd_fin_not_nan, np_ceil_not_nan.
  apply np_divide_not_nan; [nia|].
  apply fmul_not_nan; [nia | exact Hr1].
Qed.

Lemma clean_column c :
  (forall z, In z c -> is_clean z = true) ->
  has_missing c || has_non_numeric c = false.
Proof.
  intros H. apply orb_false_iff. split; apply existsb_none; intros z Hz;
    apply H in Hz; unfold is_clean in Hz;
    apply andb_true_iff in Hz as [Hm Hn];
    [now apply negb_true_iff in Hm | now apply negb_true_iff in Hn].
Qed.

Lemma no_text_no_meeting xs ys :
  has_non_numeric xs || has_non_numeric ys = false ->
  text_meets_value xs ys = false.
Proof.
  intros H. destruct (text_meets_value xs ys) eqn:E; [|reflexivity].
  apply meets_has_text in E. congruence.
Qed.

(** The cells of a difference and of a quotient of numeric columns. *)
Lemma series_sub_numeric_cells xs ys ni :
  has_non_numeric xs || has_non_numeric ys = false ->
  List.length xs = List.length ys ->
  series_sub xs ys = Ok ni ->
  List.length ni = List.length xs /\
  forall z, In z ni ->
    exists a b, In a xs /\ In b ys /\
                (z = int64_sub a b \/ z = float64_sub a b).
Proof.
  intros H Hl. unfold series_sub, dtype_of.
  destruct (has_non_numeric xs), (has_non_numeric ys); try discriminate.
  destruct (existsb is_float xs), (existsb is_float ys); intros [= <-];
    (split; [now apply zip_with_length|]);
    intros z (a & b & Ha & Hb & ->)%zip_with_in; exists a, b; auto.
Qed.

Lemma series_div_numeric_cells xs ys rate :
  has_non_numeric xs || has_non_numeric ys = false ->
  List.length xs = List.length ys ->
  series_div xs ys = Ok rate ->
  List.length rate = List.length xs /\
  forall z, In z rate ->
    exists a b, In a xs /\ In b ys /\ z = float64_div a b.
Proof.
  intros H Hl. unfold series_div, dtype_of.
  destruct (has_non_numeric xs), (has_non_numeric ys); try discriminate.
  destruct (existsb is_float xs), (existsb is_float ys); intros [= <-];
    (split; [now apply zip_with_length|]);
    intros z (a & b & Ha & Hb & ->)%zip_with_in; exists a, b; auto.
Qed.

Section Derivation.

Variable Model : Type.
Variable w : world Model.
Hypothesis frame_generated : frame _ w = the_frame.

(** The derivation on a generated frame returns complete numeric
    features and a target of month counts. *)
Lemma derive_on_arrays :
  exists X y w',
    derive_features Model w = (Ok (X, y), w') /\
    frame_has_invalid X = false /\
    Forall (fun kc => List.length (snd kc) = n) X /\
    Forall is_month_count y.
Proof.
  pose proof arrays as ((Ls & Lf & Lp & Lg & Ld & Lt & Ln) & Rs & Rf & Rp
                        & Rg & Rd & Rn).
  assert (forall (xs : list Z), has_non_numeric (map CInt xs) = false)
    as Hint.
  { intros xs. apply existsb_none. now intros c (s & <- & _)%in_map_iff. }
  assert (forall (xs : list float), has_non_numeric (map CFloat xs) = false)
    as Hfloat.
  { intros xs. apply existsb_none. now intros c (s & <- & _)%in_map_iff. }
  assert (forall (xs : list Z),
            (forall x, In x xs -> - 5000000 <= x <= 5000000) ->
            int64_column (map CInt xs) = true) as Hfit.
  { intros xs Hx. apply forallb_forall. intros c (x & <- & Hin)%in_map_iff.
    apply fits_int64_spec. specialize (Hx x Hin).
    pose proof (small_is_exact x Hx).
    assert (2 ^ 53 < 2 ^ 63) by (apply Z.pow_lt_mono_r; lia). lia. }
  assert (forall (xs : list float), int64_column (map CFloat xs) = true)
    as Hfitf.
  { intros xs. apply forallb_forall. now intros c (x & <- & _)%in_map_iff. }
  destruct (get_column the_frame "time_months") as [y|] eqn:Gy;
    [|discriminate].
  pose proof (frame_months y Gy) as Hy.
  assert (get_column (frame _ w) "salary" = Ok (map CInt salary)) as Gs
    by (rewrite frame_generated; reflexivity).
  assert (get_column (frame _ w) "expenses"
          = Ok (map CFloat
                  (zip_with (fun s u => fmul (np_float s) u) salary
                     fraction))) as Ge
    by (rewrite frame_generated; reflexivity).
  assert (get_column (frame _ w) "goal_amount" = Ok (map CInt goal_amount))
    as Gg by (rewrite frame_generated; reflexivity).
  assert (get_column (frame _ w) "duration_years"
          = Ok (map CInt duration_years)) as Gd
    by (rewrite frame_generated; reflexivity).
  assert (get_column (frame _ w) "time_months" = Ok y) as Gy'
    by (rewrite frame_generated; exact Gy).
  set (expenses :=
         zip_with (fun s u => fmul (np_float s) u) salary fraction) in *.
  assert (has_non_numeric (map CInt salary)
          || has_non_numeric (map CFloat expenses) = false) as Tse
    by now rewrite Hint, Hfloat.
  assert (has_non_numeric (map CInt goal_amount)
          || has_non_numeric (series_times_12 (map CInt duration_years))
          = false) as Tgd
    by now rewrite text_times_12, !Hint.
  destruct (TrainerFacts.derive_returns_otherwise Model w _ _ _ _ y
              Gs Ge Gg Gd Gy') as (ni & rate & w' & D & _).
  { rewrite !no_text_no_meeting; [reflexivity | now rewrite !Hint | exact Tse]. }
  { rewrite !Hfit, Hfitf; [reflexivity | | |];
      intros x Hx; [apply Rd in Hx | apply Rg in Hx | apply Rs in Hx]; lia. }
  { unfold divides_by_zero. now rewrite !Hint. }
  eexists. exists y, w'. split; [exact D|].
  apply derive_ok_inv in D
    as (sal & exp & goal & dur & ni' & rate' & Gs' & Ge' & Gg' & Gd' & _
        & Cs & Cd & HX & _).
  injection HX as <- <-.
  rewrite Gs in Gs'. rewrite Ge in Ge'. rewrite Gg in Gg'.
  rewrite Gd in Gd'.
  injection Gs' as <-. injection Ge' as <-. injection Gg' as <-.
  injection Gd' as <-.
  pose proof one_units_pos as U.
  assert (List.length (map CInt salary)
          = List.length (map CFloat expenses)) as Lse
    by (unfold expenses; rewrite !length_map, zip_with_length; congruence).
  assert (List.length (map CInt goal_amount)
          = List.length (series_times_12 (map CInt duration_years))) as Lgd.
  { destruct (times_12_cells (map CInt duration_years)) as (g & -> & _).
    rewrite !length_map. congruence. }
  destruct (series_sub_numeric_cells _ _ ni Tse Lse Cs) as (Lni & Cni).
  destruct (series_div_numeric_cells _ _ rate Tgd Lgd Cd) as (Lrate & Crate).
  assert (forall z, In z ni -> is_clean z = true) as Kni.
  { intros z Hz. destruct (Cni z Hz) as (a & b & Ha & Hb & Hab).
    apply in_map_iff in Ha as (s & <- & Hs).
    apply in_map_iff in Hb as (e & <- & He).
    destruct Hab as [-> | ->]; [reflexivity|].
    apply expenses_finite in He as (E & -> & _).
    specialize (Rs s Hs). pose proof (small_is_exact s).
    unfold float64_sub. cbn [as_float].
    rewrite np_float_exact by lia.
    unfold is_clean. rewrite is_missing_float; [reflexivity|].
    apply round64_not_nan. }
  assert (forall z, In z rate -> is_clean z = true) as Krate.
  { intros z Hz. destruct (Crate z Hz) as (a & b & Ha & Hb & ->).
    apply in_map_iff in Ha as (g & <- & Hg).
    destruct (times_12_cells (map CInt duration_years)) as (t & Et & Ht).
    rewrite Et in Hb. apply in_map_iff in Hb as (d' & <- & Hd').
    destruct (Ht d' Hd') as (Tn & Tm & _).
    apply in_map_iff in Hd' as (d & <- & Hd).
    specialize (Rg g Hg). pose proof (small_is_exact g).
    unfold float64_div. cbn [as_float].
    rewrite (np_float_exact g) by lia.
    unfold is_clean. rewrite is_missing_float; [reflexivity|].
    apply np_divide_not_nan; [nia|].
    cbn [is_non_numeric is_missing] in Tn, Tm.
    destruct (t (CInt d)) as [z|x|s]; cbn [as_float];
      [apply round64_not_nan | | discriminate].
    intros ->. discriminate. }
  split; [|split; [|exact Hy]].
  - unfold frame_has_invalid. cbn [existsb snd].
    rewrite (clean_column ni Kni), (clean_column rate Krate).
    rewrite (clean_column (map CInt salary)),
      (clean_column (map CFloat expenses)); [reflexivity | |].
    + intros z (e & <- & He)%in_map_iff.
      apply expenses_finite in He as (E & -> & _). reflexivity.
    + now intros z (s & <- & _)%in_map_iff.
  - repeat (apply Forall_cons || apply Forall_nil); cbn [snd].
    + rewrite Lni. now rewrite length_map.
    + rewrite Lrate. now rewrite length_map.
    + now rewrite length_map.
    + unfold expenses. rewrite length_map, zip_with_length; congruence.
Qed.

End Derivation.

End OnTheArrays.

(** *** The generator *)

Section WithRandomState.

Variable rng_state : Type.
Variable seed : Z -> rng_state.
Variable randint : Z -> Z -> nat -> rng_state -> list Z * rng_state.
Variable uniform :
  float -> float -> nat -> rng_state -> list float * rng_state.
Variable choice :
  list string -> nat -> rng_state -> list string * rng_state.

Hypothesis contract : numpy_draws rng_state randint uniform choice.

Local Abbreviation generate :=
  (generate_synthetic_data rng_state seed randint uniform choice).

(** The frame generated is the frame assembled from seven arrays of the
    documented sizes and ranges. *)
Lemma generate_unfold n g :
  exists salary fraction savings_percent goal_amount duration_years
         goal_type noise,
    fst (generate n g) =
      synthetic_frame salary fraction savings_percent goal_amount
        duration_years goal_type noise /\
    drawn n salary fraction savings_percent goal_amount duration_years
      goal_type noise.
Proof.
  destruct contract as (Hri & Hun & Hch).
  pose proof one_units_pos as U.
  unfold generate_synthetic_data, rand_bind, np_random_seed, rand_ret.
  pose proof (Hri 30000 200000 n (seed 42)) as [L1 R1].
  destruct (randint 30000 200000 n (seed 42)) as [salary g1].
  pose proof (Hun (of_ratio 3 10) (of_ratio 8 10) n g1) as [L2 R2].
  destruct (uniform (of_ratio 3 10) (of_ratio 8 10) n g1) as [fraction g2].
  pose proof (Hun (of_ratio 1 10) (of_ratio 4 10) n g2) as [L3 R3].
  destruct (uniform (of_ratio 1 10) (of_ratio 4 10) n g2) as [sp g3].
  pose proof (Hri 100000 5000000 n g3) as [L4 R4].
  destruct (randint 100000 5000000 n g3) as [goal g4].
  pose proof (Hri 1 10 n g4) as [L5 R5].
  destruct (randint 1 10 n g4) as [years g5].
  pose proof (Hch ["car"; "house_downpayment"; "trip"; "education"]%string
                n g5) as L6.
  destruct (choice _ n g5) as [gt g6].
  pose proof (Hri (-10) 10 n g6) as [L7 R7].
  destruct (randint (-10) 10 n g6) as [noise g7].
  cbn [fst] in *.
  exists salary, fraction, sp, goal, years, gt, noise.
  split; [reflexivity|].
  split; [tauto|].
  split; [intros s Hs; apply R1; [lia | exact Hs]|].
  split; [intros u Hu; apply R2; [apply round64_mono; lia | exact Hu]|].
  split; [intros r Hr; apply R3; [apply round64_mono; lia | exact Hr]|].
  split; [intros x Hx; apply R4; [lia | exact Hx]|].
  split; [intros d Hd; apply R5; [lia | exact Hd]|].
  intros z Hz; apply R7; [lia | exact Hz].
Qed.

End WithRandomState.

(** *** The counter generator meets the contract *)

Lemma le_float_refl_l x y : le_float x y -> le_float x x.
Proof.
  unfold le_float. destruct x, y; cbn [fle]; try congruence;
    intros _; apply Z.leb_refl.
Qed.

Lemma counter_draws : numpy_draws Z counter_randint counter_uniform
                        counter_choice.
Proof.
  split; [|split].
  - intros lo hi n g. unfold counter_randint. cbn [fst]. split.
    + now rewrite length_map, length_seq.
    + intros Hlt x (i & <- & _)%in_map_iff.
      pose proof (Z.mod_pos_bound (g + Z.of_nat i) (hi - lo)). lia.
  - intros lo hi n g. unfold counter_uniform. cbn [fst]. split.
    + apply repeat_length.
    + intros Hle x ->%repeat_spec. split; [|assumption].
      now apply le_float_refl_l with hi.
  - intros xs n g. unfold counter_choice. cbn [fst]. apply repeat_length.
Qed.

End GeneratedData.

Module RouteOutcomes.
Import RouteFacts.

Lemma predict_route_outcome model p :
  valid_profile p ->
  (exists resp, predict_goal_achievement model p = Ok (resp, p)) \/
  (exists e, predict_goal_achievement model p = Raise e /\
             expected_error model e).
Proof.
  intros V.
  destruct (predict_time_to_goal model p) as [m|e] eqn:P.
  2: { right. exists e. split; [|now apply predictor_raises with p].
       unfold predict_goal_achievement, rbind, reading. now rewrite P. }
  destruct (calculate_recommendation p (duration_years p * 12))
    as [r|e] eqn:C.
  2: { right. exists e. split.
       - unfold predict_goal_achievement, rbind, reading. now rewrite P, C.
       - pose proof (valid_profile_inv p V) as (_ & _ & _ & Hy & _).
         destruct (solver_raises p (duration_years p * 12) e V ltac:(lia) C)
           as [-> | ->];
           unfold expected_error; auto. }
  destruct (insight_generation_returns p m _ r V C) as [i I].
  left. eexists. apply (predict_route_returns model p m r i P C I).
Qed.

Lemma recommend_route_outcome model p :
  valid_profile p ->
  (exists resp o, get_savings_recommendation model p = Ok (resp, o)) \/
  (exists e, get_savings_recommendation model p = Raise e /\
             expected_error model e).
Proof.
  intros V.
  destruct (calculate_recommendation p (duration_years p * 12))
    as [r|e] eqn:C.
  2: { right. exists e. split.
       - unfold get_savings_recommendation, rbind, reading. now rewrite C.
       - pose proof (valid_profile_inv p V) as (_ & _ & _ & Hy & _).
         destruct (solver_raises p (duration_years p * 12) e V ltac:(lia) C)
           as [-> | ->];
           unfold expected_error; auto. }
  destruct (predict_time_to_goal model p) as [m|e] eqn:P.
  2: { right. exists e. split; [|now apply predictor_raises with p].
       unfold get_savings_recommendation, rbind, reading,
         set_savings_percent.
       rewrite C. unfold predict_time_to_goal at 1.
       rewrite raw_prediction_ignores_savings_percent.
       fold (predict_time_to_goal model p). now rewrite P. }
  left. do 2 eexists. apply (recommend_route_returns model p m r P C).
Qed.

(** Each route returns when the other does, with the same months,
    percentage and goal type. *)
Lemma predict_then_recommend model p resp o :
  predict_goal_achievement model p = Ok (resp, o) ->
  exists resp' o',
    get_savings_recommendation model p = Ok (resp', o') /\
    r_goal_type resp' = r_goal_type resp /\
    predicted_months resp' = predicted_months resp /\
    recommended_savings_percent resp' = recommended_savings_percent resp.
Proof.
  intros (m & r & i & P & C & _ & -> & _)%predict_route_inv.
  do 2 eexists. split; [apply (recommend_route_returns model p m r P C)|].
  repeat split.
Qed.

Lemma recommend_then_predict model p resp o :
  valid_profile p ->
  get_savings_recommendation model p = Ok (resp, o) ->
  exists resp',
    predict_goal_achievement model p = Ok (resp', p) /\
    r_goal_type resp' = r_goal_type resp /\
    predicted_months resp' = predicted_months resp /\
    recommended_savings_percent resp' = recommended_savings_percent resp.
Proof.
  intros V (r & m & C & P & -> & _)%recommend_route_inv.
  destruct (insight_generation_returns p m _ r V C) as [i I].
  eexists. split; [apply (predict_route_returns model p m r i P C I)|].
  repeat split.
Qed.

End RouteOutcomes.

(** ** Further properties of the code *)

Import SolverOrder RouteFacts RouteOutcomes CorsFacts TrainingEffects.
Import SyntheticFacts GeneratedData Frames Synthetic.

(** Evaluations the examples below share. *)
Lemma feasible_over_12_months :
  calculate_recommendation scenario_feasible 12 = Ok 70.
Proof. vm_compute. reflexivity. Qed.

Lemma feasible_over_24_months :
  calculate_recommendation scenario_feasible 24 = Ok 60.
Proof. vm_compute. reflexivity. Qed.

Lemma higher_expenses_over_24_months :
  calculate_recommendation scenario_higher_expenses 24 = Ok 80.
Proof. vm_compute. reflexivity. Qed.

Lemma higher_salary_over_24_months :
  calculate_recommendation scenario_higher_salary 24 = Ok 50.
Proof. vm_compute. reflexivity. Qed.

Lemma feasible_expense_share :
  expense_share_percent scenario_feasible = Ok 50.
Proof. vm_compute. reflexivity. Qed.

Lemma scenario_higher_expenses_finite :
  finite_profile scenario_higher_expenses.
Proof. vm_compute. repeat split. Qed.

Lemma scenario_higher_salary_finite : finite_profile scenario_higher_salary.
Proof. vm_compute. repeat split. Qed.

Lemma scenario_overspending_finite : finite_profile scenario_overspending.
Proof. vm_compute. repeat split. Qed.

(** X1. [calculate_recommendation]: for a valid profile, a longer target
    never needs a higher percentage: with [t1 <= t2] the result for [t2]
    months is at most the result for [t1] months, across both branches. *)
Theorem longer_target_never_raises_the_recommendation
    (p : FinancialInput) (t1 t2 r1 r2 : Z) :
  valid_profile p -> 0 < t1 -> t1 <= t2 ->
  calculate_recommendation p t1 = Ok r1 ->
  calculate_recommendation p t2 = Ok r2 ->
  r2 <= r1.
Proof. apply solver_antitone_target. Qed.

Lemma longer_target_never_raises_the_recommendation_witness :
  calculate_recommendation scenario_feasible 12 = Ok 70 /\
  calculate_recommendation scenario_feasible 24 = Ok 60 /\ 60 <= 70.
Proof.
  split; [exact feasible_over_12_months|].
  split; [exact feasible_over_24_months|].
  exact (longer_target_never_raises_the_recommendation scenario_feasible
           12 24 70 60 (proj1 scenario_feasible_finite)
           ltac:(reflexivity) ltac:(discriminate)
           feasible_over_12_months feasible_over_24_months).
Defined.

(** X2. [calculate_recommendation]: with salary, goal and target fixed
    and all amounts finite, higher expenses never lower the recommended
    percentage. *)
Theorem higher_expenses_never_lower_the_recommendation
    (p : FinancialInput) (e1 e2 : float) (t r1 r2 : Z) :
  finite_profile (with_expenses p e1) ->
  finite_profile (with_expenses p e2) ->
  0 < t -> le_float e1 e2 ->
  calculate_recommendation (with_expenses p e1) t = Ok r1 ->
  calculate_recommendation (with_expenses p e2) t = Ok r2 ->
  r1 <= r2.
Proof. apply solver_monotone_expenses. Qed.

Lemma higher_expenses_never_lower_the_recommendation_witness :
  calculate_recommendation scenario_feasible 24 = Ok 60 /\
  calculate_recommendation scenario_higher_expenses 24 = Ok 80 /\ 60 <= 80.
Proof.
  split; [exact feasible_over_24_months|].
  split; [exact higher_expenses_over_24_months|].
  exact (higher_expenses_never_lower_the_recommendation scenario_feasible
           (amount 50000) (amount 70000) 24 60 80
           scenario_feasible_finite scenario_higher_expenses_finite
           ltac:(reflexivity) ltac:(vm_compute; reflexivity)
           feasible_over_24_months higher_expenses_over_24_months).
Defined.

(** X3. [calculate_recommendation]: with expenses, goal and target fixed
    and all amounts finite, a higher salary never raises the recommended
    percentage. *)
Theorem higher_salary_never_raises_the_recommendation
    (p : FinancialInput) (s1 s2 : float) (t r1 r2 : Z) :
  finite_profile (with_salary p s1) ->
  finite_profile (with_salary p s2) ->
  0 < t -> le_float s1 s2 ->
  calculate_recommendation (with_salary p s1) t = Ok r1 ->
  calculate_recommendation (with_salary p s2) t = Ok r2 ->
  r2 <= r1.
Proof. apply solver_antitone_salary. Qed.

Lemma higher_salary_never_raises_the_recommendation_witness :
  calculate_recommendation scenario_feasible 24 = Ok 60 /\
  calculate_recommendation scenario_higher_salary 24 = Ok 50 /\ 50 <= 60.
Proof.
  split; [exact feasible_over_24_months|].
  split; [exact higher_salary_over_24_months|].
  exact (higher_salary_never_raises_the_recommendation scenario_feasible
           (amount 100000) (amount 120000) 24 60 50
           scenario_feasible_finite scenario_higher_salary_finite
           ltac:(reflexivity) ltac:(vm_compute; reflexivity)
           feasible_over_24_months higher_salary_over_24_months).
Defined.

(** X4. [calculate_recommendation]: when the expenses are not below the
    salary (finite amounts, a target that converts to a float) the result
    is 100 whatever the goal is, also when nothing is left to compare the
    goal with. *)
Theorem overspending_always_recommends_100
    (p : FinancialInput) (t : Z) :
  finite_profile p -> 0 < t < int_overflow_bound ->
  fle (salary p) (expenses p) = true ->
  calculate_recommendation p t = Ok 100.
Proof. apply overspending_returns_100. Qed.

Lemma overspending_always_recommends_100_witness :
  calculate_recommendation scenario_overspending 24 = Ok 100.
Proof.
  exact (overspending_always_recommends_100 scenario_overspending 24
           scenario_overspending_finite months_24_convertible
           ltac:(vm_compute; reflexivity)).
Defined.

(** X5. [calculate_recommendation]: the percentage it returns is never
    below the share of the salary that the expenses already take
    ([expenses / salary * 100], rounded and clamped the same way): line 93
    divides goal savings plus expenses by the salary. *)
Theorem recommendation_covers_the_expense_share
    (p : FinancialInput) (t q r : Z) :
  valid_profile p -> 0 < t ->
  expense_share_percent p = Ok q ->
  calculate_recommendation p t = Ok r ->
  q <= r.
Proof. apply expense_share_le. Qed.

Lemma recommendation_covers_the_expense_share_witness :
  expense_share_percent scenario_feasible = Ok 50 /\
  calculate_recommendation scenario_feasible 24 = Ok 60 /\ 50 <= 60.
Proof.
  split; [exact feasible_expense_share|].
  split; [exact feasible_over_24_months|].
  exact (recommendation_covers_the_expense_share scenario_feasible 24 50 60
           (proj1 scenario_feasible_finite) ltac:(reflexivity)
           feasible_expense_share feasible_over_24_months).
Defined.

(** X6. [predict_goal_achievement] and [get_savings_recommendation]: on a
    valid profile each route either returns or raises [OverflowError],
    [ValueError] or an exception of the model; neither divides by zero and
    the response never fails its own validation. *)
Theorem routes_raise_only_expected_errors
    (model : FeatureRow -> result float) (p : FinancialInput) :
  valid_profile p ->
  ((exists resp, predict_goal_achievement model p = Ok (resp, p)) \/
   (exists e, predict_goal_achievement model p = Raise e /\
              expected_error model e))
  /\
  ((exists resp o, get_savings_recommendation model p = Ok (resp, o)) \/
   (exists e, get_savings_recommendation model p = Raise e /\
              expected_error model e)).
Proof.
  intros V. split;
    [now apply predict_route_outcome | now apply recommend_route_outcome].
Qed.

Lemma routes_raise_only_expected_errors_witness :
  ((exists resp,
       predict_goal_achievement (flat_model (amount 30)) scenario_feasible
       = Ok (resp, scenario_feasible)) \/
   (exists e,
       predict_goal_achievement (flat_model (amount 30)) scenario_feasible
       = Raise e /\ expected_error (flat_model (amount 30)) e))
  /\
  ((exists resp o,
       get_savings_recommendation (flat_model (amount 30)) scenario_feasible
       = Ok (resp, o)) \/
   (exists e,
       get_savings_recommendation (flat_model (amount 30)) scenario_feasible
       = Raise e /\ expected_error (flat_model (amount 30)) e)).
Proof.
  exact (routes_raise_only_expected_errors (flat_model (amount 30))
           scenario_feasible (proj1 scenario_feasible_finite)).
Defined.

(** X7. The two routes on the same valid profile and model: one returns
    exactly when the other does, and then both report the same goal type,
    the same predicted months and the same recommended percentage. *)
Theorem routes_agree_on_what_they_share
    (model : FeatureRow -> result float) (p : FinancialInput) :
  valid_profile p ->
  (forall resp o,
      predict_goal_achievement model p = Ok (resp, o) ->
      exists resp' o',
        get_savings_recommendation model p = Ok (resp', o') /\
        r_goal_type resp' = r_goal_type resp /\
        predicted_months resp' = predicted_months resp /\
        recommended_savings_percent resp'
        = recommended_savings_percent resp)
  /\
  (forall resp o,
      get_savings_recommendation model p = Ok (resp, o) ->
      exists resp',
        predict_goal_achievement model p = Ok (resp', p) /\
        r_goal_type resp' = r_goal_type resp /\
        predicted_months resp' = predicted_months resp /\
        recommended_savings_percent resp'
        = recommended_savings_percent resp).
Proof.
  intros V. split.
  - apply predict_then_recommend.
  - intros resp o. now apply recommend_then_predict.
Qed.

Lemma routes_agree_on_what_they_share_witness :
  (forall resp o,
      predict_goal_achievement feature_model scenario_feasible
      = Ok (resp, o) ->
      exists resp' o',
        get_savings_recommendation feature_model scenario_feasible
        = Ok (resp', o') /\
        r_goal_type resp' = r_goal_type resp /\
        predicted_months resp' = predicted_months resp /\
        recommended_savings_percent resp'
        = recommended_savings_percent resp)
  /\
  (forall resp o,
      get_savings_recommendation feature_model scenario_feasible
      = Ok (resp, o) ->
      exists resp',
        predict_goal_achievement feature_model scenario_feasible
        = Ok (resp', scenario_feasible) /\
        r_goal_type resp' = r_goal_type resp /\
        predicted_months resp' = predicted_months resp /\
        recommended_savings_percent resp'
        = recommended_savings_percent resp).
Proof.
  exact (routes_agree_on_what_they_share feature_model scenario_feasible
           (proj1 scenario_feasible_finite)).
Defined.

(** X8. [predict_goal_achievement], lines 119-147 against
    [calculate_recommendation]: the narrative asks to increase the monthly
    savings exactly when the prediction exceeds the target and the goal is
    infeasible (the monthly amount needed exceeds the net income), and the
    percentage it then quotes is 100; the fallback narrative is given
    exactly when the prediction exceeds the target and the goal is
    feasible. *)
Theorem increase_savings_narrative_quotes_100
    (p : FinancialInput) (predicted t recommended : Z) :
  valid_profile p ->
  calculate_recommendation p t = Ok recommended ->
  exists i msn,
    insight_generation p predicted t recommended = Ok i /\
    monthly_savings_needed p t = Ok msn /\
    (branch_of i = Some BranchBehindWithGap <->
     t < predicted /\ fgt msn (net_income p) = true) /\
    (branch_of i = Some BranchFallback <->
     t < predicted /\ fgt msn (net_income p) = false) /\
    (branch_of i = Some BranchBehindWithGap -> recommended = 100).
Proof.
  intros V C.
  destruct (insight_generation_returns p predicted t recommended V C)
    as (i & I).
  destruct (solver_ok_inv p t recommended C) as (msn & M).
  exists i, msn. split; [exact I|]. split; [exact M|].
  exact (insight_branch_vs_solver p predicted t recommended msn i M C I).
Qed.

Lemma increase_savings_narrative_quotes_100_witness :
  exists i msn,
    insight_generation scenario_feasible 30 24 60 = Ok i /\
    monthly_savings_needed scenario_feasible 24 = Ok msn /\
    (branch_of i = Some BranchBehindWithGap <->
     24 < 30 /\ fgt msn (net_income scenario_feasible) = true) /\
    (branch_of i = Some BranchFallback <->
     24 < 30 /\ fgt msn (net_income scenario_feasible) = false) /\
    (branch_of i = Some BranchBehindWithGap -> 60 = 100).
Proof.
  exact (increase_savings_narrative_quotes_100 scenario_feasible 30 24 60
           (proj1 scenario_feasible_finite) feasible_over_24_months).
Defined.

(** X9. Lines 30-31: every origin handed to the CORS middleware is
    stripped of surrounding white space, is not empty and holds no comma,
    whatever [CORS_ORIGINS] is set to. *)
Theorem origins_are_stripped_and_not_empty
    (env : option Cors.str) (o : Cors.str) :
  In o (Cors.origins env) ->
  Cors.strip o = o /\ o <> [] /\ ~ In Cors.comma o.
Proof. apply origin_clean. Qed.

Lemma origins_are_stripped_and_not_empty_witness :
  Cors.strip (Cors.of_ascii "http://localhost:5173")
  = Cors.of_ascii "http://localhost:5173" /\
  Cors.of_ascii "http://localhost:5173" <> [] /\
  ~ In Cors.comma (Cors.of_ascii "http://localhost:5173").
Proof.
  exact (origins_are_stripped_and_not_empty None
           (Cors.of_ascii "http://localhost:5173")
           ltac:(vm_compute; left; reflexivity)).
Defined.

(** X10. Lines 30-31: the list of origins is a fixed point of the
    setting: joined again with commas and parsed again, it comes back
    unchanged. *)
Theorem origins_survive_a_round_trip (env : option Cors.str) :
  Cors.origins (Some (Cors.join Cors.comma (Cors.origins env)))
  = Cors.origins env.
Proof.
  apply origins_of_join. intros o H. now apply origin_clean in H.
Qed.

(** X11. Lines 30-31: a [CORS_ORIGINS] that is set allows no origin
    exactly when it holds nothing but commas and white space (the empty
    string included); the default applies only when it is not set. *)
Theorem blank_setting_allows_no_origin (s : Cors.str) :
  Cors.origins (Some s) = [] <->
  Forall (fun c => c = Cors.comma \/ Cors.is_space c = true) s.
Proof. apply origins_nil_iff. Qed.

(** X12. [train_and_save_model] changes the caller's frame in two columns
    at most, whatever its outcome: every column other than [net_income]
    and [required_savings_rate] reads as before; and when the derivation
    returned, the frame holds the feature columns that were handed to the
    estimator. *)
Theorem training_changes_two_columns_of_the_frame
    (Model : Type)
    (train_test_split :
       DataFrame -> column ->
       result (DataFrame * DataFrame * column * column))
    (fit : DataFrame -> column -> result Model)
    (predict : Model -> DataFrame -> result column)
    (mean_absolute_error : column -> column -> result float)
    (w : world Model) :
  (forall k,
      k <> "net_income"%string -> k <> "required_savings_rate"%string ->
      get_column
        (frame _ (snd (train_and_save_model Model train_test_split fit
                         predict mean_absolute_error w))) k
      = get_column (frame _ w) k)
  /\
  (forall X y w',
      derive_features Model w = (Ok (X, y), w') ->
      select_columns
        (frame _ (snd (train_and_save_model Model train_test_split fit
                         predict mean_absolute_error w))) feature_names
      = Ok X).
Proof.
  split.
  - intros k. apply train_frame.
  - intros X y w'. apply train_frame_derived.
Qed.

(** X13. [train_and_save_model] on a frame that lacks one of the five
    columns it reads: it raises ([KeyError], unless the arithmetic on the
    columns before it raised first), the estimator is not reached and no
    artifact is written. *)
Theorem training_needs_its_five_columns
    (Model : Type)
    (train_test_split :
       DataFrame -> column ->
       result (DataFrame * DataFrame * column * column))
    (fit : DataFrame -> column -> result Model)
    (predict : Model -> DataFrame -> result column)
    (mean_absolute_error : column -> column -> result float)
    (w : world Model) (k : string) :
  In k required_columns ->
  get_column (frame _ w) k = Raise KeyError ->
  exists e w',
    train_and_save_model Model train_test_split fit predict
      mean_absolute_error w = (Raise e, w') /\
    (e = KeyError \/ arithmetic_error e) /\
    artifact _ w' = artifact _ w /\ history _ w' = history _ w.
Proof. apply train_missing_column. Qed.

Lemma training_needs_its_five_columns_witness :
  exists e w',
    train_and_save_model unit lenient_split lenient_fit lenient_predict
      lenient_mae (mkWorld unit dataset_without_target None [])
    = (Raise e, w') /\
    (e = KeyError \/ arithmetic_error e) /\
    artifact _ w' = None /\ history _ w' = [].
Proof.
  exact (training_needs_its_five_columns unit lenient_split lenient_fit
           lenient_predict lenient_mae
           (mkWorld unit dataset_without_target None []) "time_months"
           ltac:(cbn; tauto) eq_refl).
Defined.

(** X14. Lines 61-65 run again on the frame they extended: the
    derivation returns the same features and target and leaves the frame
    as it is, so training the same frame twice hands the estimator the
    same data. *)
Theorem derivation_is_repeatable
    (Model : Type) (w w' : world Model) (X : DataFrame) (y : column) :
  derive_features Model w = (Ok (X, y), w') ->
  derive_features Model w' = (Ok (X, y), w').
Proof. apply derive_again. Qed.

Lemma derivation_is_repeatable_witness :
  exists X y w',
    derive_features unit (mkWorld unit dataset_with_missing_salary None [])
    = (Ok (X, y), w') /\
    derive_features unit w' = (Ok (X, y), w').
Proof.
  destruct (derive_returns_otherwise unit
              (mkWorld unit dataset_with_missing_salary None [])
              _ _ _ _ _ eq_refl eq_refl eq_refl eq_refl eq_refl
              eq_refl eq_refl eq_refl) as (ni & rate & w' & D & _).
  do 2 eexists. exists w'. split; [exact D|].
  exact (derivation_is_repeatable unit _ w' _ _ D).
Defined.

(** X15. [generate_synthetic_data], with draws that return [size] values
    in the ranges asked for: the frame has the eight columns of lines
    44-53 in that order, each with [n_records] cells, so that
    [len(synthetic_df)] of line 87 is [n_records]. *)
Theorem generated_frame_has_n_records
    (rng_state : Type) (seed : Z -> rng_state)
    (randint : Z -> Z -> nat -> rng_state -> list Z * rng_state)
    (uniform : float -> float -> nat -> rng_state -> list float * rng_state)
    (choice : list string -> nat -> rng_state -> list string * rng_state)
    (n : nat) (g : rng_state) :
  numpy_draws rng_state randint uniform choice ->
  map fst (fst (generate_synthetic_data rng_state seed randint uniform
                  choice n g)) = column_names /\
  Forall (fun kc => List.length (snd kc) = n)
    (fst (generate_synthetic_data rng_state seed randint uniform choice
            n g)).
Proof.
  intros C.
  destruct (generate_unfold rng_state seed randint uniform choice C n g)
    as (sa & fr & sp & ga & du & gt & no & -> & D).
  now apply frame_shape.
Qed.

Lemma generated_frame_has_n_records_witness :
  map fst (fst (generate_synthetic_data Z counter_seed counter_randint
                  counter_uniform counter_choice 3 0)) = column_names /\
  Forall (fun kc => List.length (snd kc) = 3%nat)
    (fst (generate_synthetic_data Z counter_seed counter_randint
            counter_uniform counter_choice 3 0)).
Proof.
  exact (generated_frame_has_n_records Z counter_seed counter_randint
           counter_uniform counter_choice 3 0 counter_draws).
Defined.

(** X16. [generate_synthetic_data], under the same contract: every
    [time_months] it generates is an integer between 1 and 120; no draw
    makes the target missing or sends it out of the clip of line 39. *)
Theorem generated_months_are_between_1_and_120
    (rng_state : Type) (seed : Z -> rng_state)
    (randint : Z -> Z -> nat -> rng_state -> list Z * rng_state)
    (uniform : float -> float -> nat -> rng_state -> list float * rng_state)
    (choice : list string -> nat -> rng_state -> list string * rng_state)
    (n : nat) (g : rng_state) :
  numpy_draws rng_state randint uniform choice ->
  exists y,
    get_column (fst (generate_synthetic_data rng_state seed randint uniform
                       choice n g)) "time_months" = Ok y /\
    Forall is_month_count y.
Proof.
  intros C.
  destruct (generate_unfold rng_state seed randint uniform choice C n g)
    as (sa & fr & sp & ga & du & gt & no & -> & D).
  eexists. split; [reflexivity|].
  now apply (frame_months n sa fr sp ga du gt no D).
Qed.

Lemma generated_months_are_between_1_and_120_witness :
  exists y,
    get_column (fst (generate_synthetic_data Z counter_seed counter_randint
                       counter_uniform counter_choice 3 0)) "time_months"
    = Ok y /\
    Forall is_month_count y.
Proof.
  exact (generated_months_are_between_1_and_120 Z counter_seed
           counter_randint counter_uniform counter_choice 3 0
           counter_draws).
Defined.

(** X17. [generate_synthetic_data], under the same contract: in every
    record the expenses are a positive finite amount that the salary
    covers, as line 22 intends. *)
Theorem generated_expenses_are_within_the_salary
    (rng_state : Type) (seed : Z -> rng_state)
    (randint : Z -> Z -> nat -> rng_state -> list Z * rng_state)
    (uniform : float -> float -> nat -> rng_state -> list float * rng_state)
    (choice : list string -> nat -> rng_state -> list string * rng_state)
    (n : nat) (g : rng_state) :
  numpy_draws rng_state randint uniform choice ->
  exists sal exp,
    get_column (fst (generate_synthetic_data rng_state seed randint uniform
                       choice n g)) "salary" = Ok sal /\
    get_column (fst (generate_synthetic_data rng_state seed randint uniform
                       choice n g)) "expenses" = Ok exp /\
    Forall2 within_salary sal exp.
Proof.
  intros C.
  destruct (generate_unfold rng_state seed randint uniform choice C n g)
    as (sa & fr & sp & ga & du & gt & no & -> & D).
  do 2 eexists. split; [reflexivity|]. split; [reflexivity|].
  now apply (frame_within_salary n sa fr sp ga du gt no D).
Qed.

Lemma generated_expenses_are_within_the_salary_witness :
  exists sal exp,
    get_column (fst (generate_synthetic_data Z counter_seed counter_randint
                       counter_uniform counter_choice 3 0)) "salary"
    = Ok sal /\
    get_column (fst (generate_synthetic_data Z counter_seed counter_randint
                       counter_uniform counter_choice 3 0)) "expenses"
    = Ok exp /\
    Forall2 within_salary sal exp.
Proof.
  exact (generated_expenses_are_within_the_salary Z counter_seed
           counter_randint counter_uniform counter_choice 3 0
           counter_draws).
Defined.

(** X18. The script of lines 84-92, [train_and_save_model] on what
    [generate_synthetic_data] returns, under the same contract: the
    derivation of lines 61-65 returns, the feature frame has [n_records]
    rows and no missing or non-numeric cell, the target holds month
    counts between 1 and 120, and the outcome of training is that of the
    estimator calls on this frame. *)
Theorem generated_data_reaches_the_estimator
    (rng_state : Type) (seed : Z -> rng_state)
    (randint : Z -> Z -> nat -> rng_state -> list Z * rng_state)
    (uniform : float -> float -> nat -> rng_state -> list float * rng_state)
    (choice : list string -> nat -> rng_state -> list string * rng_state)
    (Model : Type)
    (train_test_split :
       DataFrame -> column ->
       result (DataFrame * DataFrame * column * column))
    (fit : DataFrame -> column -> result Model)
    (predict : Model -> DataFrame -> result column)
    (mean_absolute_error : column -> column -> result float)
    (n : nat) (g : rng_state) (w : world Model) :
  numpy_draws rng_state randint uniform choice ->
  frame _ w
  = fst (generate_synthetic_data rng_state seed randint uniform choice
           n g) ->
  exists X y w',
    derive_features Model w = (Ok (X, y), w') /\
    frame_has_invalid X = false /\
    Forall (fun kc => List.length (snd kc) = n) X /\
    Forall is_month_count y /\
    train_and_save_model Model train_test_split fit predict
      mean_absolute_error w
    = fit_evaluate_save Model train_test_split fit predict
        mean_absolute_error X y w'.
Proof.
  intros C F.
  destruct (generate_unfold rng_state seed randint uniform choice C n g)
    as (sa & fr & sp & ga & du & gt & no & E & D).
  rewrite E in F.
  destruct (derive_on_arrays n sa fr sp ga du gt no D Model w F)
    as (X & y & w' & Dv & HX & HL & Hy).
  exists X, y, w'. repeat (split; [assumption|]).
  now rewrite train_unfold, Dv.
Qed.

Lemma generated_data_reaches_the_estimator_witness :
  exists X y w',
    derive_features unit
      (mkWorld unit
         (fst (generate_synthetic_data Z counter_seed counter_randint
                 counter_uniform counter_choice 3 0)) None [])
    = (Ok (X, y), w') /\
    frame_has_invalid X = false /\
    Forall (fun kc => List.length (snd kc) = 3%nat) X /\
    Forall is_month_count y /\
    train_and_save_model unit lenient_split lenient_fit lenient_predict
      lenient_mae
      (mkWorld unit
         (fst (generate_synthetic_data Z counter_seed counter_randint
                 counter_uniform counter_choice 3 0)) None [])
    = fit_evaluate_save unit lenient_split lenient_fit lenient_predict
        lenient_mae X y w'.
Proof.
  exact (generated_data_reaches_the_estimator Z counter_seed
           counter_randint counter_uniform counter_choice unit
           lenient_split lenient_fit lenient_predict lenient_mae 3 0
           (mkWorld unit
              (fst (generate_synthetic_data Z counter_seed counter_randint
                      counter_uniform counter_choice 3 0)) None [])
           counter_draws eq_refl).
Defined.
